(** * agent-webapp backend: a shallow embedding of the REST API

    The development models the Express backend of the repository:
    the request validators, the JWT middleware, the error normalizer,
    the Mongoose models and the item, auth and status routers, and the
    order in which the application chains them.  Handlers are state
    passing functions over the document store; what the store, the
    clock and the process environment contribute to a request is
    gathered in an explicit record. *)

From Stdlib Require Import ZArith String Ascii List Bool Lia Permutation Sorted.
From stdpp Require Import base option strings gmap.

Import ListNotations.
Local Open Scope string_scope.
Local Open Scope Z_scope.

(** ** JavaScript strings

    A string is held as the bytes of its UTF-8 encoding.  White space is
    what the regular expression class [\s] and [String.prototype.trim]
    accept: the ASCII white space and the characters U+00A0, U+1680,
    U+2000 to U+200A, U+2028, U+2029, U+202F, U+205F, U+3000 and
    U+FEFF. *)
Module Js.

Definition byte (c : ascii) : nat := nat_of_ascii c.

(** Tab, line feed, vertical tab, form feed, carriage return and space. *)
Definition is_space (c : ascii) : bool :=
  let n := nat_of_ascii c in
  ((9 <=? n) && (n <=? 13) || (n =? 32))%nat.

(** U+00A0, the white space character of two bytes. *)
Definition is_space2 (a b : ascii) : bool :=
  ((byte a =? 194) && (byte b =? 160))%nat.

(** The white space characters of three bytes: U+1680, U+2000 to U+200A,
    U+2028, U+2029, U+202F, U+205F, U+3000 and U+FEFF. *)
Definition is_space3 (a b c : ascii) : bool :=
  ((byte a =? 225) && (byte b =? 154) && (byte c =? 128)
   || (byte a =? 226) && (byte b =? 128)
      && ((128 <=? byte c) && (byte c <=? 138)
          || (byte c =? 168) || (byte c =? 169) || (byte c =? 175))
   || (byte a =? 226) && (byte b =? 129) && (byte c =? 159)
   || (byte a =? 227) && (byte b =? 128) && (byte c =? 128)
   || (byte a =? 239) && (byte b =? 187) && (byte c =? 191))%nat.

(** The number of bytes of the white space character a string starts
    with, zero when it starts with none. *)
Definition space_width (s : string) : nat :=
  match s with
  | EmptyString => 0
  | String a r =>
      if is_space a then 1
      else
        match r with
        | EmptyString => 0
        | String b r' =>
            if is_space2 a b then 2
            else
              match r' with
              | EmptyString => 0
              | String c _ => if is_space3 a b c then 3 else 0
              end
        end
  end%nat.

Definition is_digit (c : ascii) : bool :=
  let n := nat_of_ascii c in ((48 <=? n) && (n <=? 57))%nat.

Definition is_lower_hex (c : ascii) : bool :=
  let n := nat_of_ascii c in
  is_digit c || ((97 <=? n) && (n <=? 102))%nat.

Definition is_hex (c : ascii) : bool :=
  let n := nat_of_ascii c in
  is_lower_hex c || ((65 <=? n) && (n <=? 70))%nat.

Definition to_lower (c : ascii) : ascii :=
  let n := nat_of_ascii c in
  if ((65 <=? n) && (n <=? 90))%nat then ascii_of_nat (n + 32) else c.

Fixpoint forallb_string (p : ascii -> bool) (s : string) : bool :=
  match s with
  | EmptyString => true
  | String c r => p c && forallb_string p r
  end.

Fixpoint map_string (f : ascii -> ascii) (s : string) : string :=
  match s with
  | EmptyString => EmptyString
  | String c r => String (f c) (map_string f r)
  end.

(** Lowercasing of the letters A to Z, as the case-insensitive matching
    of route paths and the reading of hexadecimal digits do it. *)
Definition toLowerCase : string -> string := map_string to_lower.

(** A byte that continues a character, and the first byte of a character
    outside the basic plane, which takes two UTF-16 code units. *)
Definition is_continuation (c : ascii) : bool :=
  ((128 <=? byte c) && (byte c <? 192))%nat.

Definition is_astral (c : ascii) : bool := (240 <=? byte c)%nat.

(** [str.length]: the number of UTF-16 code units. *)
Fixpoint length (s : string) : nat :=
  match s with
  | EmptyString => 0
  | String c r =>
      (if is_continuation c then 0 else if is_astral c then 2 else 1) + length r
  end%nat.

(** [str.replace(/^\s+/, '')] *)
Fixpoint ltrim (s : string) : string :=
  match s with
  | EmptyString => EmptyString
  | String a r =>
      if is_space a then ltrim r
      else
        match r with
        | EmptyString => s
        | String b r' =>
            if is_space2 a b then ltrim r'
            else
              match r' with
              | EmptyString => s
              | String c r'' => if is_space3 a b c then ltrim r'' else s
              end
        end
  end.

(** [str.replace(/\s+$/, '')]: the string up to the first point after
    which only white space follows. *)
Fixpoint rtrim (s : string) : string :=
  match s with
  | EmptyString => EmptyString
  | String a r =>
      match ltrim s with
      | EmptyString => EmptyString
      | _ => String a (rtrim r)
      end
  end.

(** validator.js [trim(str)] without a character set, and
    [String.prototype.trim], which Mongoose's [trim] setter calls. *)
Definition trim (s : string) : string := rtrim (ltrim s).

(** A value is truthy unless it is [undefined] or the empty string. *)
Definition truthy (v : option string) : bool :=
  match v with
  | Some s => negb (String.eqb s "")
  | None => false
  end.

(** [str.split(' ')]: one piece per separator, empty pieces kept. *)
Fixpoint split_space_aux (cur : string) (s : string) : list string :=
  match s with
  | EmptyString => [cur]
  | String c r =>
      if Ascii.eqb c " "%char then cur :: split_space_aux "" r
      else split_space_aux (cur ++ String c "") r
  end.

Definition split_space (s : string) : list string := split_space_aux "" s.

(** *** Numbers

    The numbers the application computes with are integers; a number is
    the integer a double holds, an infinity, or [NaN].  Negative zero is
    not told apart from zero. *)
Inductive Number : Type :=
| NaN
| Finite (z : Z)
| Infinite (negative : bool).

(** Rounding of a natural number to the nearest double, ties to the even
    significand of 53 bits. *)
Definition round_double (n : Z) : Z :=
  if n <? 2 ^ 53 then n
  else
    let e := Z.log2 n - 52 in
    let q := Z.shiftr n e in
    let r := n - Z.shiftl q e in
    let half := Z.shiftl 1 (e - 1) in
    Z.shiftl (if r <? half then q
              else if half <? r then q + 1
                   else if Z.even q then q else q + 1) e.

(** The number an integer is held as: what exceeds the largest double
    after rounding is an infinity. *)
Definition of_Z (z : Z) : Number :=
  let m := round_double (Z.abs z) in
  if 2 ^ 1024 <=? m then Infinite (z <? 0) else Finite (Z.sgn z * m).

Definition sub (a b : Number) : Number :=
  match a, b with
  | Finite x, Finite y => of_Z (x - y)
  | Infinite n, Finite _ => Infinite n
  | Finite _, Infinite n => Infinite (negb n)
  | Infinite n, Infinite m => if Bool.eqb n m then NaN else Infinite n
  | _, _ => NaN
  end.

Definition mul (a b : Number) : Number :=
  match a, b with
  | Finite x, Finite y => of_Z (x * y)
  | Infinite n, Finite y | Finite y, Infinite n =>
      if y =? 0 then NaN else Infinite (xorb n (y <? 0))
  | Infinite n, Infinite m => Infinite (xorb n m)
  | _, _ => NaN
  end.

(** [a < b]; a comparison with [NaN] is false. *)
Definition ltb (a b : Number) : bool :=
  match a, b with
  | Finite x, Finite y => x <? y
  | Infinite n, Finite _ => n
  | Finite _, Infinite n => negb n
  | Infinite n, Infinite m => n && negb m
  | _, _ => false
  end.

(** [a || d] for a number [a]: [NaN] and zero are falsy. *)
Definition or_else (a : Number) (d : Z) : Number :=
  match a with
  | NaN | Finite 0 => Finite d
  | _ => a
  end.

(** The value of a digit in a radix up to sixteen. *)
Definition digit_value (c : ascii) : Z :=
  let n := Z.of_nat (nat_of_ascii c) in
  if is_digit c then n - 48
  else if (97 <=? n) && (n <=? 102) then n - 87
       else n - 55.

(** Digits of a string in a radix, most significant first. *)
Fixpoint digits_value (radix acc : Z) (s : string) : Z :=
  match s with
  | EmptyString => acc
  | String c r => digits_value radix (radix * acc + digit_value c) r
  end.

Fixpoint take_while (p : ascii -> bool) (s : string) : string :=
  match s with
  | EmptyString => EmptyString
  | String c r => if p c then String c (take_while p r) else EmptyString
  end.

(** An optional sign at the head of a string: whether it is a minus, and
    the rest. *)
Definition strip_sign (s : string) : bool * string :=
  match s with
  | String c r =>
      if Ascii.eqb c "-" then (true, r)
      else if Ascii.eqb c "+" then (false, r) else (false, s)
  | EmptyString => (false, s)
  end.

(** The radix and the digits [parseInt] reads: hexadecimal ones after a
    prefix [0x] or [0X], decimal ones otherwise. *)
Definition radix_digits (body : string) : Z * string :=
  match body with
  | String z (String x r) =>
      if Ascii.eqb z "0" && (Ascii.eqb x "x" || Ascii.eqb x "X")
      then (16, take_while is_hex r)
      else (10, take_while is_digit body)
  | _ => (10, take_while is_digit body)
  end.

(** [parseInt(str)] without a radix: leading white space, an optional
    sign, then the longest run of digits; no digit gives [NaN]. *)
Definition parseInt (s : string) : Number :=
  let '(neg, body) := strip_sign (ltrim s) in
  let '(radix, digits) := radix_digits body in
  match digits with
  | EmptyString => NaN
  | ds => of_Z (if neg : bool then - digits_value radix 0 ds
                else digits_value radix 0 ds)
  end.

End Js.

(** ** validator.js predicates used by the route validators *)
Module Validator.

(** [isEmpty(str)]: the string has length zero. *)
Definition isEmpty (s : string) : bool := String.eqb s "".

(** The surrogate pairs of a string, one for each character outside the
    basic plane. *)
Fixpoint surrogate_pairs (s : string) : nat :=
  match s with
  | EmptyString => 0
  | String c r => (if Js.is_astral c then 1 else 0) + surrogate_pairs r
  end%nat.

(** The variation selectors U+FE0E and U+FE0F of a string. *)
Fixpoint presentation_sequences (s : string) : nat :=
  match s with
  | EmptyString => 0
  | String a r =>
      (match r with
       | String b (String c _) =>
           if (Js.byte a =? 239) && (Js.byte b =? 184)
              && ((Js.byte c =? 142) || (Js.byte c =? 143))
           then 1 else 0
       | _ => 0
       end + presentation_sequences r)
  end%nat.

(** The length [isLength] compares: the UTF-16 length less the variation
    selectors and the surrogate pairs, so that a character counts once. *)
Definition characters (s : string) : nat :=
  (Js.length s - presentation_sequences s - surrogate_pairs s)%nat.

(** [isLength(str, {min, max})]. *)
Definition isLength (min : nat) (max : option nat) (s : string) : bool :=
  (min <=? characters s)%nat &&
  match max with
  | Some m => (characters s <=? m)%nat
  | None => true
  end.

(** The integer syntax of [isInt], leading zeroes allowed as by default:
    an optional sign, then digits. *)
Definition int_syntax (s : string) : bool :=
  let body := snd (Js.strip_sign s) in
  negb (String.eqb body "") && Js.forallb_string Js.is_digit body.

(** The number a string of that syntax denotes. *)
Definition int_value (s : string) : Z :=
  let '(neg, body) := Js.strip_sign s in
  if neg : bool then - Js.digits_value 10 0 body else Js.digits_value 10 0 body.

(** [isInt(str, {min, max})]: the syntax, and the bounds on the number. *)
Definition isInt (min : option Z) (max : option Z) (s : string) : bool :=
  int_syntax s &&
  match min with Some lo => lo <=? int_value s | None => true end &&
  match max with Some hi => int_value s <=? hi | None => true end.

(** [isHexadecimal(str)]: hexadecimal digits, after an optional prefix
    [0x] or [0h] in either letter case. *)
Definition isHexadecimal (s : string) : bool :=
  let digits d := negb (String.eqb d "") && Js.forallb_string Js.is_hex d in
  digits s ||
  match s with
  | String "0" (String c r) =>
      (Ascii.eqb c "x" || Ascii.eqb c "X" || Ascii.eqb c "h" || Ascii.eqb c "H")
      && digits r
  | _ => false
  end.

(** [isMongoId(str)]: [isHexadecimal(str) && str.length === 24]. *)
Definition isMongoId (s : string) : bool :=
  isHexadecimal s && (Js.length s =? 24)%nat.

End Validator.

(** ** JSON values written by [res.json] *)
#[local] Set Warnings "-register-all".
Inductive json : Type :=
| JNull
| JBool (b : bool)
| JNum (n : Z)
| JStr (s : string)
| JDate (t : Z)
| JArr (l : list json)
| JObj (fields : list (string * json)).

(** Property read [o.k]; [None] when [o] is not an object with that key. *)
Fixpoint assoc_get (k : string) (fields : list (string * json)) : option json :=
  match fields with
  | [] => None
  | (k', v) :: rest => if String.eqb k k' then Some v else assoc_get k rest
  end.

Definition jget (k : string) (j : json) : option json :=
  match j with
  | JObj fields => assoc_get k fields
  | _ => None
  end.

(** What a handler hands to the HTTP layer. *)
Inductive Response : Type :=
| Json (status : nat) (body : json)        (* res.status(n).json(body) *)
| Redirect (target : string) (query : gmap string string) (* res.redirect *)
| Document (name : string)                 (* a served document, status 200 *)
| NotFoundPage.                            (* Express's own page, status 404 *)

Definition status_of (r : Response) : nat :=
  match r with
  | Json n _ => n
  | Redirect _ _ => 302%nat
  | Document _ => 200%nat
  | NotFoundPage => 404%nat
  end.

Definition body_of (r : Response) : json :=
  match r with
  | Json _ b => b
  | _ => JNull
  end.

(** [body.error.code], [body.error.message] and [body.error.details]. *)
Definition error_field (k : string) (r : Response) : option json :=
  match jget "error" (body_of r) with
  | Some e => jget k e
  | None => None
  end.

Definition error_code (r : Response) : option json := error_field "code" r.
Definition error_message (r : Response) : option json := error_field "message" r.
Definition error_details (r : Response) : option json := error_field "details" r.

(** An error response is one whose envelope carries [success: false]. *)
Definition is_error_response (r : Response) : bool :=
  match jget "success" (body_of r) with
  | Some (JBool false) => true
  | _ => false
  end.

(** ** Errors *)

(** [ApiError] is the class of [middleware/errorHandler.js]; every other
    thrown value is an error with a name, a message and, for Mongoose
    validation errors, the per-path [errors] collection. *)
Inductive JsError : Type :=
| ApiError (statusCode : nat) (message : string) (code : string)
| OtherError (name : string) (message : string) (errors : list (string * string)).

(** [new ApiError(statusCode, message)]: the code defaults to INTERNAL_ERROR. *)
Definition ApiError_default (statusCode : nat) (message : string) : JsError :=
  ApiError statusCode message "INTERNAL_ERROR".

(** ** Documents *)

Record Item : Type := mkItem {
  item_id : string;
  title : string;
  content : string;
  user : option string;
  item_createdAt : Z;
  item_updatedAt : Z
}.

(** Modelled from the spec: the User model ([models/User.js]) is not among
    the sources.  A user record has a unique username, a hashed secret, a
    role defaulting to "user" and creation and update timestamps. *)
Record User : Type := mkUser {
  user_id : string;
  username : string;
  password : string;
  role : string;
  user_createdAt : Z;
  user_updatedAt : Z
}.

Record Store : Type := mkStore {
  items : list Item;
  users : list User
}.

(** An item as [res.json] writes it.  [__v] is the version key Mongoose
    adds to a document; no route of the application changes it. *)
Definition item_json (i : Item) : json :=
  JObj ([("_id", JStr (item_id i)); ("title", JStr (title i));
         ("content", JStr (content i))]
        ++ match user i with Some u => [("user", JStr u)] | None => [] end
        ++ [("createdAt", JDate (item_createdAt i));
            ("updatedAt", JDate (item_updatedAt i));
            ("__v", JNum 0)]).

(** ** Token claims *)

(** The payload of a session token: what [generateToken] is given by the
    login handler, plus the issue and expiry times (in seconds) that
    [jwt.sign] adds for [expiresIn]. *)
Record Claims : Type := mkClaims {
  claim_id : string;
  claim_username : string;
  claim_role : string;
  claim_iat : Z;
  claim_exp : Z
}.

(** A decoded token: its claims and the key its signature verifies under. *)
Record SignedToken : Type := mkSignedToken {
  token_claims : Claims;
  token_key : string
}.

(** ** External collaborators

    The JWT codec, the password hashing primitive and the text index of
    the document database are outside the repository; the model takes
    them as an interface. *)
Class Collaborators : Type := {
  (** compact serialization of a signed token, as [jwt.sign] returns it *)
  jwt_encode : SignedToken -> string;
  (** parsing of a compact token; [None] for a malformed one *)
  jwt_decode : string -> option SignedToken;
  (** password hashing at user creation *)
  hash_password : string -> string;
  (** [user.comparePassword(candidate)] against the stored hash *)
  compare_password : string -> string -> bool;
  (** the [$text] query operator on items *)
  text_match : string -> Item -> bool
}.

(** ** What the process and the database contribute to one request *)
Record Env : Type := mkEnv {
  (** [Date.now()], in milliseconds *)
  now : Z;
  (** [process.env.NODE_ENV] *)
  node_env : option string;
  (** [config.jwt.secret] *)
  jwt_secret : string;
  (** [config.jwt.expiresIn], in seconds *)
  jwt_expires_in : Z;
  (** [Some msg] when database operations reject with message [msg] *)
  db_fault : option string;
  (** the ObjectId the driver assigns to the next inserted document *)
  next_oid : string;
  (** [process.uptime()], as it prints *)
  uptime : string;
  (** the payload the random endpoint draws with [Math.random] *)
  random_data : json
}.

(** ** Requests *)

(** The methods the routers register, and one they do not. *)
Inductive Method : Type := GET | POST | PUT | DELETE | PATCH.

Definition Method_eqb (a b : Method) : bool :=
  match a, b with
  | GET, GET | POST, POST | PUT, PUT | DELETE, DELETE | PATCH, PATCH => true
  | _, _ => false
  end.

(** A request below the [/api] mount point.  [path] lists the segments of
    the URL after [/api/]; the empty list is a request for [/api] itself.
    [body] is the parsed JSON object, with string members. *)
Record Request : Type := mkRequest {
  method : Method;
  path : list string;
  originalUrl : string;
  authorization : option string;
  body : gmap string string;
  query : gmap string string
}.

(** An entry of express-validator's validation result. *)
Record FieldError : Type := mkFieldError {
  fe_path : string;
  fe_msg : string
}.

(** The mutable request object a middleware chain works on: the sanitized
    input locations, [req.params], [req.user], and the errors collected so
    far by the validation chains. *)
Record Ctx : Type := mkCtx {
  ctx_req : Request;
  ctx_body : gmap string string;
  ctx_params : gmap string string;
  ctx_query : gmap string string;
  ctx_user : option Claims;
  ctx_errors : list FieldError
}.

(** ** Middleware plumbing *)

(** How a middleware ends: it calls [next()], calls [next(err)], or sends
    the response itself. *)
Inductive Outcome : Type :=
| Next (c : Ctx)
| NextErr (e : JsError)
| Send (r : Response).

Definition Middleware : Type := Env -> Store -> Ctx -> Store * Outcome.

(** A promise that resolves or rejects. *)
Inductive Completion (A : Type) : Type :=
| Returns (a : A)
| Throws (e : JsError).
Arguments Returns {A} a.
Arguments Throws {A} e.

(** The components of the system overview; a response is attributed to the
    one whose code sent it. *)
Inductive Stage : Type :=
| ValidationChainStage
| RequestValidator
| TokenVerifier
| ResourceHandler
| DocsMiddleware
| NotFoundStage
| Frontend
| FinalHandler
| ErrorNormalizer.

Definition Stage_eqb (a b : Stage) : bool :=
  match a, b with
  | ValidationChainStage, ValidationChainStage
  | RequestValidator, RequestValidator
  | TokenVerifier, TokenVerifier
  | ResourceHandler, ResourceHandler
  | DocsMiddleware, DocsMiddleware
  | NotFoundStage, NotFoundStage
  | Frontend, Frontend
  | FinalHandler, FinalHandler
  | ErrorNormalizer, ErrorNormalizer => true
  | _, _ => false
  end.

(** ** express-validator chains *)

Inductive Location : Type := InBody | InParams | InQuery.

Inductive ChainStep : Type :=
| Sanitize (f : string -> string)
| Check (p : string -> bool) (msg : string)
| CustomCheck (f : Env -> Store -> string -> option string).

(** [vc_field = None] is the whole-location selector [body()]. *)
Record ValidationChain : Type := mkChain {
  vc_location : Location;
  vc_field : option string;
  vc_optional : bool;
  vc_steps : list ChainStep
}.

Definition body_ (f : string) (steps : list ChainStep) : ValidationChain :=
  mkChain InBody (Some f) false steps.
Definition param_ (f : string) (steps : list ChainStep) : ValidationChain :=
  mkChain InParams (Some f) false steps.
Definition query_optional (f : string) (steps : list ChainStep) : ValidationChain :=
  mkChain InQuery (Some f) true steps.
Definition body_optional (f : string) (steps : list ChainStep) : ValidationChain :=
  mkChain InBody (Some f) true steps.

(** [.trim()], [.notEmpty()], [.isLength()], [.isInt()], [.isMongoId()],
    [.isString()], each validator with the message of its [withMessage]. *)
Definition trim_ : ChainStep := Sanitize Js.trim.
Definition notEmpty (msg : string) : ChainStep :=
  Check (fun v => negb (Validator.isEmpty v)) msg.
Definition isLength (min : nat) (max : option nat) (msg : string) : ChainStep :=
  Check (Validator.isLength min max) msg.
Definition isInt (min max : option Z) (msg : string) : ChainStep :=
  Check (Validator.isInt min max) msg.
Definition isMongoId (msg : string) : ChainStep :=
  Check Validator.isMongoId msg.
Definition isString : ChainStep := Check (fun _ => true) "Invalid value".

Definition location_data (l : Location) (c : Ctx) : gmap string string :=
  match l with
  | InBody => ctx_body c
  | InParams => ctx_params c
  | InQuery => ctx_query c
  end.

Definition set_location (l : Location) (m : gmap string string) (c : Ctx) : Ctx :=
  match l with
  | InBody => mkCtx (ctx_req c) m (ctx_params c) (ctx_query c) (ctx_user c) (ctx_errors c)
  | InParams => mkCtx (ctx_req c) (ctx_body c) m (ctx_query c) (ctx_user c) (ctx_errors c)
  | InQuery => mkCtx (ctx_req c) (ctx_body c) (ctx_params c) m (ctx_user c) (ctx_errors c)
  end.

Definition add_errors (es : list FieldError) (c : Ctx) : Ctx :=
  mkCtx (ctx_req c) (ctx_body c) (ctx_params c) (ctx_query c) (ctx_user c)
        (ctx_errors c ++ es)%list.

(** express-validator's string conversion: [undefined] becomes the empty
    string. *)
Definition toString (v : option string) : string := default "" v.

(** The steps of a chain run in order on the current value.  A sanitizer
    replaces the value; a validator that fails records an error and the
    chain goes on (no chain of the application bails). *)
Fixpoint run_steps (env : Env) (s : Store) (fld : string) (steps : list ChainStep)
    (v : option string) : option string * list FieldError :=
  match steps with
  | [] => (v, [])
  | Sanitize f :: rest => run_steps env s fld rest (Some (f (toString v)))
  | Check p msg :: rest =>
      let '(v', es) := run_steps env s fld rest v in
      (v', ((if p (toString v) then [] else [mkFieldError fld msg]) ++ es)%list)
  | CustomCheck f :: rest =>
      let '(v', es) := run_steps env s fld rest v in
      (v', (match f env s (toString v) with
            | Some msg => [mkFieldError fld msg]
            | None => []
            end ++ es)%list)
  end.

(** Running a chain as a middleware: an optional field that is absent is
    skipped, a sanitized value is written back to the request, the errors
    are added to the request's validation result, and [next()] is called. *)
Definition run_chain (vc : ValidationChain) : Middleware := fun env s c =>
  match vc_field vc with
  | None =>
      let '(_, es) := run_steps env s "" (vc_steps vc) (Some "[object Object]") in
      (s, Next (add_errors es c))
  | Some fld =>
      let v := location_data (vc_location vc) c !! fld in
      match v, vc_optional vc with
      | None, true => (s, Next c)
      | _, _ =>
          let '(v', es) := run_steps env s fld (vc_steps vc) v in
          let data :=
            match v' with
            | Some x => <[fld := x]> (location_data (vc_location vc) c)
            | None => location_data (vc_location vc) c
            end in
          (s, Next (add_errors es (set_location (vc_location vc) data c)))
      end
  end.

(** ** middleware/validation.js *)

Definition validation_details (errs : list FieldError) : json :=
  JArr (map (fun err => JObj [("field", JStr (fe_path err));
                              ("message", JStr (fe_msg err))]) errs).

Definition validation_failed (errs : list FieldError) : Response :=
  Json 400 (JObj [("success", JBool false);
                  ("error", JObj [("message", JStr "Validation failed");
                                  ("code", JStr "VALIDATION_ERROR");
                                  ("details", validation_details errs)])]).

Definition validateRequest : Middleware := fun env s c =>
  match ctx_errors c with
  | [] => (s, Next c)
  | errs => (s, Send (validation_failed errs))
  end.

(** ** middleware/errorHandler.js *)

Definition error_envelope (message code : string) : json :=
  JObj [("success", JBool false);
        ("error", JObj [("message", JStr message); ("code", JStr code)])].

Definition notFoundHandler : Middleware := fun env s c =>
  (s, NextErr (ApiError 404 ("Route not found: " ++ originalUrl (ctx_req c)) "NOT_FOUND")).

(** The global error handler; the log entry it writes first is not part of
    the response and is left out. *)
Definition errorHandler (env : Env) (err : JsError) : Response :=
  match err with
  | ApiError statusCode message code =>
      Json statusCode (error_envelope message code)
  | OtherError name message errors =>
      if String.eqb name "ValidationError" then
        Json 400 (JObj [("success", JBool false);
                        ("error", JObj [("message", JStr "Validation failed");
                                        ("code", JStr "VALIDATION_ERROR");
                                        ("details",
                                         JArr (map (fun e => JObj [("field", JStr (fst e));
                                                                   ("message", JStr (snd e))])
                                                   errors))])])
      else
        Json 500 (error_envelope
                    (if bool_decide (node_env env = Some "production")
                     then "An unexpected error occurred"
                     else if Js.truthy (Some message) then message
                          else "Internal Server Error")
                    "INTERNAL_ERROR")
  end.

(** ** The document store, as Mongoose presents it *)

(** Every operation rejects while the database is unreachable. *)
Definition db_guard {A : Type} (env : Env) (k : Completion A) : Completion A :=
  match db_fault env with
  | Some msg => Throws (OtherError "MongooseError" msg [])
  | None => k
  end.

(** Twenty-four hexadecimal digits. *)
Definition is_hex_id (s : string) : bool :=
  Js.forallb_string Js.is_hex s && (String.length s =? 24)%nat.

(** Casting a string to an ObjectId: it has to be twenty-four hexadecimal
    digits, and letter case does not matter. *)
Definition cast_oid (id : string) : Completion string :=
  if is_hex_id id then Returns (Js.toLowerCase id)
  else Throws (OtherError "CastError" "Cast to ObjectId failed" []).

(** [sort({ createdAt: -1 })]: newest first.  The database fixes no order
    among items created at the same time; the model lists them in one. *)
Fixpoint insert_newest (i : Item) (l : list Item) : list Item :=
  match l with
  | [] => [i]
  | j :: rest =>
      if item_createdAt j <? item_createdAt i then i :: l
      else j :: insert_newest i rest
  end.

Definition sort_newest (l : list Item) : list Item :=
  fold_right insert_newest [] l.

Module ItemModel.

(** The schema: [title] is required, trimmed and of a [length] of at most
    100; [content] is required and trimmed. *)
Definition validate_title (t : option string) : list (string * string) :=
  match t with
  | None => [("title", "Title is required")]
  | Some t =>
      if String.eqb t "" then [("title", "Title is required")]
      else if (100 <? Js.length t)%nat
           then [("title", "Title cannot exceed 100 characters")]
           else []
  end.

Definition validate_content (c : option string) : list (string * string) :=
  match c with
  | None => [("content", "Content is required")]
  | Some c => if String.eqb c "" then [("content", "Content is required")] else []
  end.

Definition validation_error (errs : list (string * string)) : JsError :=
  OtherError "ValidationError" "Item validation failed" errs.

(** [Item.find(query).sort({ createdAt: -1 })] *)
Definition find (env : Env) (s : Store) (q : Item -> bool) : Completion (list Item) :=
  db_guard env (Returns (sort_newest (List.filter q (items s)))).

Definition countDocuments (env : Env) (s : Store) (q : Item -> bool) : Completion Z :=
  db_guard env (Returns (Z.of_nat (length (List.filter q (items s))))).

Definition lookup (oid : string) (l : list Item) : option Item :=
  List.find (fun i => String.eqb (item_id i) oid) l.

Definition findById (env : Env) (s : Store) (id : string) : Completion (option Item) :=
  db_guard env
    match cast_oid id with
    | Throws e => Throws e
    | Returns oid => Returns (lookup oid (items s))
    end.

(** [Item.create({ title, content, user })]: setters, validation, then
    the insert, which the unique [_id] index can refuse. *)
Definition create (env : Env) (s : Store) (t c : option string) (u : option string)
    : Completion (Store * Item) :=
  db_guard env
    (let t' := Js.trim <$> t in
     let c' := Js.trim <$> c in
     match (validate_title t' ++ validate_content c')%list with
     | [] =>
         match lookup (next_oid env) (items s) with
         | Some _ => Throws (OtherError "MongoServerError" "E11000 duplicate key error" [])
         | None =>
             let doc := mkItem (next_oid env) (toString t') (toString c') u
                               (now env) (now env) in
             Returns (mkStore (items s ++ [doc]) (users s), doc)
         end
     | errs => Throws (validation_error errs)
     end).

(** [$set] of the given paths on one document, and the [updatedAt]
    timestamp Mongoose adds to every update. *)
Definition apply_updates (env : Env) (t c : option string) (i : Item) : Item :=
  mkItem (item_id i)
         (match t with Some t => Js.trim t | None => title i end)
         (match c with Some c => Js.trim c | None => content i end)
         (user i) (item_createdAt i) (now env).

Fixpoint replace (oid : string) (f : Item -> Item) (l : list Item) : list Item :=
  match l with
  | [] => []
  | i :: rest =>
      if String.eqb (item_id i) oid then f i :: rest
      else i :: replace oid f rest
  end.

(** [Item.findByIdAndUpdate(id, { $set: updates },
    { new: true, runValidators: true })] *)
Definition findByIdAndUpdate (env : Env) (s : Store) (id : string)
    (t c : option string) : Completion (Store * option Item) :=
  db_guard env
    match cast_oid id with
    | Throws e => Throws e
    | Returns oid =>
        match (match t with Some _ => validate_title (Js.trim <$> t) | None => [] end
               ++ match c with Some _ => validate_content (Js.trim <$> c) | None => [] end)%list
        with
        | [] =>
            Returns (mkStore (replace oid (apply_updates env t c) (items s)) (users s),
                     apply_updates env t c <$> lookup oid (items s))
        | errs => Throws (OtherError "ValidationError" "Validation failed" errs)
        end
    end.

Fixpoint remove (oid : string) (l : list Item) : list Item :=
  match l with
  | [] => []
  | i :: rest =>
      if String.eqb (item_id i) oid then rest else i :: remove oid rest
  end.

(** [Item.findByIdAndDelete(id)] *)
Definition findByIdAndDelete (env : Env) (s : Store) (id : string)
    : Completion (Store * option Item) :=
  db_guard env
    match cast_oid id with
    | Throws e => Throws e
    | Returns oid =>
        Returns (mkStore (remove oid (items s)) (users s), lookup oid (items s))
    end.

End ItemModel.

(** Modelled from the spec: the operations of the User model, which is not
    among the sources.  Usernames are unique and 3 to 30 characters long,
    the secret is stored hashed, and the role defaults to "user". *)
Module UserModel.

(** [User.findOne({ username })] *)
Definition findOne (env : Env) (s : Store) (uname : string) : Completion (option User) :=
  db_guard env
    (Returns (List.find (fun u => String.eqb (username u) uname) (users s))).

(** [User.findById(id)] *)
Definition findById (env : Env) (s : Store) (id : string) : Completion (option User) :=
  db_guard env
    match cast_oid id with
    | Throws e => Throws e
    | Returns oid =>
        Returns (List.find (fun u => String.eqb (user_id u) oid) (users s))
    end.

Definition validate_username (u : option string) : list (string * string) :=
  match u with
  | None => [("username", "Username is required")]
  | Some u =>
      if String.eqb u "" then [("username", "Username is required")]
      else if negb (Validator.isLength 3 (Some 30%nat) u)
           then [("username", "Username must be between 3 and 30 characters")]
           else []
  end.

Definition validate_password (p : option string) : list (string * string) :=
  match p with
  | None => [("password", "Password is required")]
  | Some p => if String.eqb p "" then [("password", "Password is required")] else []
  end.

(** [User.create({ username, password })] *)
Definition create `{Collaborators} (env : Env) (s : Store) (uname pw : option string)
    : Completion (Store * User) :=
  db_guard env
    match (validate_username uname ++ validate_password pw)%list with
    | [] =>
        if existsb (fun u => String.eqb (username u) (toString uname)
                             || String.eqb (user_id u) (next_oid env)) (users s)
        then Throws (OtherError "MongoServerError" "E11000 duplicate key error" [])
        else
          let doc := mkUser (next_oid env) (toString uname)
                            (hash_password (toString pw)) "user" (now env) (now env) in
          Returns (mkStore (items s) (users s ++ [doc]), doc)
    | errs => Throws (OtherError "ValidationError" "User validation failed" errs)
    end.

(** [user.comparePassword(candidate)] *)
Definition comparePassword `{Collaborators} (u : User) (candidate : string) : bool :=
  compare_password candidate (password u).

End UserModel.

Section Backend.

Context {C : Collaborators}.

(** ** jsonwebtoken, on tokens of the shape the issuer mints *)

Inductive JwtResult : Type :=
| JwtOk (decoded : Claims)
| JwtThrow (name : string).

(** [Math.floor(Date.now() / 1000)] *)
Definition clock_timestamp (env : Env) : Z := now env / 1000.

(** [jwt.sign(payload, secret, { expiresIn })] *)
Definition jwt_sign (env : Env) (id uname rl : string) : string :=
  jwt_encode
    {| token_claims :=
         {| claim_id := id; claim_username := uname; claim_role := rl;
            claim_iat := clock_timestamp env;
            claim_exp := clock_timestamp env + jwt_expires_in env |};
       token_key := jwt_secret env |}.

(** [jwt.verify(token, secret)]: a token that does not parse or whose
    signature does not verify under [secret] raises JsonWebTokenError; a
    token whose expiry has been reached raises TokenExpiredError. *)
Definition jwt_verify (env : Env) (token secret : string) : JwtResult :=
  match jwt_decode token with
  | None => JwtThrow "JsonWebTokenError"
  | Some t =>
      if negb (String.eqb (token_key t) secret) then JwtThrow "JsonWebTokenError"
      else if claim_exp (token_claims t) <=? clock_timestamp env
           then JwtThrow "TokenExpiredError"
           else JwtOk (token_claims t)
  end.

(** ** middleware/auth.js *)

Definition generateToken (env : Env) (id uname rl : string) : string :=
  jwt_sign env id uname rl.

Definition set_user (u : Claims) (c : Ctx) : Ctx :=
  mkCtx (ctx_req c) (ctx_body c) (ctx_params c) (ctx_query c) (Some u) (ctx_errors c).

Definition authenticateJWT : Middleware := fun env s c =>
  let authHeader := authorization (ctx_req c) in
  if negb (Js.truthy authHeader) then
    (s, NextErr (ApiError 401 "Authentication required" "AUTH_REQUIRED"))
  else
    let parts := Js.split_space (toString authHeader) in
    if negb (length parts =? 2)%nat || negb (String.eqb (nth 0 parts "") "Bearer") then
      (s, NextErr (ApiError 401 "Invalid authorization format. Use: Bearer <token>"
                            "INVALID_AUTH_FORMAT"))
    else
      let token := nth 1 parts "" in
      match jwt_verify env token (jwt_secret env) with
      | JwtOk decoded => (s, Next (set_user decoded c))
      | JwtThrow name =>
          if String.eqb name "TokenExpiredError" then
            (s, NextErr (ApiError 401 "Token has expired" "TOKEN_EXPIRED"))
          else
            (s, NextErr (ApiError 401 "Invalid token" "INVALID_TOKEN"))
      end.

Definition authorize (roles : list string) : Middleware := fun env s c =>
  match ctx_user c with
  | None => (s, NextErr (ApiError 401 "User not authenticated" "AUTH_REQUIRED"))
  | Some u =>
      if negb (existsb (String.eqb (claim_role u)) roles) then
        (s, NextErr (ApiError 403 "Insufficient permissions" "INSUFFICIENT_PERMISSIONS"))
      else (s, Next c)
  end.

(** ** Routers *)

Inductive Segment : Type :=
| Lit (s : string)
| Param (name : string).

Record Route : Type := mkRoute {
  r_method : Method;
  r_pattern : list Segment;
  r_stack : list (Stage * Middleware)
}.

(** Matching a route pattern against the segments of a path: a literal
    segment matches without regard to letter case, a parameter matches any
    non-empty segment and is bound in [req.params]. *)
Fixpoint match_path (pat : list Segment) (segs : list string)
    : option (gmap string string) :=
  match pat, segs with
  | [], [] => Some ∅
  | Lit l :: pat', seg :: segs' =>
      if String.eqb (Js.toLowerCase l) (Js.toLowerCase seg)
      then match_path pat' segs' else None
  | Param name :: pat', seg :: segs' =>
      if String.eqb seg "" then None
      else (fun m => <[name := seg]> m) <$> match_path pat' segs'
  | _, _ => None
  end.

(** How a stack of middleware, a router or the application ends. *)
Inductive Result : Type :=
| Done (by_stage : Stage) (r : Response)
| Failed (e : JsError)
| Continue (c : Ctx).

Fixpoint run_stack (stack : list (Stage * Middleware)) (env : Env) (s : Store) (c : Ctx)
    : Store * Result :=
  match stack with
  | [] => (s, Continue c)
  | (st, m) :: rest =>
      match m env s c with
      | (s', Next c') => run_stack rest env s' c'
      | (s', NextErr e) => (s', Failed e)
      | (s', Send r) => (s', Done st r)
      end
  end.

Definition set_params (m : gmap string string) (c : Ctx) : Ctx :=
  mkCtx (ctx_req c) (ctx_body c) m (ctx_query c) (ctx_user c) (ctx_errors c).

(** A router tries its routes in the order they were registered; the first
    one whose method and pattern match runs, and only if its whole stack
    calls [next()] is a later route considered. *)
Fixpoint dispatch (routes : list Route) (segs : list string) (env : Env) (s : Store)
    (c : Ctx) : Store * Result :=
  match routes with
  | [] => (s, Continue c)
  | r :: rest =>
      if Method_eqb (r_method r) (method (ctx_req c)) then
        match match_path (r_pattern r) segs with
        | Some params =>
            match run_stack (r_stack r) env s (set_params params c) with
            | (s', Continue c') => dispatch rest segs env s' c'
            | res => res
            end
        | None => dispatch rest segs env s c
        end
      else dispatch rest segs env s c
  end.

Definition chain (vc : ValidationChain) : Stage * Middleware :=
  (ValidationChainStage, run_chain vc).
Definition validate : Stage * Middleware := (RequestValidator, validateRequest).
Definition handler (m : Middleware) : Stage * Middleware := (ResourceHandler, m).

Definition ok_json (fields : list (string * json)) : Response :=
  Json 200 (JObj (("success", JBool true) :: fields)).

(** ** routes/item.routes.js *)

(** [GET /] *)
Definition list_items : Middleware := fun env s c =>
  match ItemModel.find env s (fun _ => true) with
  | Returns its => (s, Send (ok_json [("items", JArr (map item_json its))]))
  | Throws _ => (s, NextErr (ApiError_default 500 "Error retrieving items"))
  end.

Definition item_not_found (id : string) : JsError :=
  ApiError 404 ("Item with ID " ++ id ++ " not found") "ITEM_NOT_FOUND".

(** [GET /:id] *)
Definition get_item : Middleware := fun env s c =>
  let id := toString (ctx_params c !! "id") in
  match ItemModel.findById env s id with
  | Returns None => (s, NextErr (item_not_found id))
  | Returns (Some item) => (s, Send (ok_json [("item", item_json item)]))
  | Throws _ => (s, NextErr (ApiError_default 500 "Error retrieving item"))
  end.

(** [POST /] *)
Definition create_item : Middleware := fun env s c =>
  let title := ctx_body c !! "title" in
  let content := ctx_body c !! "content" in
  match ItemModel.create env s title content (claim_id <$> ctx_user c) with
  | Returns (s', newItem) =>
      (s', Send (Json 201 (JObj [("success", JBool true);
                                 ("message", JStr "Item created successfully");
                                 ("item", item_json newItem)])))
  | Throws _ => (s, NextErr (ApiError_default 500 "Error creating item"))
  end.

(** [PUT /:id] *)
Definition update_item : Middleware := fun env s c =>
  let id := toString (ctx_params c !! "id") in
  let updates_title :=
    if Js.truthy (ctx_body c !! "title") then ctx_body c !! "title" else None in
  let updates_content :=
    if Js.truthy (ctx_body c !! "content") then ctx_body c !! "content" else None in
  match ItemModel.findByIdAndUpdate env s id updates_title updates_content with
  | Returns (s', None) => (s', NextErr (item_not_found id))
  | Returns (s', Some item) =>
      (s', Send (ok_json [("message", JStr "Item updated successfully");
                          ("item", item_json item)]))
  | Throws _ => (s, NextErr (ApiError_default 500 "Error updating item"))
  end.

(** [DELETE /:id] *)
Definition delete_item : Middleware := fun env s c =>
  let id := toString (ctx_params c !! "id") in
  match ItemModel.findByIdAndDelete env s id with
  | Returns (s', None) => (s', NextErr (item_not_found id))
  | Returns (s', Some _) =>
      (s', Send (ok_json [("message",
                           JStr ("Item with ID " ++ id ++ " deleted successfully"))]))
  | Throws _ => (s, NextErr (ApiError_default 500 "Error deleting item"))
  end.

(** [parseInt(x) || d]: [NaN] and zero are falsy. *)
Definition parseInt_or (v : option string) (d : Z) : Js.Number :=
  Js.or_else (Js.parseInt (toString v)) d.

(** [Math.ceil(a / b)] for a non-zero divisor. *)
Definition ceil_div (a b : Z) : Z := - ((- a) / b).

(** [Math.ceil(total / limit)] for a count: the quotient by an infinity
    is zero, the quotient by zero is an infinity or, of zero, [NaN]. *)
Definition pages_of (total : Z) (limit : Js.Number) : Js.Number :=
  match limit with
  | Js.Finite l =>
      if l =? 0 then (if total =? 0 then Js.NaN else Js.Infinite (total <? 0))
      else Js.Finite (ceil_div total l)
  | Js.Infinite _ => Js.Finite 0
  | Js.NaN => Js.NaN
  end.

(** A number as [res.json] writes it: [null] for what is not finite. *)
Definition json_of_number (n : Js.Number) : json :=
  match n with
  | Js.Finite z => JNum z
  | _ => JNull
  end.

(** [.skip(skip).limit(limit)] on a result list: the database refuses a
    skip or a limit that is no 64-bit integer and a negative skip; a
    negative limit counts as its absolute value. *)
Definition paginate (skip limit : Js.Number) (l : list Item) : Completion (list Item) :=
  match skip, limit with
  | Js.Finite sk, Js.Finite lm =>
      if (sk <? 0) || (2 ^ 63 <=? sk) || (2 ^ 63 <=? Z.abs lm)
      then Throws (OtherError "MongoServerError" "Skip value must be non-negative" [])
      else Returns (firstn (Z.to_nat (Z.abs lm)) (skipn (Z.to_nat sk) l))
  | _, _ => Throws (OtherError "MongoServerError" "Cannot represent as a 64-bit integer" [])
  end.

(** [GET /search] *)
Definition search_items : Middleware := fun env s c =>
  let q := ctx_query c !! "q" in
  let page := parseInt_or (ctx_query c !! "page") 1 in
  let limit := parseInt_or (ctx_query c !! "limit") 10 in
  let skip := Js.mul (Js.sub page (Js.Finite 1)) limit in
  let query : Item -> bool :=
    if Js.truthy q then text_match (toString q) else fun _ => true in
  match ItemModel.find env s query with
  | Throws _ => (s, NextErr (ApiError_default 500 "Error searching items"))
  | Returns found =>
      match paginate skip limit found with
      | Throws _ => (s, NextErr (ApiError_default 500 "Error searching items"))
      | Returns results =>
          match ItemModel.countDocuments env s query with
          | Throws _ => (s, NextErr (ApiError_default 500 "Error searching items"))
          | Returns total =>
              (s, Send (ok_json
                [("results", JArr (map item_json results));
                 ("pagination",
                  JObj [("total", JNum total);
                        ("page", json_of_number page);
                        ("limit", json_of_number limit);
                        ("pages", json_of_number (pages_of total limit));
                        ("hasNextPage", JBool (Js.ltb page (pages_of total limit)));
                        ("hasPrevPage", JBool (Js.ltb (Js.Finite 1) page))])]))
          end
      end
  end.

Definition get_item_stack : list (Stage * Middleware) :=
  [chain (param_ "id" [isMongoId "Invalid item ID"]);
   validate; handler get_item].

Definition create_item_stack : list (Stage * Middleware) :=
  [chain (body_ "title"
            [trim_; notEmpty "Title is required";
             isLength 0 (Some 100%nat) "Title cannot exceed 100 characters"]);
   chain (body_ "content" [trim_; notEmpty "Content is required"]);
   validate; handler create_item].

Definition update_item_stack : list (Stage * Middleware) :=
  [chain (param_ "id" [isMongoId "Invalid item ID"]);
   chain (body_optional "title"
            [trim_; notEmpty "Title cannot be empty";
             isLength 0 (Some 100%nat) "Title cannot exceed 100 characters"]);
   chain (body_optional "content" [trim_; notEmpty "Content cannot be empty"]);
   validate; handler update_item].

Definition delete_item_stack : list (Stage * Middleware) :=
  [chain (param_ "id" [isMongoId "Invalid item ID"]);
   validate; handler delete_item].

Definition search_items_stack : list (Stage * Middleware) :=
  [chain (query_optional "q" [isString]);
   chain (query_optional "page"
            [isInt (Some 1) None "Page must be a positive integer"]);
   chain (query_optional "limit"
            [isInt (Some 1) (Some 50) "Limit must be between 1 and 50"]);
   validate; handler search_items].

(** The routes of the item router, in registration order. *)
Definition item_routes : list Route :=
  [ mkRoute GET [] [handler list_items];
    mkRoute GET [Param "id"] get_item_stack;
    mkRoute POST [] create_item_stack;
    mkRoute PUT [Param "id"] update_item_stack;
    mkRoute DELETE [Param "id"] delete_item_stack;
    mkRoute GET [Lit "search"] search_items_stack ].

(** ** routes/auth.routes.js *)

(** The custom validator of the username chain: it rejects when a user
    with that name exists, and a failing lookup rejects as well. *)
Definition username_is_free (env : Env) (s : Store) (value : string) : option string :=
  match UserModel.findOne env s value with
  | Returns (Some _) => Some "Username already exists"
  | Returns None => None
  | Throws (ApiError _ msg _) => Some msg
  | Throws (OtherError _ msg _) => Some msg
  end.

(** [POST /register] *)
Definition register : Middleware := fun env s c =>
  let uname := ctx_body c !! "username" in
  let pw := ctx_body c !! "password" in
  match UserModel.create env s uname pw with
  | Returns (s', u) =>
      (s', Send (Json 201
         (JObj [("success", JBool true);
                ("message", JStr "User registered successfully");
                ("user", JObj [("id", JStr (user_id u));
                               ("username", JStr (username u));
                               ("role", JStr (role u));
                               ("createdAt", JDate (user_createdAt u))])])))
  | Throws _ => (s, NextErr (ApiError_default 500 "Error registering user"))
  end.

Definition invalid_credentials : JsError :=
  ApiError 401 "Invalid username or password" "INVALID_CREDENTIALS".

(** [POST /login] *)
Definition login : Middleware := fun env s c =>
  let uname := ctx_body c !! "username" in
  let pw := ctx_body c !! "password" in
  match UserModel.findOne env s (toString uname) with
  | Throws _ => (s, NextErr (ApiError_default 500 "Error during login"))
  | Returns None => (s, NextErr invalid_credentials)
  | Returns (Some u) =>
      if negb (UserModel.comparePassword u (toString pw)) then
        (s, NextErr invalid_credentials)
      else
        let token := generateToken env (user_id u) (username u) (role u) in
        (s, Send (ok_json [("message", JStr "Login successful");
                           ("token", JStr token);
                           ("user", JObj [("id", JStr (user_id u));
                                          ("username", JStr (username u));
                                          ("role", JStr (role u))])]))
  end.

(** [GET /me] *)
Definition me : Middleware := fun env s c =>
  match ctx_user c with
  | None => (s, NextErr (ApiError_default 500 "Error retrieving user profile"))
  | Some decoded =>
      match UserModel.findById env s (claim_id decoded) with
      | Throws _ => (s, NextErr (ApiError_default 500 "Error retrieving user profile"))
      | Returns None => (s, NextErr (ApiError 404 "User not found" "USER_NOT_FOUND"))
      | Returns (Some u) =>
          (s, Send (ok_json [("user", JObj [("id", JStr (user_id u));
                                            ("username", JStr (username u));
                                            ("role", JStr (role u));
                                            ("createdAt", JDate (user_createdAt u))])]))
      end
  end.

Definition register_stack : list (Stage * Middleware) :=
  [chain (body_ "username"
            [trim_; notEmpty "Username is required";
             isLength 3 (Some 30%nat) "Username must be between 3 and 30 characters";
             CustomCheck username_is_free]);
   chain (body_ "password"
            [trim_; notEmpty "Password is required";
             isLength 6 None "Password must be at least 6 characters"]);
   validate; handler register].

Definition login_stack : list (Stage * Middleware) :=
  [chain (body_ "username" [trim_; notEmpty "Username is required"]);
   chain (body_ "password" [trim_; notEmpty "Password is required"]);
   validate; handler login].

Definition me_stack : list (Stage * Middleware) :=
  [(TokenVerifier, authenticateJWT); handler me].

Definition auth_routes : list Route :=
  [ mkRoute POST [Lit "register"] register_stack;
    mkRoute POST [Lit "login"] login_stack;
    mkRoute GET [Lit "me"] me_stack ].

(** ** routes/status.routes.js *)

Definition status : Middleware := fun env s c =>
  (s, Send (ok_json
    [("data", JObj [("status", JStr "online");
                    ("time", JDate (now env));
                    ("uptime", JStr (uptime env ++ " seconds"));
                    ("environment",
                     JStr (if Js.truthy (node_env env) then toString (node_env env)
                           else "development"))])])).

(** [{ ...requestData, timestamp, echoed: true }] *)
Definition echo : Middleware := fun env s c =>
  (s, Send (ok_json
    [("data",
      JObj (map (fun kv => (fst kv, JStr (snd kv)))
                (map_to_list (delete "timestamp" (delete "echoed" (ctx_body c))))
            ++ [("timestamp", JDate (now env)); ("echoed", JBool true)]))])).

Definition data : Middleware := fun env s c =>
  (s, Send (ok_json
    [("data",
      JObj [("title", JStr "Backend API Response");
            ("content", JStr "This is dummy data from the backend server");
            ("items",
             JArr [JObj [("id", JNum 1); ("name", JStr "Item 1")];
                   JObj [("id", JNum 2); ("name", JStr "Item 2")];
                   JObj [("id", JNum 3); ("name", JStr "Item 3")]])])])).

Definition random : Middleware := fun env s c =>
  (s, Send (ok_json [("data", random_data env)])).

(** The legacy search endpoint redirects to the item search. *)
Definition legacy_search : Middleware := fun env s c =>
  (s, Send (Redirect "/api/items/search" (ctx_query c))).

Definition echo_stack : list (Stage * Middleware) :=
  [chain (mkChain InBody None false [notEmpty "Request body cannot be empty"]);
   validate; handler echo].

Definition status_routes : list Route :=
  [ mkRoute GET [Lit "status"] [handler status];
    mkRoute POST [Lit "echo"] echo_stack;
    mkRoute GET [Lit "data"] [handler data];
    mkRoute GET [Lit "random"] [handler random];
    mkRoute GET [Lit "search"] [handler legacy_search] ].

(** ** The application *)

(** [router.use(prefix, sub)]: the sub-router sees the path below the
    prefix; a path outside the prefix passes it by. *)
Definition mount (prefix : option string) (routes : list Route) (segs : list string)
    (env : Env) (s : Store) (c : Ctx) : Store * Result :=
  match prefix with
  | None => dispatch routes segs env s c
  | Some p =>
      match segs with
      | seg :: below =>
          if String.eqb (Js.toLowerCase p) (Js.toLowerCase seg)
          then dispatch routes below env s c
          else (s, Continue c)
      | [] => (s, Continue c)
      end
  end.

(** The router of [routes/index.js]: items, auth, then the status routes
    at the root. *)
Definition api_router (segs : list string) (env : Env) (s : Store) (c : Ctx)
    : Store * Result :=
  match mount (Some "items") item_routes segs env s c with
  | (s1, Continue c1) =>
      match mount (Some "auth") auth_routes segs env s1 c1 with
      | (s2, Continue c2) => mount None status_routes segs env s2 c2
      | res => res
      end
  | res => res
  end.

(** The API documentation served below [/api/docs] and at
    [/api/docs.json]. *)
Definition docs (segs : list string) : Middleware := fun env s c =>
  match segs with
  | seg :: _ =>
      if String.eqb (Js.toLowerCase seg) "docs" then (s, Send (Document "swagger-ui"))
      else if String.eqb (Js.toLowerCase seg) "docs.json"
              && Method_eqb (method (ctx_req c)) GET
              && (length segs =? 1)%nat
           then (s, Send (Document "openapi.json"))
           else (s, Next c)
  | [] => (s, Next c)
  end.

Definition init_ctx (req : Request) : Ctx :=
  mkCtx req (body req) ∅ (query req) None [].

(** What the client receives, and the component that sent it. *)
Record Served : Type := mkServed {
  writer : Stage;
  response : Response
}.

(** The part of [server.js] below [/api]: the API router, the
    documentation, and the not-found handler, which is mounted at
    [/api/*] and so is passed by on a request for [/api] itself. *)
Definition app_stack (segs : list string) (env : Env) (s : Store) (c : Ctx)
    : Store * Result :=
  match api_router segs env s c with
  | (s', Continue c') =>
      run_stack ((DocsMiddleware, docs segs)
                 :: match segs with
                    | [] => []
                    | _ :: _ => [(NotFoundStage, notFoundHandler)]
                    end) env s' c'
  | res => res
  end.

(** One request through the application.  Whatever was passed to
    [next(err)] reaches the global error handler, which is registered
    last; a request no layer answered gets the frontend page when it is
    a GET, and Express's own 404 page otherwise. *)
Definition respond (env : Env) (res : Store * Result) : Store * Served :=
  match res with
  | (s', Done st r) => (s', mkServed st r)
  | (s', Failed e) => (s', mkServed ErrorNormalizer (errorHandler env e))
  | (s', Continue c) =>
      if Method_eqb (method (ctx_req c)) GET
      then (s', mkServed Frontend (Document "index.html"))
      else (s', mkServed FinalHandler NotFoundPage)
  end.

Definition serve (env : Env) (s : Store) (req : Request) : Store * Served :=
  respond env (app_stack (path req) env s (init_ctx req)).

(** A sequence of requests, each with what its moment contributes. *)
Fixpoint run_requests (reqs : list (Env * Request)) (s : Store) : Store :=
  match reqs with
  | [] => s
  | (env, req) :: rest => run_requests rest (fst (serve env s req))
  end.

End Backend.

(** ** A concrete instance, for running the model

    A table-driven token codec with three known tokens, a tagging hash, and
    a text index that matches titles exactly. *)
Module Demo.

Definition secret : string := "s3cret".

Definition alice : Claims :=
  mkClaims "aaaaaaaaaaaaaaaaaaaaaaaa" "alice" "user" 1000 2000.

Definition collaborators : Collaborators :=
  {| jwt_encode := fun t => "fresh-token";
     jwt_decode := fun tok =>
       if String.eqb tok "expired-token" then Some (mkSignedToken alice secret)
       else if String.eqb tok "forged-token" then Some (mkSignedToken alice "guess")
       else if String.eqb tok "fresh-token"
            then Some (mkSignedToken (mkClaims "aaaaaaaaaaaaaaaaaaaaaaaa" "alice" "user"
                                               5000 91400) secret)
            else None;
     hash_password := fun p => ("hash:" ++ p)%string;
     compare_password := fun candidate h => String.eqb ("hash:" ++ candidate)%string h;
     text_match := fun q i => String.eqb q (title i) |}.

(** Clock at 5000 seconds, development mode, database reachable. *)
Definition env : Env :=
  mkEnv 5000000 None secret 86400 None "0123456789abcdef01234567" "12.5" JNull.

Definition empty_store : Store := mkStore [] [].

Definition request (m : Method) (p : list string) (auth : option string)
    (b : gmap string string) : Request :=
  mkRequest m p "/api" auth b ∅.

(** A store with one user, registered with the password "wonderland". *)
Definition store_with_alice : Store :=
  mkStore [] [mkUser "aaaaaaaaaaaaaaaaaaaaaaaa" "alice" "hash:wonderland" "user" 1000 1000].

(** A store with one item, owned by alice. *)
Definition store_with_item : Store :=
  mkStore [mkItem "abcdefabcdefabcdefabcdef" "Groceries" "milk, eggs"
                  (Some "aaaaaaaaaaaaaaaaaaaaaaaa") 2000 2000] [].



(** The no-break space U+00A0 and the letter e with acute accent U+00E9,
    each of two bytes. *)
Definition nbsp : string := String "194" (String "160" "").
Definition e_acute : string := String "195" (String "169" "").

Fixpoint repeat_string (n : nat) (s : string) : string :=
  match n with
  | O => EmptyString
  | S n' => (s ++ repeat_string n' s)%string
  end.

End Demo.

(** * Properties *)

(** ** Strings *)

Lemma string_app_assoc (a b c : string) : ((a ++ b) ++ c = a ++ (b ++ c))%string.
Proof.
  induction a as [|ch a IH]; [reflexivity|].
  change (String ch ((a ++ b) ++ c) = String ch (a ++ (b ++ c)))%string.
  now rewrite IH.
Qed.

Lemma string_app_nil_r (a : string) : (a ++ "")%string = a.
Proof.
  induction a as [|ch a IH]; [reflexivity|].
  change (String ch (a ++ "") = String ch a)%string. now rewrite IH.
Qed.

Definition no_space (s : string) : bool :=
  Js.forallb_string (fun c => negb (Ascii.eqb c " "%char)) s.

Lemma split_space_aux_no_space (s cur : string) :
  no_space s = true -> Js.split_space_aux cur s = [(cur ++ s)%string].
Proof.
  revert cur. induction s as [|c s IH]; intros cur Hs; simpl in *.
  - now rewrite string_app_nil_r.
  - apply andb_prop in Hs as [Hc Hs]. apply negb_true_iff in Hc. rewrite Hc.
    rewrite (IH _ Hs). now rewrite string_app_assoc.
Qed.

(** A header made of the scheme, one space and a token without spaces
    splits into exactly these two parts. *)
Lemma split_space_bearer (tok : string) :
  no_space tok = true ->
  Js.split_space ("Bearer " ++ tok) = ["Bearer"; tok].
Proof.
  intros Htok. unfold Js.split_space.
  change (Js.split_space_aux "" ("Bearer " ++ tok))
    with ("Bearer" :: Js.split_space_aux "" tok).
  now rewrite (split_space_aux_no_space tok "" Htok).
Qed.

Lemma long_not_empty (s : string) (n : nat) :
  (n < String.length s)%nat -> String.eqb s "" = false.
Proof. destruct s; simpl; [lia | reflexivity]. Qed.

Lemma string_cons_app (a : ascii) (r w : string) :
  (String a r ++ w)%string = String a (r ++ w)%string.
Proof. reflexivity. Qed.

Lemma ltrim_space (a : ascii) (r : string) :
  Js.is_space a = true -> Js.ltrim (String a r) = Js.ltrim r.
Proof. intros H. cbn [Js.ltrim]. now rewrite H. Qed.

Lemma ltrim_space2 (a b : ascii) (r : string) :
  Js.is_space a = false -> Js.is_space2 a b = true ->
  Js.ltrim (String a (String b r)) = Js.ltrim r.
Proof. intros H1 H2. cbn [Js.ltrim]. now rewrite H1, H2. Qed.

Lemma ltrim_space3 (a b c : ascii) (r : string) :
  Js.is_space a = false -> Js.is_space2 a b = false -> Js.is_space3 a b c = true ->
  Js.ltrim (String a (String b (String c r))) = Js.ltrim r.
Proof. intros H1 H2 H3. cbn [Js.ltrim]. now rewrite H1, H2, H3. Qed.

(** A string that starts with no white space character is left as it is. *)
Lemma ltrim_fixed (s : string) : Js.space_width s = 0%nat -> Js.ltrim s = s.
Proof.
  destruct s as [|a [|b [|c r]]]; cbn [Js.space_width Js.ltrim]; try reflexivity;
    destruct (Js.is_space a); try discriminate; try reflexivity;
    destruct (Js.is_space2 a b); try discriminate; try reflexivity;
    destruct (Js.is_space3 a b c); try discriminate; reflexivity.
Qed.

(** The cases of [ltrim]: the string is kept, or a white space character of
    one, two or three bytes is dropped. *)
Lemma ltrim_cases (s : string) :
  (Js.space_width s = 0%nat /\ Js.ltrim s = s) \/
  (exists a r, s = String a r /\ Js.space_width s = 1%nat /\ Js.ltrim s = Js.ltrim r) \/
  (exists a b r, s = String a (String b r) /\ Js.space_width s = 2%nat
                 /\ Js.ltrim s = Js.ltrim r) \/
  (exists a b c r, s = String a (String b (String c r)) /\ Js.space_width s = 3%nat
                   /\ Js.ltrim s = Js.ltrim r).
Proof.
  destruct s as [|a r]; [left; split; reflexivity|].
  destruct (Js.is_space a) eqn:E1.
  { right; left. exists a, r. cbn [Js.space_width Js.ltrim]. rewrite E1. auto. }
  destruct r as [|b r];
    [left; cbn [Js.space_width Js.ltrim]; rewrite E1; split; reflexivity|].
  destruct (Js.is_space2 a b) eqn:E2.
  { right; right; left. exists a, b, r. cbn [Js.space_width Js.ltrim].
    rewrite E1, E2. auto. }
  destruct r as [|c r];
    [left; cbn [Js.space_width Js.ltrim]; rewrite E1, E2; split; reflexivity|].
  destruct (Js.is_space3 a b c) eqn:E3.
  - right; right; right. exists a, b, c, r. cbn [Js.space_width Js.ltrim].
    rewrite E1, E2, E3. auto.
  - left. cbn [Js.space_width Js.ltrim]. rewrite E1, E2, E3. split; reflexivity.
Qed.

Lemma string_length_ind (P : string -> Prop) :
  (forall s, (forall t, (String.length t < String.length s)%nat -> P t) -> P s) ->
  forall s, P s.
Proof.
  intros H s. apply H.
  induction (String.length s) as [|n IH]; intros t Ht; [lia|].
  apply H. intros u Hu. apply IH. lia.
Qed.

(** What [ltrim] returns starts with no white space character. *)
Lemma ltrim_head (s : string) : Js.space_width (Js.ltrim s) = 0%nat.
Proof.
  induction s as [s IH] using string_length_ind.
  destruct (ltrim_cases s) as [[H0 ->]|[(a & r & -> & _ & ->)|[(a & b & r & -> & _ & ->)
                               |(a & b & c & r & -> & _ & ->)]]];
    [exact H0 | apply IH; simpl; lia ..].
Qed.

(** White space followed by a string is trimmed as the string. *)
Lemma ltrim_app_blank (s w : string) :
  Js.ltrim s = ""%string -> Js.ltrim (s ++ w) = Js.ltrim w.
Proof.
  induction s as [s IH] using string_length_ind. intros Hs.
  destruct (ltrim_cases s) as [[H0 Hfix]|[(a & r & -> & Hw & Hl)|[(a & b & r & -> & Hw & Hl)
                               |(a & b & c & r & -> & Hw & Hl)]]].
  - rewrite Hfix in Hs. now subst s.
  - rewrite Hl in Hs. rewrite string_cons_app.
    cbn [Js.space_width] in Hw. destruct (Js.is_space a) eqn:E1.
    + rewrite ltrim_space by exact E1. apply IH; [simpl; lia | exact Hs].
    + destruct r as [|b [|c r]]; try discriminate;
        destruct (Js.is_space2 a b); try discriminate;
        destruct (Js.is_space3 a b c); discriminate.
  - rewrite Hl in Hs. rewrite !string_cons_app.
    cbn [Js.space_width] in Hw. destruct (Js.is_space a) eqn:E1; [discriminate|].
    destruct (Js.is_space2 a b) eqn:E2.
    + rewrite ltrim_space2 by assumption. apply IH; [simpl; lia | exact Hs].
    + destruct r as [|c r]; try discriminate.
      destruct (Js.is_space3 a b c); discriminate.
  - rewrite Hl in Hs. rewrite !string_cons_app.
    cbn [Js.space_width] in Hw. destruct (Js.is_space a) eqn:E1; [discriminate|].
    destruct (Js.is_space2 a b) eqn:E2; [discriminate|].
    destruct (Js.is_space3 a b c) eqn:E3; [|discriminate].
    rewrite ltrim_space3 by assumption. apply IH; [simpl; lia | exact Hs].
Qed.

(** [rtrim] cuts off a suffix of white space. *)
Lemma rtrim_split (s : string) :
  exists w, s = (Js.rtrim s ++ w)%string /\ Js.ltrim w = ""%string.
Proof.
  induction s as [|a r [w [Hr Hw]]]; [exists ""%string; split; reflexivity|].
  cbn [Js.rtrim]. destruct (Js.ltrim (String a r)) as [|x y] eqn:E.
  - exists (String a r). split; [reflexivity | exact E].
  - exists w. split; [|exact Hw]. rewrite string_cons_app. now rewrite <- Hr.
Qed.

Lemma rtrim_step (a : ascii) (r : string) :
  Js.ltrim (String a r) <> ""%string ->
  Js.rtrim (String a r) = String a (Js.rtrim r).
Proof.
  intros H. cbn [Js.rtrim]. destruct (Js.ltrim (String a r)); [contradiction | reflexivity].
Qed.

Lemma rtrim_idempotent (s : string) : Js.rtrim (Js.rtrim s) = Js.rtrim s.
Proof.
  induction s as [|a r IH]; [reflexivity|].
  destruct (string_dec (Js.ltrim (String a r)) "") as [E|E].
  - cbn [Js.rtrim]. now rewrite E.
  - rewrite (rtrim_step a r E).
    rewrite rtrim_step; [now rewrite IH|].
    intros Hblank. apply E.
    destruct (rtrim_split r) as [w [Hr Hw]].
    rewrite Hr at 1. rewrite <- string_cons_app.
    now rewrite (ltrim_app_blank _ w Hblank).
Qed.

(** A string starts with the white space its prefix starts with. *)
Lemma space_width_app (p w : string) :
  Js.space_width p <> 0%nat -> Js.space_width (p ++ w) = Js.space_width p.
Proof.
  destruct p as [|a [|b [|c r]]]; cbn [Js.space_width]; rewrite ?string_cons_app;
    cbn [Js.space_width]; try congruence;
    destruct (Js.is_space a); try congruence;
    try (destruct w as [|x [|y w]]; rewrite ?string_cons_app; cbn [Js.space_width];
         congruence).
  all: destruct (Js.is_space2 a b); try congruence.
  all: try (destruct w as [|x w]; rewrite ?string_cons_app; cbn [Js.space_width];
            congruence).
Qed.

Lemma rtrim_head (s : string) :
  Js.space_width s = 0%nat -> Js.space_width (Js.rtrim s) = 0%nat.
Proof.
  intros Hs. destruct (rtrim_split s) as [w [Hr _]].
  destruct (Nat.eq_dec (Js.space_width (Js.rtrim s)) 0%nat) as [E|E]; [exact E|].
  pose proof (space_width_app _ w E) as Happ. rewrite <- Hr in Happ. congruence.
Qed.

(** Trimming a trimmed string changes nothing. *)
Lemma trim_idempotent (s : string) : Js.trim (Js.trim s) = Js.trim s.
Proof.
  unfold Js.trim.
  rewrite (ltrim_fixed (Js.rtrim (Js.ltrim s))) by (apply rtrim_head, ltrim_head).
  apply rtrim_idempotent.
Qed.

(** ** Lengths *)

Lemma characters_le_length (s : string) : (Validator.characters s <= Js.length s)%nat.
Proof. unfold Validator.characters. lia. Qed.


Lemma hex_is_ascii (c : ascii) :
  Js.is_hex c = true -> Js.is_continuation c = false /\ Js.is_astral c = false.
Proof.
  unfold Js.is_hex, Js.is_lower_hex, Js.is_digit, Js.is_continuation, Js.is_astral,
    Js.byte.
  intros H. split.
  - apply andb_false_iff. left. apply Nat.leb_gt.
    repeat (apply orb_prop in H as [H|H]); apply andb_prop in H as [_ H];
      apply Nat.leb_le in H; lia.
  - apply Nat.leb_gt.
    repeat (apply orb_prop in H as [H|H]); apply andb_prop in H as [_ H];
      apply Nat.leb_le in H; lia.
Qed.

(** On hexadecimal digits the UTF-16 length is the number of bytes. *)
Lemma length_hex (s : string) :
  Js.forallb_string Js.is_hex s = true -> Js.length s = String.length s.
Proof.
  induction s as [|c s IH]; [reflexivity|]. cbn [Js.forallb_string Js.length String.length].
  intros H. apply andb_prop in H as [Hc Hs].
  destruct (hex_is_ascii c Hc) as [-> ->]. now rewrite (IH Hs).
Qed.

(** ** Numbers *)

Lemma of_Z_exact (z : Z) : Z.abs z < 2 ^ 53 -> Js.of_Z z = Js.Finite z.
Proof.
  intros Hz. unfold Js.of_Z, Js.round_double.
  destruct (Z.ltb_spec (Z.abs z) (2 ^ 53)) as [_|Hge]; [|lia].
  destruct (Z.leb_spec (2 ^ 1024) (Z.abs z)) as [Hbig|_].
  - exfalso. assert (2 ^ 53 <= 2 ^ 1024) by (apply Z.pow_le_mono_r; lia). lia.
  - f_equal. rewrite Z.mul_comm. apply Z.abs_sgn.
Qed.

Lemma round_double_pos (n : Z) : 1 <= n -> 1 <= Js.round_double n.
Proof.
  intros Hn. unfold Js.round_double.
  destruct (Z.ltb_spec n (2 ^ 53)) as [_|Hge]; [exact Hn|].
  set (e := Z.log2 n - 52).
  assert (Hlog : 53 <= Z.log2 n) by (apply Z.log2_le_pow2; lia).
  assert (He : 0 <= e) by (unfold e; lia).
  assert (Hpow : 0 < 2 ^ e) by (apply Z.pow_pos_nonneg; lia).
  assert (Hq : 1 <= Z.shiftr n e).
  { rewrite Z.shiftr_div_pow2 by exact He.
    apply Z.div_le_lower_bound; [exact Hpow|].
    rewrite Z.mul_1_r.
    transitivity (2 ^ Z.log2 n); [apply Z.pow_le_mono_r; unfold e; lia|].
    apply Z.log2_spec. lia. }
  set (q := Z.shiftr n e) in *.
  assert (Hq' : forall x, q <= x -> 1 <= Z.shiftl x e).
  { intros x Hx. rewrite Z.shiftl_mul_pow2 by exact He. nia. }
  destruct (_ <? _); [apply Hq'; lia|].
  destruct (_ <? _); [apply Hq'; lia|].
  destruct (Z.even q); apply Hq'; lia.
Qed.

(** A positive integer is held as a positive number or as the positive
    infinity. *)
Lemma of_Z_pos (z : Z) :
  1 <= z ->
  (exists p, Js.of_Z z = Js.Finite p /\ 1 <= p) \/ Js.of_Z z = Js.Infinite false.
Proof.
  intros Hz. unfold Js.of_Z.
  rewrite (Z.abs_eq z) by lia. rewrite (Z.sgn_pos z) by lia.
  pose proof (round_double_pos z Hz) as Hm.
  replace (z <? 0) with false by (symmetry; apply Z.ltb_ge; lia).
  destruct (2 ^ 1024 <=? Js.round_double z); [now right | left].
  eexists. split; [reflexivity | lia].
Qed.

(** ** The two readings of an integer

    [isInt] reads a string by its syntax; the handlers read it with
    [parseInt].  On a string of the integer syntax both give the same
    number. *)

Lemma ascii_space_width (a : ascii) (r : string) :
  (Js.byte a < 128)%nat -> Js.is_space a = false ->
  Js.space_width (String a r) = 0%nat.
Proof.
  intros Ha Hs. cbn [Js.space_width]. rewrite Hs.
  assert (H2 : forall b, Js.is_space2 a b = false).
  { intros b. unfold Js.is_space2. apply andb_false_iff. left. apply Nat.eqb_neq. lia. }
  assert (H3 : forall b c, Js.is_space3 a b c = false).
  { intros b c. unfold Js.is_space3.
    replace (Js.byte a =? 225)%nat with false by (symmetry; apply Nat.eqb_neq; lia).
    replace (Js.byte a =? 226)%nat with false by (symmetry; apply Nat.eqb_neq; lia).
    replace (Js.byte a =? 227)%nat with false by (symmetry; apply Nat.eqb_neq; lia).
    replace (Js.byte a =? 239)%nat with false by (symmetry; apply Nat.eqb_neq; lia).
    reflexivity. }
  destruct r as [|b [|c r]]; rewrite ?H2, ?H3; reflexivity.
Qed.

Lemma digit_byte (c : ascii) :
  Js.is_digit c = true -> (48 <= Js.byte c <= 57)%nat.
Proof.
  unfold Js.is_digit, Js.byte. intros H. apply andb_prop in H as [H1 H2].
  apply Nat.leb_le in H1, H2. lia.
Qed.

Lemma digit_no_space (c : ascii) (r : string) :
  Js.is_digit c = true -> Js.space_width (String c r) = 0%nat.
Proof.
  intros Hc. pose proof (digit_byte c Hc) as Hb.
  apply ascii_space_width; [lia|].
  unfold Js.is_space. fold (Js.byte c).
  apply orb_false_iff. split; [apply andb_false_iff; right; apply Nat.leb_gt; lia|].
  apply Nat.eqb_neq. lia.
Qed.

Lemma take_while_all (p : ascii -> bool) (s : string) :
  Js.forallb_string p s = true -> Js.take_while p s = s.
Proof.
  induction s as [|c s IH]; [reflexivity|]. cbn. intros H.
  apply andb_prop in H as [-> Hs]. now rewrite (IH Hs).
Qed.

(** Decimal digits are read in base ten. *)
Lemma radix_digits_decimal (body : string) :
  Js.forallb_string Js.is_digit body = true -> Js.radix_digits body = (10, body).
Proof.
  intros H. unfold Js.radix_digits.
  destruct body as [|z [|x r]]; rewrite ?(take_while_all _ _ H); try reflexivity.
  replace (Ascii.eqb x "x" || Ascii.eqb x "X") with false;
    [now rewrite andb_false_r|].
  cbn in H. apply andb_prop in H as [_ H]. apply andb_prop in H as [Hx _].
  pose proof (digit_byte x Hx) as Hb. symmetry. apply orb_false_iff.
  split; apply Ascii.eqb_neq; intros ->; vm_compute in Hb; lia.
Qed.

Lemma parseInt_int_syntax (s : string) :
  Validator.int_syntax s = true -> Js.parseInt s = Js.of_Z (Validator.int_value s).
Proof.
  unfold Validator.int_syntax, Validator.int_value, Js.parseInt. intros H.
  apply andb_prop in H as [Hne Hd]. apply negb_true_iff in Hne.
  assert (Hfix : Js.ltrim s = s).
  { apply ltrim_fixed. destruct s as [|a r]; [reflexivity|].
    cbn [Js.strip_sign] in Hne, Hd.
    destruct (Ascii.eqb a "-") eqn:Em;
      [apply Ascii.eqb_eq in Em; subst a; apply ascii_space_width;
       [vm_compute; lia | reflexivity]|].
    destruct (Ascii.eqb a "+") eqn:Ep;
      [apply Ascii.eqb_eq in Ep; subst a; apply ascii_space_width;
       [vm_compute; lia | reflexivity]|].
    cbn [snd Js.forallb_string] in Hd. apply andb_prop in Hd as [Ha _].
    now apply digit_no_space. }
  rewrite Hfix. destruct (Js.strip_sign s) as [neg body]. cbn [snd] in Hne, Hd.
  rewrite (radix_digits_decimal body Hd).
  destruct body as [|c r]; [discriminate | reflexivity].
Qed.

(** ** Object ids

    Lowercase hexadecimal strings are fixed by [toLowerCase]; with
    twenty-four digits they are what the database prints an ObjectId as.
    Twenty-four hexadecimal digits in either case are accepted by
    [isMongoId] and by the cast to an ObjectId. *)
Definition is_object_id (s : string) : bool :=
  Js.forallb_string Js.is_lower_hex s && (String.length s =? 24)%nat.

Lemma to_lower_lower_hex (c : ascii) : Js.is_lower_hex c = true -> Js.to_lower c = c.
Proof.
  unfold Js.is_lower_hex, Js.is_digit, Js.to_lower. intros Hc.
  destruct ((65 <=? nat_of_ascii c)%nat && (nat_of_ascii c <=? 90)%nat) eqn:E;
    [|reflexivity].
  exfalso. apply andb_prop in E as [E1 E2].
  apply Nat.leb_le in E1, E2.
  apply orb_prop in Hc as [Hc|Hc]; apply andb_prop in Hc as [H1 H2];
    apply Nat.leb_le in H1, H2; lia.
Qed.

Lemma toLowerCase_object_id (s : string) :
  Js.forallb_string Js.is_lower_hex s = true -> Js.toLowerCase s = s.
Proof.
  induction s as [|c s IH]; simpl; intros Hs; [reflexivity|].
  apply andb_prop in Hs as [Hc Hs]. unfold Js.toLowerCase in *. simpl.
  now rewrite (to_lower_lower_hex c Hc), (IH Hs).
Qed.

Lemma forallb_string_impl (p q : ascii -> bool) (s : string) :
  (forall c, p c = true -> q c = true) ->
  Js.forallb_string p s = true -> Js.forallb_string q s = true.
Proof.
  intros Hpq. induction s as [|c s IH]; simpl; [reflexivity|].
  intros Hs. apply andb_prop in Hs as [Hc Hs]. now rewrite (Hpq c Hc), (IH Hs).
Qed.

Lemma object_id_hex_id (s : string) : is_object_id s = true -> is_hex_id s = true.
Proof.
  unfold is_object_id, is_hex_id. intros Hs.
  apply andb_prop in Hs as [Hh Hl]. rewrite Hl, andb_true_r.
  apply (forallb_string_impl Js.is_lower_hex); [|exact Hh].
  intros c Hc. unfold Js.is_hex. now rewrite Hc.
Qed.

Lemma hex_id_nonempty (id : string) : is_hex_id id = true -> String.eqb id "" = false.
Proof.
  unfold is_hex_id. intros Hid. apply andb_prop in Hid as [_ Hlen].
  apply Nat.eqb_eq in Hlen. apply (long_not_empty id 0). lia.
Qed.

Lemma hex_id_isMongoId (s : string) : is_hex_id s = true -> Validator.isMongoId s = true.
Proof.
  intros Hs. pose proof (hex_id_nonempty s Hs) as Hne.
  unfold is_hex_id in Hs. apply andb_prop in Hs as [Hh Hl].
  unfold Validator.isMongoId, Validator.isHexadecimal.
  rewrite Hne, Hh, (length_hex s Hh), Hl. reflexivity.
Qed.

Lemma object_id_isMongoId (s : string) :
  is_object_id s = true -> Validator.isMongoId s = true.
Proof. intros Hs. apply hex_id_isMongoId, object_id_hex_id, Hs. Qed.

Lemma cast_oid_hex_id (s : string) :
  is_hex_id s = true -> cast_oid s = Returns (Js.toLowerCase s).
Proof. intros Hs. unfold cast_oid. now rewrite Hs. Qed.

Lemma cast_oid_object_id (s : string) :
  is_object_id s = true -> cast_oid s = Returns s.
Proof.
  intros Hs. rewrite (cast_oid_hex_id s (object_id_hex_id s Hs)).
  unfold is_object_id in Hs.
  apply andb_prop in Hs as [Hh _]. now rewrite (toLowerCase_object_id s Hh).
Qed.

(** ** The error normalizer *)

(** The message of the catch-all branch. *)
Definition internal_error_message (env : Env) (raw : string) : string :=
  if bool_decide (node_env env = Some "production") then "An unexpected error occurred"
  else if String.eqb raw "" then "Internal Server Error" else raw.

Definition error_entries (errors : list (string * string)) : json :=
  JArr (map (fun e => JObj [("field", JStr (fst e)); ("message", JStr (snd e))]) errors).

(** The normalization as the specification words it: outside production
    the raw message, in every case. *)
Definition normalized_as_stated (env : Env) (err : JsError) : Response :=
  match err with
  | ApiError statusCode message code =>
      Json statusCode (JObj [("success", JBool false);
                             ("error", JObj [("message", JStr message);
                                             ("code", JStr code)])])
  | OtherError name message errors =>
      if String.eqb name "ValidationError" then
        Json 400 (JObj [("success", JBool false);
                        ("error", JObj [("message", JStr "Validation failed");
                                        ("code", JStr "VALIDATION_ERROR");
                                        ("details", error_entries errors)])])
      else
        Json 500 (JObj [("success", JBool false);
                        ("error",
                         JObj [("message",
                                JStr (if bool_decide (node_env env = Some "production")
                                      then "An unexpected error occurred"
                                      else message));
                               ("code", JStr "INTERNAL_ERROR")])])
  end.

(** The same, with the fallback the handler has for an empty message. *)
Definition normalized (env : Env) (err : JsError) : Response :=
  match err with
  | OtherError name message errors =>
      if String.eqb name "ValidationError" then normalized_as_stated env err
      else
        Json 500 (JObj [("success", JBool false);
                        ("error",
                         JObj [("message", JStr (internal_error_message env message));
                               ("code", JStr "INTERNAL_ERROR")])])
  | _ => normalized_as_stated env err
  end.

(** C6, as stated, fails: in development mode an error without a message
    is answered with the text "Internal Server Error", not with its (empty)
    raw message. *)
Lemma errorHandler_raw_message_counterexample :
  errorHandler Demo.env (OtherError "Error" "" [])
  = Json 500 (JObj [("success", JBool false);
                    ("error", JObj [("message", JStr "Internal Server Error");
                                    ("code", JStr "INTERNAL_ERROR")])]) /\
  normalized_as_stated Demo.env (OtherError "Error" "" [])
  = Json 500 (JObj [("success", JBool false);
                    ("error", JObj [("message", JStr "");
                                    ("code", JStr "INTERNAL_ERROR")])]) /\
  ~ (forall env err, errorHandler env err = normalized_as_stated env err).
Proof.
  split; [reflexivity|]. split; [reflexivity|].
  intros Hall. specialize (Hall Demo.env (OtherError "Error" "" [])).
  discriminate Hall.
Qed.

(** C6 (amended): a known API error is answered with its own status code
    and [{success: false, error: {message, code}}]; a store validation
    failure with 400, code VALIDATION_ERROR and one [{field, message}] entry
    per failed path; any other error with 500 and code INTERNAL_ERROR, the
    message being the fixed generic text in production and otherwise the raw
    message, or "Internal Server Error" when the raw message is empty. *)
Theorem errorHandler_normalizes (env : Env) (err : JsError) :
  errorHandler env err = normalized env err.
Proof.
  destruct err as [sc msg code | name msg errs]; [reflexivity|].
  unfold errorHandler, normalized, normalized_as_stated, error_envelope,
    internal_error_message, error_entries, Js.truthy.
  destruct (String.eqb name "ValidationError"); [reflexivity|].
  destruct (bool_decide (node_env env = Some "production")); [reflexivity|].
  destruct (String.eqb msg ""); reflexivity.
Qed.

(** ** Routing *)

Ltac never_next_tac :=
  intros env s c s' c';
  repeat match goal with
         | |- context [match ?x with _ => _ end] => destruct x
         end; discriminate.

Ltac eval_closed_eqb :=
  repeat match goal with
         | |- context [String.eqb ?a ?b] =>
             let v := eval vm_compute in (String.eqb a b) in
             match v with
             | true => change (String.eqb a b) with true
             | false => change (String.eqb a b) with false
             end
         end.

Ltac route_step :=
  cbn [dispatch r_method r_pattern r_stack match_path Method_eqb
       ctx_req ctx_body ctx_params ctx_query ctx_user ctx_errors
       fmap option_fmap option_map];
  cbv beta iota.

Ltac route_tac Hm Hp terminal :=
  unfold serve, app_stack, api_router, mount, init_ctx; rewrite Hp;
  cbv beta iota; eval_closed_eqb; cbv beta iota;
  unfold item_routes, auth_routes, status_routes;
  route_step; rewrite ?Hm; eval_closed_eqb; route_step;
  unfold set_params; route_step;
  match goal with
  | |- context [run_stack ?st ?env ?s ?c] =>
      destruct (run_stack st env s c) as [s1 [w r|e|c1]] eqn:E;
      [reflexivity | reflexivity | exfalso; revert E; terminal]
  end.

Section Routing.

Context {C : Collaborators}.

Definition never_next (m : Middleware) : Prop :=
  forall env s c s' c', m env s c <> (s', Next c').

(** A stack whose last middleware never calls [next()] does not fall
    through to a later route. *)
Lemma run_stack_terminal (pre : list (Stage * Middleware)) (st : Stage) (m : Middleware) :
  never_next m ->
  forall env s c s' c', run_stack (pre ++ [(st, m)]) env s c <> (s', Continue c').
Proof.
  intros Hm. induction pre as [|[st0 m0] pre IH]; intros env s c s' c'; simpl.
  - destruct (m env s c) as [s1 [c1|e|r]] eqn:E; try discriminate.
    exfalso. exact (Hm _ _ _ _ _ E).
  - destruct (m0 env s c) as [s1 [c1|e|r]]; try discriminate. apply IH.
Qed.

Lemma get_item_never_next : never_next get_item.
Proof. unfold get_item. never_next_tac. Qed.

Lemma create_item_never_next : never_next create_item.
Proof. unfold create_item. never_next_tac. Qed.

Lemma update_item_never_next : never_next update_item.
Proof. unfold update_item. never_next_tac. Qed.

Lemma register_never_next : never_next register.
Proof. unfold register. never_next_tac. Qed.

Lemma login_never_next : never_next login.
Proof. unfold login. never_next_tac. Qed.

Lemma me_never_next : never_next me.
Proof. unfold me. never_next_tac. Qed.

(** [POST /api/items] runs the stack of the create route. *)
Lemma serve_create_item (env : Env) (s : Store) (req : Request) :
  method req = POST -> path req = ["items"] ->
  serve env s req = respond env (run_stack create_item_stack env s (init_ctx req)).
Proof.
  intros Hm Hp.
  route_tac Hm Hp ltac:(apply (run_stack_terminal [_; _; _] _ _ create_item_never_next)).
Qed.

(** [POST /api/auth/register] and [POST /api/auth/login]. *)
Lemma serve_register (env : Env) (s : Store) (req : Request) :
  method req = POST -> path req = ["auth"; "register"] ->
  serve env s req = respond env (run_stack register_stack env s (init_ctx req)).
Proof.
  intros Hm Hp.
  route_tac Hm Hp ltac:(apply (run_stack_terminal [_; _; _] _ _ register_never_next)).
Qed.

Lemma serve_login (env : Env) (s : Store) (req : Request) :
  method req = POST -> path req = ["auth"; "login"] ->
  serve env s req = respond env (run_stack login_stack env s (init_ctx req)).
Proof.
  intros Hm Hp.
  route_tac Hm Hp ltac:(apply (run_stack_terminal [_; _; _] _ _ login_never_next)).
Qed.

(** [GET /api/auth/me], the protected route. *)
Lemma serve_me (env : Env) (s : Store) (req : Request) :
  method req = GET -> path req = ["auth"; "me"] ->
  serve env s req = respond env (run_stack me_stack env s (init_ctx req)).
Proof.
  intros Hm Hp.
  route_tac Hm Hp ltac:(apply (run_stack_terminal [_] _ _ me_never_next)).
Qed.

Lemma isMongoId_nonempty (id : string) :
  Validator.isMongoId id = true -> String.eqb id "" = false.
Proof.
  unfold Validator.isMongoId. intros Hid. apply andb_prop in Hid as [_ Hlen].
  destruct id; [discriminate Hlen | reflexivity].
Qed.

Ltac route_param_tac Hm Hp Hid terminal :=
  unfold serve, app_stack, api_router, mount, init_ctx; rewrite Hp;
  cbv beta iota; eval_closed_eqb; cbv beta iota;
  unfold item_routes;
  route_step; rewrite ?Hm; route_step; rewrite ?Hid; route_step;
  unfold set_params; route_step;
  match goal with
  | |- context [run_stack ?st ?env ?s ?c] =>
      destruct (run_stack st env s c) as [s1 [w r|e|c1]] eqn:E;
      [reflexivity | reflexivity | exfalso; revert E; terminal]
  end.

(** The context a route with an [:id] parameter starts from. *)
Definition id_ctx (req : Request) (id : string) : Ctx :=
  mkCtx req (body req) (<["id" := id]> ∅) (query req) None [].

(** [GET /api/items/:id] for a non-empty segment. *)
Lemma serve_get_item (env : Env) (s : Store) (req : Request) (id : string) :
  method req = GET -> path req = ["items"; id] -> String.eqb id "" = false ->
  serve env s req = respond env (run_stack get_item_stack env s (id_ctx req id)).
Proof.
  intros Hm Hp Hid. unfold id_ctx.
  route_param_tac Hm Hp Hid
    ltac:(apply (run_stack_terminal [_; _] _ _ get_item_never_next)).
Qed.

(** [PUT /api/items/:id] for a non-empty segment. *)
Lemma serve_update_item (env : Env) (s : Store) (req : Request) (id : string) :
  method req = PUT -> path req = ["items"; id] -> String.eqb id "" = false ->
  serve env s req = respond env (run_stack update_item_stack env s (id_ctx req id)).
Proof.
  intros Hm Hp Hid. unfold id_ctx.
  route_param_tac Hm Hp Hid
    ltac:(apply (run_stack_terminal [_; _; _; _] _ _ update_item_never_next)).
Qed.

End Routing.

(** ** Items *)

Ltac stack_step :=
  cbn [run_stack run_chain body_ param_ body_optional query_optional
       vc_field vc_location vc_optional vc_steps
       location_data set_location add_errors
       ctx_req ctx_body ctx_params ctx_query ctx_user ctx_errors
       run_steps trim_ notEmpty isLength isMongoId isInt isString
       toString default from_option id negb
       chain validate handler app respond fst snd].

Definition field_entry (fld msg : string) : json :=
  JObj [("field", JStr fld); ("message", JStr msg)].

(** The body of a 400 answer of the request validator. *)
Definition validation_body (details : list json) : json :=
  JObj [("success", JBool false);
        ("error", JObj [("message", JStr "Validation failed");
                        ("code", JStr "VALIDATION_ERROR");
                        ("details", JArr details)])].

(** A field is blank when it is absent or empty once trimmed. *)
Definition blank (v : option string) : bool :=
  String.eqb (Js.trim (toString v)) "".

Section Items.

Context {C : Collaborators}.

(** C1: GET /api/items/search never reaches the search handler.  The
    router has registered [/:id] before [/search], so the request is taken
    by the get-by-id route with [id = "search"], which is not an ObjectId:
    whatever the store holds and whatever [page] and [limit] say, the
    answer is the 400 of the request validator and no page of items. *)
Theorem search_route_shadowed_by_id_route
    (env : Env) (s : Store) (url : string) (auth : option string)
    (b q : gmap string string) :
  serve env s (mkRequest GET ["items"; "search"] url auth b q)
  = (s, mkServed RequestValidator
          (Json 400 (validation_body [field_entry "id" "Invalid item ID"]))).
Proof.
  rewrite (serve_get_item _ _ _ "search") by reflexivity.
  reflexivity.
Qed.


(** C9: whatever a create request carries, a bearer token included, the
    item it stores has no owner.  The stack of the route holds no token
    verification, so the handler finds no request identity. *)
Theorem create_item_records_no_owner
    (env : Env) (s : Store) (req : Request) :
  method req = POST -> path req = ["items"] ->
  let '(s', served) := serve env s req in
  ~ In TokenVerifier (map fst create_item_stack) /\
  users s' = users s /\
  (items s' = items s \/
   exists it, items s' = (items s ++ [it])%list /\ user it = None /\
              jget "user" (item_json it) = None /\
              response served
              = Json 201 (JObj [("success", JBool true);
                                ("message", JStr "Item created successfully");
                                ("item", item_json it)])).
Proof.
  intros Hm Hp.
  rewrite serve_create_item by assumption.
  assert (Hstack : ~ In TokenVerifier (map fst create_item_stack))
    by (cbn; intros [Hin|[Hin|[Hin|[Hin|[]]]]]; discriminate Hin).
  revert Hstack.
  unfold create_item_stack at 2, init_ctx. stack_step.
  destruct (body req !! "title") as [t|]; stack_step;
    (rewrite lookup_insert_ne by discriminate);
    destruct (body req !! "content") as [c|]; stack_step;
    unfold validateRequest; stack_step;
    match goal with
    | |- context [match ?l with [] => _ | _ :: _ => _ end] =>
        destruct l; stack_step; [|intros Hstack; split; [exact Hstack|]; split; [reflexivity | left; reflexivity]]
    end;
    unfold create_item, ItemModel.create, db_guard; stack_step;
    destruct (db_fault env); stack_step;
      try (intros Hstack; split; [exact Hstack|]; split; [reflexivity | left; reflexivity]);
    match goal with
    | |- context [match ?l with [] => _ | _ :: _ => _ end] =>
        destruct l; stack_step; [|intros Hstack; split; [exact Hstack|]; split; [reflexivity | left; reflexivity]]
    end;
    destruct (ItemModel.lookup (next_oid env) (items s)); stack_step;
      try (intros Hstack; split; [exact Hstack|]; split; [reflexivity | left; reflexivity]);
    (intros Hstack; split; [exact Hstack|]; split;
       [reflexivity | right; eexists; repeat split; reflexivity]).
Qed.

Lemma lookup_app_fresh (oid : string) (l : list Item) (it : Item) :
  ItemModel.lookup oid l = None -> item_id it = oid ->
  ItemModel.lookup oid (l ++ [it]) = Some it.
Proof.
  intros Hnone Hid. unfold ItemModel.lookup in *.
  induction l as [|j l IH]; simpl in *.
  - now rewrite Hid, String.eqb_refl.
  - destruct (String.eqb (item_id j) oid); [discriminate | now apply IH].
Qed.

(** What a 201 answer of the create route implies. *)
Lemma create_item_success
    (env : Env) (s : Store) (req : Request) (t c : string) :
  method req = POST -> path req = ["items"] ->
  body req !! "title" = Some t -> body req !! "content" = Some c ->
  let it := mkItem (next_oid env) (Js.trim t) (Js.trim c) None (now env) (now env) in
  let '(s', served) := serve env s req in
  status_of (response served) = 201%nat ->
  s' = mkStore (items s ++ [it]) (users s) /\
  ItemModel.lookup (next_oid env) (items s) = None /\
  served = mkServed ResourceHandler
             (Json 201 (JObj [("success", JBool true);
                              ("message", JStr "Item created successfully");
                              ("item", item_json it)])).
Proof.
  intros Hm Hp Ht Hc it.
  rewrite serve_create_item by assumption.
  unfold create_item_stack, init_ctx. stack_step.
  rewrite Ht. stack_step.
  rewrite lookup_insert_ne, Hc by discriminate. stack_step.
  unfold Validator.isEmpty, Validator.isLength.
  destruct (String.eqb (Js.trim t) "") eqn:Et;
    [stack_step; destruct (_ <=? _)%nat; destruct (String.eqb (Js.trim c) "");
     intros Hst; discriminate Hst|].
  destruct (Validator.characters (Js.trim t) <=? 100)%nat eqn:El;
    [|stack_step; destruct (String.eqb (Js.trim c) "");
      intros Hst; discriminate Hst].
  destruct (String.eqb (Js.trim c) "") eqn:Ec;
    [stack_step; intros Hst; discriminate Hst|].
  unfold validateRequest. stack_step. cbn [negb andb Nat.leb app]. stack_step.
  unfold create_item. stack_step.
  rewrite lookup_insert_ne, !lookup_insert_eq by discriminate.
  unfold ItemModel.create, db_guard, ItemModel.validate_title,
    ItemModel.validate_content.
  cbn [fmap option_fmap option_map]. rewrite !trim_idempotent, Et, Ec.
  destruct (db_fault env); [stack_step; intros Hst; discriminate Hst|].
  destruct (100 <? Js.length (Js.trim t))%nat;
    [cbn [app]; stack_step; intros Hst; discriminate Hst|].
  cbn [app].
  destruct (ItemModel.lookup (next_oid env) (items s)) eqn:Efresh;
    [stack_step; intros Hst; discriminate Hst|].
  stack_step. intros _. repeat split; reflexivity.
Qed.

(** C8 (amended): after a successful create with title [t] and content
    [c], get-by-id with the assigned id answers with the item the create
    answered with: the assigned id, the creation and update times, and
    title and content equal to [t] and [c] with surrounding whitespace
    removed. *)
Theorem create_then_get_returns_trimmed
    (env env' : Env) (s s' : Store) (req req' : Request) (t c : string)
    (served : Served) :
  method req = POST -> path req = ["items"] ->
  body req !! "title" = Some t -> body req !! "content" = Some c ->
  is_object_id (next_oid env) = true ->
  serve env s req = (s', served) -> status_of (response served) = 201%nat ->
  method req' = GET -> path req' = ["items"; next_oid env] ->
  db_fault env' = None ->
  let it := mkItem (next_oid env) (Js.trim t) (Js.trim c) None (now env) (now env) in
  response served
  = Json 201 (JObj [("success", JBool true);
                    ("message", JStr "Item created successfully");
                    ("item", item_json it)]) /\
  serve env' s' req'
  = (s', mkServed ResourceHandler
           (Json 200 (JObj [("success", JBool true); ("item", item_json it)]))).
Proof.
  intros Hm Hp Ht Hc Hoid Hserve Hst Hm' Hp' Hdb it.
  pose proof (object_id_isMongoId _ Hoid) as Hmongo.
  pose proof (create_item_success env s req t c Hm Hp Ht Hc) as Hcreate.
  cbv zeta in Hcreate. rewrite Hserve in Hcreate.
  destruct (Hcreate Hst) as (-> & Efresh & ->).
  split; [reflexivity|].
  rewrite (serve_get_item _ _ _ (next_oid env)) by
    (try assumption; apply isMongoId_nonempty; exact Hmongo).
  unfold get_item_stack, id_ctx. stack_step.
  rewrite lookup_insert_eq. stack_step. rewrite Hmongo.
  unfold validateRequest. stack_step.
  unfold get_item, ItemModel.findById, db_guard. stack_step.
  rewrite lookup_insert_eq, Hdb. stack_step.
  rewrite (cast_oid_object_id _ Hoid).
  pose proof (lookup_app_fresh _ _ it Efresh eq_refl) as Hfound.
  unfold it in *. cbn [items]. rewrite Hfound. reflexivity.
Qed.

Lemma lookup_replace (oid : string) (f : Item -> Item) (l : list Item) :
  (forall i, item_id (f i) = item_id i) ->
  ItemModel.lookup oid (ItemModel.replace oid f l) = f <$> ItemModel.lookup oid l.
Proof.
  intros Hf. unfold ItemModel.lookup. induction l as [|j l IH]; simpl; [reflexivity|].
  destruct (String.eqb (item_id j) oid) eqn:E; simpl.
  - now rewrite Hf, E.
  - now rewrite E.
Qed.

(** C10: a PUT on an existing item, addressed by the twenty-four
    hexadecimal digits of its id, whose body has neither [title] nor
    [content] is answered with 200 and the item; title, content and owner
    of the item are what they were, in the answer and in the store. *)
Theorem update_without_fields_keeps_item
    (env : Env) (s : Store) (req : Request) (id : string) (it : Item) :
  method req = PUT -> path req = ["items"; id] ->
  body req !! "title" = None -> body req !! "content" = None ->
  is_hex_id id = true -> db_fault env = None ->
  ItemModel.lookup (Js.toLowerCase id) (items s) = Some it ->
  exists s' it',
    serve env s req
    = (s', mkServed ResourceHandler
             (Json 200 (JObj [("success", JBool true);
                              ("message", JStr "Item updated successfully");
                              ("item", item_json it')]))) /\
    ItemModel.lookup (Js.toLowerCase id) (items s') = Some it' /\
    item_id it' = item_id it /\
    title it' = title it /\ content it' = content it /\ user it' = user it.
Proof.
  intros Hm Hp Ht Hc Hid Hdb Hit.
  pose proof (hex_id_isMongoId id Hid) as Hmongo.
  exists (mkStore (ItemModel.replace (Js.toLowerCase id)
                     (ItemModel.apply_updates env None None) (items s)) (users s)).
  exists (ItemModel.apply_updates env None None it).
  split; [|split; [|repeat split]].
  - rewrite (serve_update_item _ _ _ id) by
      (try assumption; apply hex_id_nonempty; exact Hid).
    unfold update_item_stack, id_ctx. stack_step.
    rewrite lookup_insert_eq. stack_step. rewrite Hmongo, Ht. stack_step.
    rewrite Hc. stack_step.
    unfold validateRequest. stack_step.
    unfold update_item. stack_step.
    rewrite lookup_insert_eq, Ht, Hc. stack_step. cbn [Js.truthy].
    unfold ItemModel.findByIdAndUpdate, db_guard, cast_oid.
    rewrite Hdb, Hid. cbn [app]. rewrite Hit. reflexivity.
  - cbn [items]. rewrite lookup_replace by reflexivity. now rewrite Hit.
Qed.

End Items.

(** C8 as stated: get-by-id returns title and content identical to the
    submitted ones. *)
Definition create_then_get_identical : Prop :=
  forall (C : Collaborators) (env env' : Env) (s s' : Store) (req req' : Request)
         (t c : string) (served : Served),
    method req = POST -> path req = ["items"] ->
    body req !! "title" = Some t -> body req !! "content" = Some c ->
    is_object_id (next_oid env) = true ->
    serve env s req = (s', served) -> status_of (response served) = 201%nat ->
    method req' = GET -> path req' = ["items"; next_oid env] ->
    db_fault env' = None ->
    exists it,
      serve env' s' req'
      = (s', mkServed ResourceHandler
               (Json 200 (JObj [("success", JBool true); ("item", item_json it)]))) /\
      title it = t /\ content it = c.

(** C8, as stated, fails: a title submitted with a leading space is stored
    and returned without it. *)
Lemma create_then_get_identical_counterexample :
  (let req := Demo.request POST ["items"] None
                (<["title" := " T"]> (<["content" := "C"]> ∅)) in
   let created := serve (C := Demo.collaborators) Demo.env Demo.empty_store req in
   status_of (response (snd created)) = 201%nat /\
   serve (C := Demo.collaborators) Demo.env (fst created)
         (Demo.request GET ["items"; next_oid Demo.env] None ∅)
   = (fst created,
      mkServed ResourceHandler
        (Json 200 (JObj [("success", JBool true);
                         ("item",
                          JObj [("_id", JStr (next_oid Demo.env));
                                ("title", JStr "T"); ("content", JStr "C");
                                ("createdAt", JDate (now Demo.env));
                                ("updatedAt", JDate (now Demo.env));
                                ("__v", JNum 0)])])))) /\
  ~ create_then_get_identical.
Proof.
  split; [split; reflexivity|].
  intros Hall.
  pose (req := Demo.request POST ["items"] None
                 (<["title" := " T"]> (<["content" := "C"]> ∅))).
  pose (req' := Demo.request GET ["items"; next_oid Demo.env] None ∅).
  pose (res := serve (C := Demo.collaborators) Demo.env Demo.empty_store req).
  destruct (Hall Demo.collaborators Demo.env Demo.env Demo.empty_store (fst res)
                 req req' " T" "C" (snd res))
    as (it & Hget & Ht & _); try reflexivity.
  destruct it as [i ti co u ca ua]. cbn in Ht. subst ti.
  vm_compute in Hget. congruence.
Qed.

(** ** Authentication *)

Definition api_error_body (message code : string) : json :=
  JObj [("success", JBool false);
        ("error", JObj [("message", JStr message); ("code", JStr code)])].

(** The user a name resolves to in the credential store. *)
Definition user_named (s : Store) (name : string) : option User :=
  List.find (fun u => String.eqb (username u) name) (users s).

Section Auth.

Context {C : Collaborators}.

(** C3: on the protected route, a well-formed bearer token that verifies
    under the configured secret and whose expiry has been reached is
    answered with 401 TOKEN_EXPIRED, so never with INVALID_TOKEN; a token
    whose verification fails for any other reason is answered with 401
    INVALID_TOKEN. *)
Theorem expired_token_is_token_expired
    (env : Env) (s : Store) (req : Request) (tok : string) :
  method req = GET -> path req = ["auth"; "me"] ->
  authorization req = Some ("Bearer " ++ tok)%string -> no_space tok = true ->
  (forall t,
      jwt_decode tok = Some t -> token_key t = jwt_secret env ->
      claim_exp (token_claims t) <= clock_timestamp env ->
      serve env s req
      = (s, mkServed ErrorNormalizer
              (Json 401 (api_error_body "Token has expired" "TOKEN_EXPIRED"))) /\
      error_code (response (snd (serve env s req))) <> Some (JStr "INVALID_TOKEN")) /\
  (forall name,
      jwt_verify env tok (jwt_secret env) = JwtThrow name ->
      name <> "TokenExpiredError" ->
      serve env s req
      = (s, mkServed ErrorNormalizer
              (Json 401 (api_error_body "Invalid token" "INVALID_TOKEN")))).
Proof.
  intros Hm Hp Hauth Htok.
  assert (Hrun : serve env s req
                 = respond env
                     (match jwt_verify env tok (jwt_secret env) with
                      | JwtOk decoded =>
                          run_stack [handler me] env s (set_user decoded (init_ctx req))
                      | JwtThrow name =>
                          if String.eqb name "TokenExpiredError" then
                            (s, Failed (ApiError 401 "Token has expired" "TOKEN_EXPIRED"))
                          else (s, Failed (ApiError 401 "Invalid token" "INVALID_TOKEN"))
                      end)).
  { rewrite serve_me by assumption.
    unfold me_stack. cbn [run_stack]. unfold authenticateJWT at 1.
    cbn [ctx_req init_ctx]. rewrite Hauth.
    change (Js.truthy (Some ("Bearer " ++ tok)%string)) with true.
    cbn [negb toString default from_option id].
    rewrite (split_space_bearer tok Htok).
    cbn [length Nat.eqb nth negb orb].
    change (String.eqb "Bearer" "Bearer") with true. cbn [negb].
    destruct (jwt_verify env tok (jwt_secret env)) as [decoded|name];
      [reflexivity|].
    destruct (String.eqb name "TokenExpiredError"); reflexivity. }
  split.
  - intros t Hdec Hkey Hexp.
    assert (Hserve : serve env s req
                     = (s, mkServed ErrorNormalizer
                             (Json 401 (api_error_body "Token has expired"
                                                       "TOKEN_EXPIRED")))).
    { rewrite Hrun. unfold jwt_verify. rewrite Hdec, Hkey, String.eqb_refl.
      cbn [negb]. apply Z.leb_le in Hexp. rewrite Hexp. reflexivity. }
    split; [exact Hserve|]. rewrite Hserve. discriminate.
  - intros name Hthrow Hname. rewrite Hrun, Hthrow.
    apply String.eqb_neq in Hname. rewrite Hname. reflexivity.
Qed.

(** What the login route answers when the lookup or the password fails:
    the validator's 400 when a field is blank, otherwise 500 when the
    database does not answer, otherwise the 401.  The store does not enter
    into it. *)
Definition login_refusal (env : Env) (req : Request) : Served :=
  match ((if blank (body req !! "username")
          then [mkFieldError "username" "Username is required"] else [])
         ++ (if blank (body req !! "password")
             then [mkFieldError "password" "Password is required"] else []))%list
  with
  | [] =>
      mkServed ErrorNormalizer
        match db_fault env with
        | Some _ => Json 500 (api_error_body "Error during login" "INTERNAL_ERROR")
        | None => Json 401 (api_error_body "Invalid username or password"
                                           "INVALID_CREDENTIALS")
        end
  | errs => mkServed RequestValidator (validation_failed errs)
  end.

Lemma login_refused (env : Env) (s : Store) (req : Request) :
  method req = POST -> path req = ["auth"; "login"] ->
  match user_named s (Js.trim (toString (body req !! "username"))) with
  | Some u => compare_password (Js.trim (toString (body req !! "password")))
                               (password u) = false
  | None => True
  end ->
  serve env s req = (s, login_refusal env req).
Proof.
  intros Hm Hp Hcred. unfold login_refusal, blank.
  rewrite serve_login by assumption.
  unfold login_stack, init_ctx. stack_step.
  assert (Hstep : forall (o : option string) (X : Store * Outcome),
             match o with Some _ | _ => X end = X) by (intros [?|] ?; reflexivity).
  rewrite !Hstep. unfold Validator.isEmpty. stack_step.
  rewrite lookup_insert_ne by discriminate.
  unfold validateRequest. stack_step.
  destruct (String.eqb (Js.trim (toString (body req !! "username"))) "");
    destruct (String.eqb (Js.trim (toString (body req !! "password"))) "");
    stack_step; try reflexivity.
  unfold login. stack_step.
  rewrite lookup_insert_ne, !lookup_insert_eq by discriminate. stack_step.
  unfold UserModel.findOne, db_guard.
  destruct (db_fault env); [reflexivity|].
  fold (user_named s (Js.trim (toString (body req !! "username")))).
  destruct (user_named s _) as [u|]; [|reflexivity].
  unfold UserModel.comparePassword. rewrite Hcred. reflexivity.
Qed.

(** The same request is answered alike by a store that knows the name but
    not the password and by a store that does not know the name, also when
    the request is malformed or the database does not answer. *)
Lemma login_refusal_hides_store
    (env : Env) (s1 s2 : Store) (req : Request) (u : User) :
  method req = POST -> path req = ["auth"; "login"] ->
  user_named s1 (Js.trim (toString (body req !! "username"))) = Some u ->
  compare_password (Js.trim (toString (body req !! "password"))) (password u) = false ->
  user_named s2 (Js.trim (toString (body req !! "username"))) = None ->
  snd (serve env s1 req) = snd (serve env s2 req).
Proof.
  intros Hm Hp Hknown Hwrong Hunknown.
  rewrite (login_refused env s1 req Hm Hp), (login_refused env s2 req Hm Hp).
  - reflexivity.
  - now rewrite Hunknown.
  - now rewrite Hknown.
Qed.

Lemma login_rejected (env : Env) (s : Store) (req : Request) :
  method req = POST -> path req = ["auth"; "login"] ->
  blank (body req !! "username") = false ->
  blank (body req !! "password") = false ->
  db_fault env = None ->
  match user_named s (Js.trim (toString (body req !! "username"))) with
  | Some u => compare_password (Js.trim (toString (body req !! "password")))
                               (password u) = false
  | None => True
  end ->
  serve env s req
  = (s, mkServed ErrorNormalizer
          (Json 401 (api_error_body "Invalid username or password"
                                    "INVALID_CREDENTIALS"))).
Proof.
  intros Hm Hp Hu Hpw Hdb Hcred.
  rewrite (login_refused env s req Hm Hp Hcred).
  unfold login_refusal. now rewrite Hu, Hpw, Hdb.
Qed.

(** C4 (amended): with the store reachable, a login that passes the
    validators of the route (username and password not blank) with an
    existing username and a wrong password, and one with a username that
    matches no user, are answered alike: 401, code INVALID_CREDENTIALS, the
    same message, the same body. *)
Theorem login_failures_indistinguishable
    (env1 env2 : Env) (s1 s2 : Store) (req1 req2 : Request) (u : User) :
  method req1 = POST -> path req1 = ["auth"; "login"] ->
  method req2 = POST -> path req2 = ["auth"; "login"] ->
  blank (body req1 !! "username") = false ->
  blank (body req1 !! "password") = false ->
  blank (body req2 !! "username") = false ->
  blank (body req2 !! "password") = false ->
  db_fault env1 = None -> db_fault env2 = None ->
  user_named s1 (Js.trim (toString (body req1 !! "username"))) = Some u ->
  compare_password (Js.trim (toString (body req1 !! "password"))) (password u) = false ->
  user_named s2 (Js.trim (toString (body req2 !! "username"))) = None ->
  snd (serve env1 s1 req1) = snd (serve env2 s2 req2) /\
  serve env1 s1 req1
  = (s1, mkServed ErrorNormalizer
           (Json 401 (api_error_body "Invalid username or password"
                                     "INVALID_CREDENTIALS"))) /\
  serve env2 s2 req2
  = (s2, mkServed ErrorNormalizer
           (Json 401 (api_error_body "Invalid username or password"
                                     "INVALID_CREDENTIALS"))).
Proof.
  intros Hm1 Hp1 Hm2 Hp2 Hu1 Hw1 Hu2 Hw2 Hdb1 Hdb2 Hknown Hwrong Hunknown.
  assert (H1 := login_rejected env1 s1 req1 Hm1 Hp1 Hu1 Hw1 Hdb1).
  assert (H2 := login_rejected env2 s2 req2 Hm2 Hp2 Hu2 Hw2 Hdb2).
  rewrite Hknown in H1. rewrite Hunknown in H2.
  rewrite (H1 Hwrong), (H2 I). repeat split; reflexivity.
Qed.

End Auth.

(** C4 as stated: the two kinds of failed login are answered alike, with
    401 INVALID_CREDENTIALS, whatever the submitted fields are. *)
Definition login_failures_always_401 : Prop :=
  forall (C : Collaborators) (env1 env2 : Env) (s1 s2 : Store) (req1 req2 : Request)
         (u : User),
    method req1 = POST -> path req1 = ["auth"; "login"] ->
    method req2 = POST -> path req2 = ["auth"; "login"] ->
    db_fault env1 = None -> db_fault env2 = None ->
    user_named s1 (Js.trim (toString (body req1 !! "username"))) = Some u ->
    compare_password (Js.trim (toString (body req1 !! "password"))) (password u) = false ->
    user_named s2 (Js.trim (toString (body req2 !! "username"))) = None ->
    snd (serve env1 s1 req1) = snd (serve env2 s2 req2) /\
    serve env1 s1 req1
    = (s1, mkServed ErrorNormalizer
             (Json 401 (api_error_body "Invalid username or password"
                                       "INVALID_CREDENTIALS"))) /\
    serve env2 s2 req2
    = (s2, mkServed ErrorNormalizer
             (Json 401 (api_error_body "Invalid username or password"
                                       "INVALID_CREDENTIALS"))).

(** C4, as stated, fails: a login as an existing user with a password of
    one space, which is not her password, is answered 400 VALIDATION_ERROR
    by the request validator, while a login under an unknown name with a
    password that is not blank is answered 401. *)
Lemma login_blank_password_counterexample :
  serve (C := Demo.collaborators) Demo.env Demo.store_with_alice
        (Demo.request POST ["auth"; "login"] None
           (<["username" := "alice"]> (<["password" := " "]> ∅)))
  = (Demo.store_with_alice,
     mkServed RequestValidator
       (Json 400 (validation_body [field_entry "password" "Password is required"]))) /\
  serve (C := Demo.collaborators) Demo.env Demo.store_with_alice
        (Demo.request POST ["auth"; "login"] None
           (<["username" := "mallory"]> (<["password" := "guess"]> ∅)))
  = (Demo.store_with_alice,
     mkServed ErrorNormalizer
       (Json 401 (api_error_body "Invalid username or password"
                                 "INVALID_CREDENTIALS"))) /\
  ~ login_failures_always_401.
Proof.
  split; [reflexivity|]. split; [reflexivity|].
  intros Hall.
  destruct (Hall Demo.collaborators Demo.env Demo.env Demo.store_with_alice
                 Demo.store_with_alice
                 (Demo.request POST ["auth"; "login"] None
                    (<["username" := "alice"]> (<["password" := " "]> ∅)))
                 (Demo.request POST ["auth"; "login"] None
                    (<["username" := "mallory"]> (<["password" := "guess"]> ∅)))
                 (mkUser "aaaaaaaaaaaaaaaaaaaaaaaa" "alice" "hash:wonderland" "user"
                         1000 1000))
    as (_ & H401 & _); try reflexivity.
  vm_compute in H401. discriminate H401.
Qed.

(** ** What every request preserves, and who sends what *)

(** The credential store only grows. *)
Definition users_extend (s s' : Store) : Prop :=
  exists extra, users s' = (users s ++ extra)%list.

Lemma users_extend_refl (s : Store) : users_extend s s.
Proof. exists []. now rewrite app_nil_r. Qed.

Lemma users_extend_trans (s1 s2 s3 : Store) :
  users_extend s1 s2 -> users_extend s2 s3 -> users_extend s1 s3.
Proof.
  intros [e1 H1] [e2 H2]. exists (e1 ++ e2)%list. now rewrite H2, H1, app_assoc.
Qed.

Lemma users_extend_same (s s' : Store) : users s' = users s -> users_extend s s'.
Proof. intros Heq. exists []. now rewrite app_nil_r. Qed.

(** What a stage may send: the request validator sends its 400 for a
    non-empty list of field errors; handlers and the documentation send
    success answers; the validation chains, the token verifier and the
    not-found handler send nothing themselves. *)
Definition sends (st : Stage) (r : Response) : Prop :=
  match st with
  | RequestValidator => exists errs, errs <> [] /\ r = validation_failed errs
  | ResourceHandler | DocsMiddleware | Frontend | FinalHandler =>
      is_error_response r = false
  | ValidationChainStage | TokenVerifier | NotFoundStage | ErrorNormalizer => False
  end.

Definition mw_inv (p : Stage * Middleware) : Prop :=
  forall env s c s' o,
    snd p env s c = (s', o) ->
    users_extend s s' /\ (forall r, o = Send r -> sends (fst p) r).

Definition result_inv (s s' : Store) (res : Result) : Prop :=
  users_extend s s' /\ (forall st r, res = Done st r -> sends st r).

Lemma run_stack_inv (stack : list (Stage * Middleware)) :
  Forall mw_inv stack ->
  forall env s c s' res, run_stack stack env s c = (s', res) -> result_inv s s' res.
Proof.
  induction 1 as [|[st m] stack Hm _ IH]; intros env s c s' res Hrun; simpl in Hrun.
  - injection Hrun as <- <-. split; [apply users_extend_refl | discriminate].
  - destruct (m env s c) as [s1 [c1|e|r]] eqn:E; destruct (Hm _ _ _ _ _ E) as [Hu Hs].
    + destruct (IH _ _ _ _ _ Hrun) as [Hu' Hs'].
      split; [exact (users_extend_trans _ _ _ Hu Hu') | exact Hs'].
    + injection Hrun as <- <-. split; [exact Hu | discriminate].
    + injection Hrun as <- <-. split; [exact Hu|].
      intros st' r' Hd. injection Hd as <- <-. now apply Hs.
Qed.

Definition route_inv {C : Collaborators} (r : Route) : Prop := Forall mw_inv (r_stack r).

Lemma dispatch_inv {C : Collaborators} (routes : list Route) :
  Forall route_inv routes ->
  forall segs env s c s' res,
    dispatch routes segs env s c = (s', res) -> result_inv s s' res.
Proof.
  induction 1 as [|r routes Hr _ IH]; intros segs env s c s' res Hrun; simpl in Hrun.
  - injection Hrun as <- <-. split; [apply users_extend_refl | discriminate].
  - destruct (Method_eqb (r_method r) (method (ctx_req c))); [|now apply (IH _ _ _ _ _ _ Hrun)].
    destruct (match_path (r_pattern r) segs) as [params|]; [|now apply (IH _ _ _ _ _ _ Hrun)].
    destruct (run_stack (r_stack r) env s (set_params params c)) as [s1 res1] eqn:E.
    destruct (run_stack_inv _ Hr _ _ _ _ _ E) as [Hu Hs].
    destruct res1 as [st r1|e|c1].
    + injection Hrun as <- <-. split; [exact Hu | exact Hs].
    + injection Hrun as <- <-. split; [exact Hu | discriminate].
    + destruct (IH _ _ _ _ _ _ Hrun) as [Hu' Hs'].
      split; [exact (users_extend_trans _ _ _ Hu Hu') | exact Hs'].
Qed.

Lemma ItemModel_create_users (env : Env) (s s' : Store) (t c u : option string) (d : Item) :
  ItemModel.create env s t c u = Returns (s', d) -> users s' = users s.
Proof.
  unfold ItemModel.create, db_guard. intros Hc.
  repeat match type of Hc with
         | context [match ?x with _ => _ end] => destruct x
         end; try discriminate.
  now injection Hc as <- _.
Qed.

Lemma ItemModel_update_users (env : Env) (s s' : Store) (id : string)
    (t c : option string) (r : option Item) :
  ItemModel.findByIdAndUpdate env s id t c = Returns (s', r) -> users s' = users s.
Proof.
  unfold ItemModel.findByIdAndUpdate, db_guard. intros Hc.
  repeat match type of Hc with
         | context [match ?x with _ => _ end] => destruct x
         end; try discriminate.
  now injection Hc as <- _.
Qed.

Lemma ItemModel_delete_users (env : Env) (s s' : Store) (id : string) (r : option Item) :
  ItemModel.findByIdAndDelete env s id = Returns (s', r) -> users s' = users s.
Proof.
  unfold ItemModel.findByIdAndDelete, db_guard. intros Hc.
  repeat match type of Hc with
         | context [match ?x with _ => _ end] => destruct x
         end; try discriminate.
  now injection Hc as <- _.
Qed.

Lemma UserModel_create_users {C : Collaborators} (env : Env) (s s' : Store)
    (uname pw : option string) (u : User) :
  UserModel.create env s uname pw = Returns (s', u) ->
  users s' = (users s ++ [u])%list /\ username u = toString uname.
Proof.
  unfold UserModel.create, db_guard. intros Hc.
  repeat match type of Hc with
         | context [match ?x with _ => _ end] => destruct x
         end; try discriminate.
  injection Hc as <- <-. split; reflexivity.
Qed.

Create HintDb mw.

Ltac split_outcome Hrun :=
  repeat match type of Hrun with
         | context [match ?x with _ => _ end] => destruct x eqn:?
         end;
  injection Hrun as <- <-.

Ltac read_only_inv :=
  intros env s c s' o Hrun; cbn [fst snd] in *;
  split_outcome Hrun;
  (split; [apply users_extend_refl | intros r Hr; inversion Hr; reflexivity]).

Section Stages.

Context {C : Collaborators}.

Lemma chain_inv (vc : ValidationChain) : mw_inv (chain vc).
Proof.
  intros env s c s' o Hrun. unfold chain, run_chain in Hrun. cbn [fst snd] in *.
  split_outcome Hrun; (split; [apply users_extend_refl | discriminate]).
Qed.

Lemma validate_inv : mw_inv validate.
Proof.
  intros env s c s' o Hrun. unfold validate, validateRequest in Hrun.
  cbn [fst snd] in *.
  destruct (ctx_errors c) as [|e es] eqn:E; injection Hrun as <- <-;
    (split; [apply users_extend_refl|]); intros r Hr; [discriminate|].
  injection Hr as <-. exists (e :: es). split; [discriminate | reflexivity].
Qed.

Lemma authenticateJWT_inv : mw_inv (TokenVerifier, authenticateJWT).
Proof.
  intros env s c s' o Hrun. unfold authenticateJWT in Hrun. cbn [fst snd] in *.
  split_outcome Hrun; (split; [apply users_extend_refl | discriminate]).
Qed.

Lemma notFoundHandler_inv : mw_inv (NotFoundStage, notFoundHandler).
Proof.
  intros env s c s' o Hrun. unfold notFoundHandler in Hrun. cbn [fst snd] in *.
  injection Hrun as <- <-. split; [apply users_extend_refl | discriminate].
Qed.

Lemma docs_inv (segs : list string) : mw_inv (DocsMiddleware, docs segs).
Proof. unfold docs. read_only_inv. Qed.

Lemma list_items_inv : mw_inv (handler list_items).
Proof. unfold handler, list_items. read_only_inv. Qed.

Lemma get_item_inv : mw_inv (handler get_item).
Proof. unfold handler, get_item. read_only_inv. Qed.

Lemma search_items_inv : mw_inv (handler search_items).
Proof. unfold handler, search_items. read_only_inv. Qed.

Lemma login_inv : mw_inv (handler login).
Proof. unfold handler, login. read_only_inv. Qed.

Lemma me_inv : mw_inv (handler me).
Proof. unfold handler, me. read_only_inv. Qed.

Lemma status_inv : mw_inv (handler status).
Proof. unfold handler, status. read_only_inv. Qed.

Lemma echo_inv : mw_inv (handler echo).
Proof. unfold handler, echo. read_only_inv. Qed.

Lemma data_inv : mw_inv (handler data).
Proof. unfold handler, data. read_only_inv. Qed.

Lemma random_inv : mw_inv (handler random).
Proof. unfold handler, random. read_only_inv. Qed.

Lemma legacy_search_inv : mw_inv (handler legacy_search).
Proof. unfold handler, legacy_search. read_only_inv. Qed.

Lemma create_item_inv : mw_inv (handler create_item).
Proof.
  intros env s c s' o Hrun. unfold handler, create_item in Hrun. cbn [fst snd] in *.
  destruct (ItemModel.create _ _ _ _ _) as [[s1 d]|e] eqn:E; injection Hrun as <- <-.
  - split; [apply users_extend_same, (ItemModel_create_users _ _ _ _ _ _ _ E)|].
    intros r Hr. injection Hr as <-. reflexivity.
  - split; [apply users_extend_refl | discriminate].
Qed.

Lemma update_item_inv : mw_inv (handler update_item).
Proof.
  intros env s c s' o Hrun. unfold handler, update_item in Hrun. cbn [fst snd] in *.
  destruct (ItemModel.findByIdAndUpdate _ _ _ _ _) as [[s1 [d|]]|e] eqn:E;
    injection Hrun as <- <-.
  - split; [apply users_extend_same, (ItemModel_update_users _ _ _ _ _ _ _ E)|].
    intros r Hr. injection Hr as <-. reflexivity.
  - split; [apply users_extend_same, (ItemModel_update_users _ _ _ _ _ _ _ E)|].
    discriminate.
  - split; [apply users_extend_refl | discriminate].
Qed.

Lemma delete_item_inv : mw_inv (handler delete_item).
Proof.
  intros env s c s' o Hrun. unfold handler, delete_item in Hrun. cbn [fst snd] in *.
  destruct (ItemModel.findByIdAndDelete _ _ _) as [[s1 [d|]]|e] eqn:E;
    injection Hrun as <- <-.
  - split; [apply users_extend_same, (ItemModel_delete_users _ _ _ _ _ E)|].
    intros r Hr. injection Hr as <-. reflexivity.
  - split; [apply users_extend_same, (ItemModel_delete_users _ _ _ _ _ E)|].
    discriminate.
  - split; [apply users_extend_refl | discriminate].
Qed.

Lemma register_inv : mw_inv (handler register).
Proof.
  intros env s c s' o Hrun. unfold handler, register in Hrun. cbn [fst snd] in *.
  destruct (UserModel.create _ _ _ _) as [[s1 u]|e] eqn:E; injection Hrun as <- <-.
  - split; [exists [u]; apply (UserModel_create_users _ _ _ _ _ _ E)|].
    intros r Hr. injection Hr as <-. reflexivity.
  - split; [apply users_extend_refl | discriminate].
Qed.

Hint Resolve chain_inv validate_inv authenticateJWT_inv notFoundHandler_inv docs_inv
  list_items_inv get_item_inv search_items_inv login_inv me_inv status_inv echo_inv
  data_inv random_inv legacy_search_inv create_item_inv update_item_inv
  delete_item_inv register_inv : mw.

Lemma item_routes_inv : Forall route_inv item_routes.
Proof.
  unfold item_routes, route_inv, get_item_stack, create_item_stack, update_item_stack,
    delete_item_stack, search_items_stack.
  repeat first [apply List.Forall_nil | apply List.Forall_cons
               | progress cbn [r_stack]]; auto with mw.
Qed.

Lemma auth_routes_inv : Forall route_inv auth_routes.
Proof.
  unfold auth_routes, route_inv, register_stack, login_stack, me_stack.
  repeat first [apply List.Forall_nil | apply List.Forall_cons
               | progress cbn [r_stack]]; auto with mw.
Qed.

Lemma status_routes_inv : Forall route_inv status_routes.
Proof.
  unfold status_routes, route_inv, echo_stack.
  repeat first [apply List.Forall_nil | apply List.Forall_cons
               | progress cbn [r_stack]]; auto with mw.
Qed.

Lemma mount_inv (prefix : option string) (routes : list Route) :
  Forall route_inv routes ->
  forall segs env s c s' res,
    mount prefix routes segs env s c = (s', res) -> result_inv s s' res.
Proof.
  intros Hr segs env s c s' res Hrun. unfold mount in Hrun.
  destruct prefix as [p|]; [|exact (dispatch_inv _ Hr _ _ _ _ _ _ Hrun)].
  destruct segs as [|seg below];
    [injection Hrun as <- <-; split; [apply users_extend_refl | discriminate]|].
  destruct (String.eqb _ _); [exact (dispatch_inv _ Hr _ _ _ _ _ _ Hrun)|].
  injection Hrun as <- <-. split; [apply users_extend_refl | discriminate].
Qed.

Lemma result_inv_step (s s1 s' : Store) (res : Result) :
  users_extend s s1 -> result_inv s1 s' res -> result_inv s s' res.
Proof.
  intros Hu [Hu' Hs]. split; [exact (users_extend_trans _ _ _ Hu Hu') | exact Hs].
Qed.

Lemma app_stack_inv (segs : list string) (env : Env) (s s' : Store) (c : Ctx)
    (res : Result) :
  app_stack segs env s c = (s', res) -> result_inv s s' res.
Proof.
  unfold app_stack, api_router. intros Hrun.
  destruct (mount (Some "items") item_routes segs env s c) as [s1 r1] eqn:E1.
  pose proof (mount_inv _ _ item_routes_inv _ _ _ _ _ _ E1) as H1.
  destruct r1 as [st r|e|c1]; try (injection Hrun as <- <-; exact H1).
  destruct (mount (Some "auth") auth_routes segs env s1 c1) as [s2 r2] eqn:E2.
  pose proof (mount_inv _ _ auth_routes_inv _ _ _ _ _ _ E2) as H2.
  apply (result_inv_step _ _ _ _ (proj1 H1)).
  destruct r2 as [st r|e|c2]; try (injection Hrun as <- <-; exact H2).
  destruct (mount None status_routes segs env s2 c2) as [s3 r3] eqn:E3.
  pose proof (mount_inv _ _ status_routes_inv _ _ _ _ _ _ E3) as H3.
  apply (result_inv_step _ _ _ _ (proj1 H2)).
  destruct r3 as [st r|e|c3]; try (injection Hrun as <- <-; exact H3).
  apply (result_inv_step _ _ _ _ (proj1 H3)).
  eapply run_stack_inv; [|exact Hrun].
  destruct segs; repeat first [apply List.Forall_nil | apply List.Forall_cons];
    first [apply docs_inv | apply notFoundHandler_inv].
Qed.

(** Every request leaves the users it found in place, and its answer comes
    from the error normalizer, applied to the error that was forwarded, or
    from a stage that is entitled to it. *)
Lemma serve_inv (env : Env) (s s' : Store) (req : Request) (served : Served) :
  serve env s req = (s', served) ->
  users_extend s s' /\
  match writer served with
  | ErrorNormalizer => exists e, response served = errorHandler env e
  | st => sends st (response served)
  end.
Proof.
  unfold serve. intros Hserve.
  destruct (app_stack (path req) env s (init_ctx req)) as [s1 res] eqn:E.
  destruct (app_stack_inv _ _ _ _ _ _ E) as [Hu Hs].
  destruct res as [st r|e|c1]; cbn [respond] in Hserve;
    [| |destruct (Method_eqb (method (ctx_req c1)) GET)]; injection Hserve as <- <-.
  - split; [exact Hu|]. cbn [writer response].
    specialize (Hs st r eq_refl). destruct st; try exact Hs. destruct Hs.
  - split; [exact Hu|]. cbn [writer response]. now exists e.
  - split; [exact Hu | reflexivity].
  - split; [exact Hu | reflexivity].
Qed.

End Stages.

(** ** The error envelope has two writers *)

(** C2 as stated: whenever a request is answered with an error, the
    answer was sent by the error normalizer. *)
Definition errors_only_from_normalizer : Prop :=
  forall (C : Collaborators) (env : Env) (s : Store) (req : Request),
    is_error_response (response (snd (serve env s req))) = true ->
    writer (snd (serve env s req)) = ErrorNormalizer.

(** C2, as stated, fails: a create request without a body is answered
    with 400 VALIDATION_ERROR by the request validator itself. *)
Lemma errors_only_from_normalizer_counterexample :
  serve (C := Demo.collaborators) Demo.env Demo.empty_store
        (Demo.request POST ["items"] None ∅)
  = (Demo.empty_store,
     mkServed RequestValidator
       (Json 400 (validation_body [field_entry "title" "Title is required";
                                   field_entry "content" "Content is required"]))) /\
  ~ errors_only_from_normalizer.
Proof.
  split; [reflexivity|].
  intros Hall.
  specialize (Hall Demo.collaborators Demo.env Demo.empty_store
                   (Demo.request POST ["items"] None ∅) eq_refl).
  discriminate Hall.
Qed.

Section Envelope.

Context {C : Collaborators}.

(** C2 (amended): an error answer is sent either by the error
    normalizer, applied to the error that was forwarded to it, or by the
    request validator, which answers a failed validation itself with 400
    VALIDATION_ERROR and the field errors; no route handler sends one. *)
Theorem error_responses_have_two_writers
    (env : Env) (s : Store) (req : Request) :
  is_error_response (response (snd (serve env s req))) = true ->
  (writer (snd (serve env s req)) = ErrorNormalizer /\
   exists e, response (snd (serve env s req)) = errorHandler env e) \/
  (writer (snd (serve env s req)) = RequestValidator /\
   exists errs, errs <> [] /\
                response (snd (serve env s req)) = validation_failed errs).
Proof.
  destruct (serve env s req) as [s' served] eqn:E. cbn [snd]. intros Herr.
  destruct (serve_inv _ _ _ _ _ E) as [_ Hw].
  destruct (writer served); cbn [sends] in Hw;
    try (exfalso; exact Hw); try congruence.
  - right. split; [reflexivity | exact Hw].
  - left. split; [reflexivity | exact Hw].
Qed.

End Envelope.

(** ** Registration *)

Section Registration.

Context {C : Collaborators}.

Lemma user_named_extend (s s' : Store) (name : string) (u : User) :
  users_extend s s' -> user_named s name = Some u -> user_named s' name = Some u.
Proof.
  intros [extra Hext]. unfold user_named. rewrite Hext. clear Hext.
  induction (users s) as [|v l IH]; simpl; [discriminate|].
  destruct (String.eqb (username v) name); [trivial | exact IH].
Qed.

Lemma user_named_appended (l : list User) (items0 : list Item) (u : User) :
  exists v, user_named (mkStore items0 (l ++ [u])) (username u) = Some v.
Proof.
  unfold user_named. cbn [users]. induction l as [|w l IH]; simpl.
  - rewrite String.eqb_refl. now exists u.
  - destruct (String.eqb (username w) (username u)); [now exists w | exact IH].
Qed.

Lemma run_requests_extend (reqs : list (Env * Request)) (s : Store) :
  users_extend s (run_requests reqs s).
Proof.
  revert s. induction reqs as [|[env req] reqs IH]; intros s; simpl.
  - apply users_extend_refl.
  - destruct (serve env s req) as [s1 served] eqn:E.
    destruct (serve_inv _ _ _ _ _ E) as [Hu _].
    exact (users_extend_trans _ _ _ Hu (IH s1)).
Qed.

(** The uniqueness check fails whenever the name is taken, whether or not
    the lookup itself succeeds. *)
Lemma username_taken (env : Env) (s : Store) (name : string) (u : User) :
  user_named s name = Some u -> exists msg, username_is_free env s name = Some msg.
Proof.
  intros Hu. unfold username_is_free, UserModel.findOne, db_guard.
  destruct (db_fault env) as [msg|]; [now exists msg|].
  fold (user_named s name). rewrite Hu. now eexists.
Qed.

(** A 201 answer of the register route means the name is now taken. *)
Lemma register_success (env : Env) (s : Store) (req : Request) :
  method req = POST -> path req = ["auth"; "register"] ->
  let '(s', served) := serve env s req in
  status_of (response served) = 201%nat ->
  exists u, user_named s' (Js.trim (toString (body req !! "username"))) = Some u.
Proof.
  intros Hm Hp.
  rewrite serve_register by assumption.
  unfold register_stack, init_ctx. stack_step.
  assert (Hstep : forall (o : option string) (X : Store * Outcome),
             match o with Some _ | _ => X end = X) by (intros [?|] ?; reflexivity).
  rewrite !Hstep. stack_step. rewrite lookup_insert_ne by discriminate.
  unfold validateRequest. stack_step.
  match goal with
  | |- context [match ?l with [] => _ | _ :: _ => _ end] =>
      destruct l; stack_step; [|intros Hst; discriminate Hst]
  end.
  unfold register. stack_step.
  rewrite lookup_insert_ne, !lookup_insert_eq by discriminate.
  destruct (UserModel.create _ _ _ _) as [[s1 u]|e] eqn:E; stack_step;
    [|intros Hst; discriminate Hst].
  intros _. destruct (UserModel_create_users _ _ _ _ _ _ E) as [Husers Hname].
  destruct s1 as [its us]. cbn [users] in Husers. subst us.
  cbn [toString default from_option id] in Hname. rewrite <- Hname.
  apply user_named_appended.
Qed.

(** C5: once a registration has succeeded, a later registration with the
    same username is answered by the request validator with 400
    VALIDATION_ERROR and an entry for [username], whatever its password and
    whatever happened in between, and it leaves the store as it found it. *)
Theorem duplicate_username_rejected
    (env1 env2 : Env) (s0 s1 : Store) (req1 req2 : Request) (served1 : Served)
    (between : list (Env * Request)) :
  method req1 = POST -> path req1 = ["auth"; "register"] ->
  serve env1 s0 req1 = (s1, served1) -> status_of (response served1) = 201%nat ->
  method req2 = POST -> path req2 = ["auth"; "register"] ->
  Js.trim (toString (body req2 !! "username"))
  = Js.trim (toString (body req1 !! "username")) ->
  exists details msg,
    serve env2 (run_requests between s1) req2
    = (run_requests between s1,
       mkServed RequestValidator (Json 400 (validation_body details))) /\
    In (field_entry "username" msg) details.
Proof.
  intros Hm1 Hp1 Hserve Hst Hm2 Hp2 Hsame.
  pose proof (register_success env1 s0 req1 Hm1 Hp1) as Hreg.
  rewrite Hserve in Hreg. destruct (Hreg Hst) as [u Hu]. clear Hreg.
  rewrite <- Hsame in Hu.
  apply (user_named_extend _ _ _ _ (run_requests_extend between s1)) in Hu.
  destruct (username_taken env2 _ _ _ Hu) as [msg Hmsg].
  set (s2 := run_requests between s1) in *.
  rewrite serve_register by assumption.
  unfold register_stack, init_ctx. stack_step.
  assert (Hstep : forall (o : option string) (X : Store * Outcome),
             match o with Some _ | _ => X end = X) by (intros [?|] ?; reflexivity).
  rewrite !Hstep. stack_step. rewrite Hmsg.
  unfold validateRequest, add_errors. cbn [ctx_errors].
  match goal with
  | |- context [match ?l with [] => _ | _ :: _ => _ end] =>
      destruct l as [|f l'] eqn:El
  end.
  - exfalso.
    apply app_eq_nil in El as [El _].
    apply app_eq_nil in El as [_ El].
    apply app_eq_nil in El as [_ El].
    discriminate El.
  - cbn [respond].
    exists (map (fun e => field_entry (fe_path e) (fe_msg e)) (f :: l')), msg.
    split; [reflexivity|].
    apply in_map_iff. exists (mkFieldError "username" msg). split; [reflexivity|].
    rewrite <- El.
    apply in_or_app. left. apply in_or_app. right. apply in_or_app. right.
    now left.
Qed.

End Registration.

(** ** The search handler, taken on its own

    The item router never dispatches to it; these lemmas record what the
    handler computes when it is run. *)

Lemma ceil_div_pages (total limit : Z) :
  0 < limit -> ceil_div total limit = (total + limit - 1) / limit.
Proof.
  intros Hl. unfold ceil_div.
  assert (Hmod := Z.mod_pos_bound (- total) limit Hl).
  assert (Hdiv := Z.div_mod (- total) limit ltac:(lia)).
  apply (Z.div_unique_pos _ _ _ (limit - 1 - (- total) mod limit)); [lia|].
  rewrite Z.mul_opp_r. lia.
Qed.

(** With ten items per page, page two has a successor exactly when there
    are more than twenty items. *)
Lemma second_page_has_next (total : Z) :
  (2 <? ceil_div total 10) = (20 <? total).
Proof.
  rewrite ceil_div_pages by lia.
  destruct (20 <? total) eqn:E.
  - apply Z.ltb_lt in E. apply Z.ltb_lt.
    assert (3 <= (total + 10 - 1) / 10) by (apply Z.div_le_lower_bound; lia). lia.
  - apply Z.ltb_ge in E. apply Z.ltb_ge.
    assert ((total + 10 - 1) / 10 < 3) by (apply Z.div_lt_upper_bound; lia). lia.
Qed.

Section SearchHandler.

Context {C : Collaborators}.

(** Run on [page=2&limit=10] without a text query, the handler lists the
    eleventh to twentieth item, newest first, and reports the page count,
    a previous page, and a next page when more than twenty items exist. *)
Lemma search_items_second_page (env : Env) (s : Store) (c : Ctx) :
  db_fault env = None ->
  ctx_query c !! "q" = None ->
  ctx_query c !! "page" = Some "2" -> ctx_query c !! "limit" = Some "10" ->
  let total := Z.of_nat (length (items s)) in
  search_items env s c
  = (s, Send (Json 200 (JObj
       [("success", JBool true);
        ("results",
         JArr (map item_json (firstn 10 (skipn 10 (sort_newest (items s))))));
        ("pagination",
         JObj [("total", JNum total); ("page", JNum 2); ("limit", JNum 10);
               ("pages", JNum (ceil_div total 10));
               ("hasNextPage", JBool (20 <? total));
               ("hasPrevPage", JBool true)])]))).
Proof.
  intros Hdb Hq Hpage Hlimit total.
  unfold search_items, ItemModel.find, ItemModel.countDocuments, db_guard, paginate.
  rewrite Hq, Hpage, Hlimit, Hdb. cbn [Js.truthy].
  change (parseInt_or (Some "2") 1) with (Js.Finite 2).
  change (parseInt_or (Some "10") 10) with (Js.Finite 10).
  change (Js.mul (Js.sub (Js.Finite 2) (Js.Finite 1)) (Js.Finite 10))
    with (Js.Finite 10).
  change ((10 <? 0) || (2 ^ 63 <=? 10) || (2 ^ 63 <=? Z.abs 10)) with false.
  cbv beta iota.
  assert (Hall : List.filter (fun _ : Item => true) (items s) = items s).
  { induction (items s) as [|i l IH]; [reflexivity|]. cbn. now rewrite IH. }
  rewrite Hall. fold total.
  change (pages_of total (Js.Finite 10)) with (Js.Finite (ceil_div total 10)).
  cbn [json_of_number Js.ltb].
  rewrite second_page_has_next. reflexivity.
Qed.

End SearchHandler.

(** ** Concrete runs *)

Module Runs.

Import Demo.

Definition create_request (auth : option string) (t c : string) : Request :=
  request POST ["items"] auth (<["title" := t]> (<["content" := c]> ∅)).

Definition credentials (u p : string) : gmap string string :=
  <["username" := u]> (<["password" := p]> ∅).

(** A create request without a body is answered by the request validator. *)
Lemma error_responses_have_two_writers_run :
  is_error_response
    (response (snd (serve (C := collaborators) env empty_store
                          (request POST ["items"] None ∅)))) = true /\
  ((writer (snd (serve (C := collaborators) env empty_store
                       (request POST ["items"] None ∅))) = ErrorNormalizer /\
    exists e, response (snd (serve (C := collaborators) env empty_store
                                   (request POST ["items"] None ∅)))
              = errorHandler env e) \/
   (writer (snd (serve (C := collaborators) env empty_store
                       (request POST ["items"] None ∅))) = RequestValidator /\
    exists errs, errs <> [] /\
                 response (snd (serve (C := collaborators) env empty_store
                                      (request POST ["items"] None ∅)))
                 = validation_failed errs)).
Proof.
  split; [reflexivity|].
  apply (error_responses_have_two_writers (C := collaborators) env empty_store
           (request POST ["items"] None ∅)).
  reflexivity.
Defined.

(** An expired token of alice, and a token signed with another key. *)
Lemma expired_token_is_token_expired_run :
  serve (C := collaborators) env store_with_alice
        (request GET ["auth"; "me"] (Some "Bearer expired-token") ∅)
  = (store_with_alice,
     mkServed ErrorNormalizer
       (Json 401 (api_error_body "Token has expired" "TOKEN_EXPIRED"))) /\
  serve (C := collaborators) env store_with_alice
        (request GET ["auth"; "me"] (Some "Bearer forged-token") ∅)
  = (store_with_alice,
     mkServed ErrorNormalizer
       (Json 401 (api_error_body "Invalid token" "INVALID_TOKEN"))).
Proof.
  split.
  - apply (proj1 (expired_token_is_token_expired (C := collaborators)
                    env store_with_alice
                    (request GET ["auth"; "me"] (Some "Bearer expired-token") ∅)
                    "expired-token" eq_refl eq_refl eq_refl eq_refl)
                 (mkSignedToken alice secret)).
    + reflexivity.
    + reflexivity.
    + vm_compute. discriminate.
  - apply (proj2 (expired_token_is_token_expired (C := collaborators)
                    env store_with_alice
                    (request GET ["auth"; "me"] (Some "Bearer forged-token") ∅)
                    "forged-token" eq_refl eq_refl eq_refl eq_refl)
                 "JsonWebTokenError").
    + reflexivity.
    + discriminate.
Defined.

(** alice with a wrong password, and mallory, whom the store does not
    know. *)
Lemma login_failures_indistinguishable_run :
  snd (serve (C := collaborators) env store_with_alice
             (request POST ["auth"; "login"] None (credentials "alice" "guess")))
  = snd (serve (C := collaborators) env store_with_alice
               (request POST ["auth"; "login"] None (credentials "mallory" "guess"))).
Proof.
  apply (login_failures_indistinguishable (C := collaborators)
           env env store_with_alice store_with_alice
           (request POST ["auth"; "login"] None (credentials "alice" "guess"))
           (request POST ["auth"; "login"] None (credentials "mallory" "guess"))
           (mkUser "aaaaaaaaaaaaaaaaaaaaaaaa" "alice" "hash:wonderland" "user" 1000 1000));
    reflexivity.
Defined.

(** bob registers; a second registration as bob with a password that is
    too short is refused for the username. *)
Lemma duplicate_username_rejected_run :
  exists details msg,
    serve (C := collaborators) env
          (fst (serve (C := collaborators) env empty_store
                      (request POST ["auth"; "register"] None
                               (credentials "bob" "secret1"))))
          (request POST ["auth"; "register"] None (credentials " bob" "x"))
    = (fst (serve (C := collaborators) env empty_store
                  (request POST ["auth"; "register"] None
                           (credentials "bob" "secret1"))),
       mkServed RequestValidator (Json 400 (validation_body details))) /\
    In (field_entry "username" msg) details.
Proof.
  apply (duplicate_username_rejected (C := collaborators) env env empty_store
           (fst (serve (C := collaborators) env empty_store
                       (request POST ["auth"; "register"] None
                                (credentials "bob" "secret1"))))
           (request POST ["auth"; "register"] None (credentials "bob" "secret1"))
           (request POST ["auth"; "register"] None (credentials " bob" "x"))
           (snd (serve (C := collaborators) env empty_store
                       (request POST ["auth"; "register"] None
                                (credentials "bob" "secret1"))))
           []);
    reflexivity.
Defined.


(** Create with fields padded by a no-break space and by spaces, then get
    by the assigned id. *)
Lemma create_then_get_returns_trimmed_run :
  serve (C := collaborators) env
        (fst (serve (C := collaborators) env empty_store
                    (create_request None (nbsp ++ " T") "C ")))
        (request GET ["items"; next_oid env] None ∅)
  = (fst (serve (C := collaborators) env empty_store
                (create_request None (nbsp ++ " T") "C ")),
     mkServed ResourceHandler
       (Json 200 (JObj [("success", JBool true);
                        ("item",
                         item_json (mkItem (next_oid env) "T" "C" None
                                           (now env) (now env)))]))).
Proof.
  exact (proj2 (create_then_get_returns_trimmed (C := collaborators) env env empty_store
           (fst (serve (C := collaborators) env empty_store
                       (create_request None (nbsp ++ " T") "C ")))
           (create_request None (nbsp ++ " T") "C ")
           (request GET ["items"; next_oid env] None ∅) (nbsp ++ " T") "C "
           (snd (serve (C := collaborators) env empty_store
                       (create_request None (nbsp ++ " T") "C ")))
           eq_refl eq_refl eq_refl eq_refl eq_refl eq_refl eq_refl eq_refl eq_refl
           eq_refl)).
Defined.

(** A create request that carries alice's valid token stores an item
    without owner. *)
Lemma create_item_records_no_owner_run :
  jwt_verify (C := collaborators) env "fresh-token" (jwt_secret env)
  = JwtOk (mkClaims "aaaaaaaaaaaaaaaaaaaaaaaa" "alice" "user" 5000 91400) /\
  items (fst (serve (C := collaborators) env empty_store
                    (create_request (Some "Bearer fresh-token") "T" "C")))
  = [mkItem (next_oid env) "T" "C" None (now env) (now env)] /\
  let '(s', served) :=
    serve (C := collaborators) env empty_store
          (create_request (Some "Bearer fresh-token") "T" "C") in
  ~ In TokenVerifier (map fst create_item_stack) /\
  users s' = users empty_store /\
  (items s' = items empty_store \/
   exists it, items s' = (items empty_store ++ [it])%list /\ user it = None /\
              jget "user" (item_json it) = None /\
              response served
              = Json 201 (JObj [("success", JBool true);
                                ("message", JStr "Item created successfully");
                                ("item", item_json it)])).
Proof.
  split; [reflexivity|]. split; [reflexivity|].
  apply (create_item_records_no_owner (C := collaborators) env empty_store
           (create_request (Some "Bearer fresh-token") "T" "C"));
    reflexivity.
Defined.

(** A PUT with an empty body on the stored item, addressed in upper
    case. *)
Lemma update_without_fields_keeps_item_run :
  exists s' it',
    serve (C := collaborators) env store_with_item
          (request PUT ["items"; "ABCDEFABCDEFABCDEFABCDEF"] None ∅)
    = (s', mkServed ResourceHandler
             (Json 200 (JObj [("success", JBool true);
                              ("message", JStr "Item updated successfully");
                              ("item", item_json it')]))) /\
    ItemModel.lookup (Js.toLowerCase "ABCDEFABCDEFABCDEFABCDEF") (items s') = Some it' /\
    item_id it' = "abcdefabcdefabcdefabcdef" /\
    title it' = "Groceries" /\ content it' = "milk, eggs" /\
    user it' = Some "aaaaaaaaaaaaaaaaaaaaaaaa".
Proof.
  apply (update_without_fields_keeps_item (C := collaborators) env store_with_item
           (request PUT ["items"; "ABCDEFABCDEFABCDEFABCDEF"] None ∅)
           "ABCDEFABCDEFABCDEFABCDEF"
           (mkItem "abcdefabcdefabcdefabcdef" "Groceries" "milk, eggs"
                   (Some "aaaaaaaaaaaaaaaaaaaaaaaa") 2000 2000));
    reflexivity.
Defined.

(** *** The definitions on inputs outside ASCII and outside base ten *)

(** A no-break space is trimmed like a space. *)
Example trim_no_break_space : Js.trim (nbsp ++ "T" ++ nbsp) = "T"%string.
Proof. reflexivity. Qed.

(** Sixty letters of two bytes are sixty characters, for the length
    validator and for the schema. *)
Example characters_of_accented_letters :
  Validator.characters (repeat_string 60 e_acute) = 60%nat /\
  Js.length (repeat_string 60 e_acute) = 60%nat /\
  String.length (repeat_string 60 e_acute) = 120%nat.
Proof. repeat split; reflexivity. Qed.

(** A title of sixty such letters is stored. *)
Example create_item_accepts_accented_title :
  status_of (response (snd (serve (C := collaborators) env empty_store
                                  (create_request None (repeat_string 60 e_acute) "C"))))
  = 201%nat.
Proof. reflexivity. Qed.

(** An id with the prefix [0x] passes [isMongoId] and fails the cast to an
    ObjectId, so that the handler answers 500. *)
Example prefixed_id_passes_validator :
  Validator.isMongoId "0x0123456789abcdef012345" = true /\
  serve (C := collaborators) env empty_store
        (request GET ["items"; "0x0123456789abcdef012345"] None ∅)
  = (empty_store,
     mkServed ErrorNormalizer
       (Json 500 (api_error_body "Error retrieving item" "INTERNAL_ERROR"))).
Proof. split; reflexivity. Qed.

(** [parseInt] reads a hexadecimal prefix and rounds to a double; [isInt]
    accepts leading zeroes and no prefix. *)
Example parseInt_reads_hexadecimal_and_rounds :
  Js.parseInt "0x10" = Js.Finite 16 /\
  Js.parseInt "9007199254740993" = Js.Finite 9007199254740992 /\
  Js.parseInt " -12px" = Js.Finite (-12) /\
  Validator.isInt (Some 1) None "007" = true /\
  Validator.isInt (Some 1) None "0x10" = false.
Proof. repeat split; reflexivity. Qed.

(** A request for [/api] itself is passed by the not-found handler: a GET
    gets the frontend page, a POST Express's own 404 page. *)
Example api_root_is_not_an_api_route :
  snd (serve (C := collaborators) env empty_store (request GET [] None ∅))
  = mkServed Frontend (Document "index.html") /\
  snd (serve (C := collaborators) env empty_store (request POST [] None ∅))
  = mkServed FinalHandler NotFoundPage.
Proof. split; reflexivity. Qed.

End Runs.


(** * Further properties of the backend *)

(** ** Splitting a header at spaces *)

Lemma split_space_aux_nonempty (s cur : string) : Js.split_space_aux cur s <> [].
Proof.
  revert cur. induction s as [|c s IH]; intros cur; simpl; [discriminate|].
  destruct (Ascii.eqb c " "); [discriminate | apply IH].
Qed.

Lemma split_space_aux_one (s cur x : string) :
  Js.split_space_aux cur s = [x] -> no_space s = true /\ x = (cur ++ s)%string.
Proof.
  revert cur x. induction s as [|c s IH]; intros cur x Hsplit; simpl in Hsplit.
  - injection Hsplit as <-. now rewrite string_app_nil_r.
  - destruct (Ascii.eqb c " ") eqn:Ec.
    + injection Hsplit as _ Hrest. now apply split_space_aux_nonempty in Hrest.
    + destruct (IH _ _ Hsplit) as [Hs ->]. split.
      * unfold no_space in *. simpl. now rewrite Ec.
      * now rewrite string_app_assoc.
Qed.

Lemma split_space_aux_two (s cur a b : string) :
  Js.split_space_aux cur s = [a; b] ->
  exists p, s = (p ++ String " " b)%string /\ a = (cur ++ p)%string /\ no_space b = true.
Proof.
  revert cur a. induction s as [|c s IH]; intros cur a Hsplit; simpl in Hsplit.
  - discriminate Hsplit.
  - destruct (Ascii.eqb c " ") eqn:Ec.
    + apply Ascii.eqb_eq in Ec. subst c. injection Hsplit as <- Hrest.
      destruct (split_space_aux_one _ _ _ Hrest) as [Hs ->].
      exists ""%string. repeat split; [now rewrite string_app_nil_r | exact Hs].
    + destruct (IH _ _ Hsplit) as (p & -> & -> & Hb).
      exists (String c p). repeat split; [now rewrite string_app_assoc | exact Hb].
Qed.

(** ** The token verifier on the protected route *)

Section TokenVerifierEdges.

Context {C : Collaborators}.

(** X1: a request to the protected route without an Authorization header,
    or with an empty one, is answered 401 AUTH_REQUIRED and the store is
    not touched. *)
Theorem me_without_header_is_auth_required
    (env : Env) (s : Store) (req : Request) :
  method req = GET -> path req = ["auth"; "me"] ->
  Js.truthy (authorization req) = false ->
  serve env s req
  = (s, mkServed ErrorNormalizer
          (Json 401 (api_error_body "Authentication required" "AUTH_REQUIRED"))).
Proof.
  intros Hm Hp Hauth. rewrite serve_me by assumption.
  unfold me_stack. cbn [run_stack]. unfold authenticateJWT at 1.
  cbn [ctx_req init_ctx]. rewrite Hauth. reflexivity.
Qed.

(** X2: a non-empty Authorization header that is not the word Bearer, one
    space, and a token without spaces is answered 401 INVALID_AUTH_FORMAT;
    the token is not looked at. *)
Theorem me_malformed_header_is_invalid_format
    (env : Env) (s : Store) (req : Request) (h : string) :
  method req = GET -> path req = ["auth"; "me"] ->
  authorization req = Some h -> h <> ""%string ->
  (forall tok, no_space tok = true -> h <> ("Bearer " ++ tok)%string) ->
  serve env s req
  = (s, mkServed ErrorNormalizer
          (Json 401 (api_error_body "Invalid authorization format. Use: Bearer <token>"
                                    "INVALID_AUTH_FORMAT"))).
Proof.
  intros Hm Hp Hauth Hne Hshape. rewrite serve_me by assumption.
  unfold me_stack. cbn [run_stack]. unfold authenticateJWT at 1.
  cbn [ctx_req init_ctx]. rewrite Hauth.
  apply String.eqb_neq in Hne. cbn [Js.truthy]. rewrite Hne.
  cbn [negb toString default from_option id].
  destruct (negb (length (Js.split_space h) =? 2)%nat
            || negb (String.eqb (nth 0 (Js.split_space h) "") "Bearer")) eqn:E;
    [reflexivity|].
  exfalso. apply orb_false_elim in E as [Elen Ehd].
  apply negb_false_iff in Elen, Ehd.
  apply Nat.eqb_eq in Elen. apply String.eqb_eq in Ehd.
  destruct (Js.split_space h) as [|a [|b [|x l]]] eqn:Es; try discriminate Elen.
  cbn [nth] in Ehd. subst a.
  destruct (split_space_aux_two _ _ _ _ Es) as (p & Hh & Hp' & Hb).
  apply (Hshape b Hb). rewrite Hh. change ("" ++ p)%string with p in Hp'.
  now rewrite <- Hp'.
Qed.

End TokenVerifierEdges.

(** ** The life of a session token *)

(** The answer of the profile handler for a verified identity. *)
Definition me_answer (env : Env) (s : Store) (id : string) : Served :=
  mkServed
    (match db_fault env with
     | Some _ => ErrorNormalizer
     | None =>
         if is_hex_id id then
           match List.find (fun u => String.eqb (user_id u) (Js.toLowerCase id)) (users s) with
           | Some _ => ResourceHandler
           | None => ErrorNormalizer
           end
         else ErrorNormalizer
     end)
    (match db_fault env with
     | Some _ => Json 500 (api_error_body "Error retrieving user profile" "INTERNAL_ERROR")
     | None =>
         if is_hex_id id then
           match List.find (fun u => String.eqb (user_id u) (Js.toLowerCase id)) (users s) with
           | Some u =>
               Json 200 (JObj [("success", JBool true);
                               ("user", JObj [("id", JStr (user_id u));
                                              ("username", JStr (username u));
                                              ("role", JStr (role u));
                                              ("createdAt", JDate (user_createdAt u))])])
           | None => Json 404 (api_error_body "User not found" "USER_NOT_FOUND")
           end
         else Json 500 (api_error_body "Error retrieving user profile" "INTERNAL_ERROR")
     end).

Section TokenLife.

Context {C : Collaborators}.

(** The protected route on a header of the right shape whose token parses. *)
Lemma serve_me_decoded (env : Env) (s : Store) (req : Request) (tok : string)
    (t : SignedToken) :
  method req = GET -> path req = ["auth"; "me"] ->
  authorization req = Some ("Bearer " ++ tok)%string -> no_space tok = true ->
  jwt_decode tok = Some t ->
  serve env s req
  = (s, if negb (String.eqb (token_key t) (jwt_secret env)) then
          mkServed ErrorNormalizer (Json 401 (api_error_body "Invalid token" "INVALID_TOKEN"))
        else if claim_exp (token_claims t) <=? clock_timestamp env then
          mkServed ErrorNormalizer
            (Json 401 (api_error_body "Token has expired" "TOKEN_EXPIRED"))
        else me_answer env s (claim_id (token_claims t))).
Proof.
  intros Hm Hp Hauth Htok Hdec. rewrite serve_me by assumption.
  unfold me_stack. cbn [run_stack]. unfold authenticateJWT at 1.
  cbn [ctx_req init_ctx]. rewrite Hauth.
  change (Js.truthy (Some ("Bearer " ++ tok)%string)) with true.
  cbn [negb toString default from_option id].
  rewrite (split_space_bearer tok Htok).
  cbn [length Nat.eqb nth negb orb].
  change (String.eqb "Bearer" "Bearer") with true. cbn [negb].
  unfold jwt_verify. rewrite Hdec.
  destruct (negb (String.eqb (token_key t) (jwt_secret env))); [reflexivity|].
  destruct (claim_exp (token_claims t) <=? clock_timestamp env); [reflexivity|].
  unfold me_answer, handler, me, set_user, UserModel.findById, db_guard, cast_oid.
  cbn [ctx_user].
  destruct (db_fault env); [reflexivity|].
  destruct (is_hex_id _); [|reflexivity].
  destruct (List.find _ _); reflexivity.
Qed.

(** X3: a token minted by [generateToken] for an identity is accepted on
    the protected route while the verifier's clock is before the issue time
    plus the configured lifetime and the secret is the one it was signed
    with, and the profile handler then answers for that identity; from the
    expiry on the answer is 401 TOKEN_EXPIRED, and under another secret it
    is 401 INVALID_TOKEN. *)
Theorem minted_token_lifecycle
    (issued env : Env) (s : Store) (req : Request) (id uname rl : string) :
  let tok := generateToken issued id uname rl in
  let expiry := clock_timestamp issued + jwt_expires_in issued in
  jwt_decode tok
  = Some (mkSignedToken (mkClaims id uname rl (clock_timestamp issued) expiry)
                        (jwt_secret issued)) ->
  no_space tok = true ->
  method req = GET -> path req = ["auth"; "me"] ->
  authorization req = Some ("Bearer " ++ tok)%string ->
  (jwt_secret env = jwt_secret issued -> clock_timestamp env < expiry ->
   serve env s req = (s, me_answer env s id)) /\
  (jwt_secret env = jwt_secret issued -> expiry <= clock_timestamp env ->
   serve env s req
   = (s, mkServed ErrorNormalizer
           (Json 401 (api_error_body "Token has expired" "TOKEN_EXPIRED")))) /\
  (jwt_secret env <> jwt_secret issued ->
   serve env s req
   = (s, mkServed ErrorNormalizer
           (Json 401 (api_error_body "Invalid token" "INVALID_TOKEN")))).
Proof.
  intros tok expiry Hdec Htok Hm Hp Hauth.
  pose proof (serve_me_decoded env s req tok _ Hm Hp Hauth Htok Hdec) as Hserve.
  cbn [token_key token_claims claim_exp claim_id] in Hserve.
  repeat split.
  - intros Hsecret Hclock. rewrite Hserve, Hsecret, String.eqb_refl. cbn [negb].
    apply Z.leb_gt in Hclock. now rewrite Hclock.
  - intros Hsecret Hclock. rewrite Hserve, Hsecret, String.eqb_refl. cbn [negb].
    apply Z.leb_le in Hclock. now rewrite Hclock.
  - intros Hsecret. rewrite Hserve.
    assert (Hneq : String.eqb (jwt_secret issued) (jwt_secret env) = false)
      by (apply String.eqb_neq; congruence).
    now rewrite Hneq.
Qed.

(** X4: a login with the right password is answered 200 with a token
    minted for the user and the user's id, name and role; presenting that
    token on the protected route before it expires returns the same user's
    profile. *)
Theorem login_then_me_returns_user
    (env env' : Env) (s : Store) (req req' : Request) (u : User) :
  let tok := generateToken env (user_id u) (username u) (role u) in
  method req = POST -> path req = ["auth"; "login"] ->
  blank (body req !! "username") = false -> blank (body req !! "password") = false ->
  db_fault env = None ->
  user_named s (Js.trim (toString (body req !! "username"))) = Some u ->
  compare_password (Js.trim (toString (body req !! "password"))) (password u) = true ->
  jwt_decode tok
  = Some (mkSignedToken
            (mkClaims (user_id u) (username u) (role u) (clock_timestamp env)
                      (clock_timestamp env + jwt_expires_in env))
            (jwt_secret env)) ->
  no_space tok = true ->
  method req' = GET -> path req' = ["auth"; "me"] ->
  authorization req' = Some ("Bearer " ++ tok)%string ->
  jwt_secret env' = jwt_secret env ->
  clock_timestamp env' < clock_timestamp env + jwt_expires_in env ->
  db_fault env' = None -> is_object_id (user_id u) = true ->
  List.find (fun v => String.eqb (user_id v) (user_id u)) (users s) = Some u ->
  serve env s req
  = (s, mkServed ResourceHandler
          (Json 200 (JObj [("success", JBool true);
                           ("message", JStr "Login successful");
                           ("token", JStr tok);
                           ("user", JObj [("id", JStr (user_id u));
                                          ("username", JStr (username u));
                                          ("role", JStr (role u))])]))) /\
  serve env' s req'
  = (s, mkServed ResourceHandler
          (Json 200 (JObj [("success", JBool true);
                           ("user", JObj [("id", JStr (user_id u));
                                          ("username", JStr (username u));
                                          ("role", JStr (role u));
                                          ("createdAt", JDate (user_createdAt u))])]))).
Proof.
  intros tok Hm Hp Hu Hpw Hdb Hknown Hright Hdec Htok Hm' Hp' Hauth Hsecret Hclock
         Hdb' Hoid Hfind.
  split.
  - unfold blank in Hu, Hpw.
    rewrite serve_login by assumption.
    unfold login_stack, init_ctx. stack_step.
    assert (Hstep : forall (o : option string) (X : Store * Outcome),
               match o with Some _ | _ => X end = X) by (intros [?|] ?; reflexivity).
    rewrite !Hstep. unfold Validator.isEmpty. stack_step.
    rewrite lookup_insert_ne by discriminate. rewrite Hu, Hpw. stack_step.
    unfold validateRequest. stack_step.
    unfold login. stack_step.
    rewrite lookup_insert_ne, !lookup_insert_eq by discriminate. stack_step.
    unfold UserModel.findOne, db_guard. rewrite Hdb.
    fold (user_named s (Js.trim (toString (body req !! "username")))).
    rewrite Hknown. unfold UserModel.comparePassword. rewrite Hright. reflexivity.
  - rewrite (serve_me_decoded env' s req' tok _ Hm' Hp' Hauth Htok Hdec).
    cbn [token_key token_claims claim_exp claim_id].
    rewrite Hsecret, String.eqb_refl. cbn [negb].
    apply Z.leb_gt in Hclock. rewrite Hclock.
    unfold me_answer. rewrite Hdb', (object_id_hex_id _ Hoid).
    apply andb_prop in Hoid as [Hhex _].
    rewrite (toLowerCase_object_id _ Hhex), Hfind. reflexivity.
Qed.

(** X5: placed after the token verifier, the role gate never answers
    "User not authenticated": it lets the request pass, unchanged, exactly
    when the verified role is among the allowed ones, and forwards 403
    INSUFFICIENT_PERMISSIONS otherwise. *)
Theorem authorize_after_authenticateJWT
    (roles : list string) (env : Env) (s s1 : Store) (c c1 : Ctx) :
  authenticateJWT env s c = (s1, Next c1) ->
  exists decoded,
    ctx_user c1 = Some decoded /\
    authorize roles env s1 c1
    = (s1, if existsb (String.eqb (claim_role decoded)) roles then Next c1
           else NextErr (ApiError 403 "Insufficient permissions"
                                  "INSUFFICIENT_PERMISSIONS")) /\
    (existsb (String.eqb (claim_role decoded)) roles = true
     <-> In (claim_role decoded) roles).
Proof.
  unfold authenticateJWT. intros Hauth.
  destruct (negb (Js.truthy (authorization (ctx_req c)))); [discriminate Hauth|].
  destruct (negb _ || negb _); [discriminate Hauth|].
  destruct (jwt_verify _ _ _) as [decoded|name];
    [|destruct (String.eqb name "TokenExpiredError"); discriminate Hauth].
  injection Hauth as <- <-. exists decoded. split; [reflexivity|]. split.
  - unfold authorize, set_user. cbn [ctx_user].
    destruct (existsb _ roles); reflexivity.
  - rewrite existsb_exists. split.
    + intros (r & Hin & Heq). apply String.eqb_eq in Heq. now subst r.
    + intros Hin. exists (claim_role decoded). split; [exact Hin | apply String.eqb_refl].
Qed.

End TokenLife.

(** ** The item routes: listing *)

Ltac route_id_tac Hm Hp Hid terminal :=
  unfold serve, app_stack, api_router, mount, init_ctx; rewrite Hp;
  cbv beta iota; eval_closed_eqb; cbv beta iota;
  unfold item_routes;
  route_step; rewrite ?Hm; route_step; rewrite ?Hid; route_step;
  unfold set_params; route_step;
  match goal with
  | |- context [run_stack ?st ?env ?s ?c] =>
      destruct (run_stack st env s c) as [s1 [w r|e|c1]] eqn:E;
      [reflexivity | reflexivity | exfalso; revert E; terminal]
  end.

(** Newest first: no item is followed by a newer one. *)
Definition newest_first (l : list Item) : Prop :=
  StronglySorted (fun a b => item_createdAt b <= item_createdAt a) l.

Lemma insert_newest_perm (i : Item) (l : list Item) :
  Permutation (insert_newest i l) (i :: l).
Proof.
  induction l as [|j l IH]; simpl; [reflexivity|].
  destruct (item_createdAt j <? item_createdAt i); [reflexivity|].
  rewrite IH. apply perm_swap.
Qed.

Lemma sort_newest_perm (l : list Item) : Permutation (sort_newest l) l.
Proof.
  unfold sort_newest. induction l as [|i l IH]; simpl; [reflexivity|].
  rewrite insert_newest_perm. now apply perm_skip.
Qed.

Lemma insert_newest_sorted (i : Item) (l : list Item) :
  newest_first l -> newest_first (insert_newest i l).
Proof.
  unfold newest_first. induction 1 as [|j l Hl IH Hj]; simpl.
  - constructor; [constructor | constructor].
  - destruct (item_createdAt j <? item_createdAt i) eqn:E.
    + apply Z.ltb_lt in E. constructor; [now constructor|].
      constructor; [lia|]. eapply List.Forall_impl; [|exact Hj].
      intros k Hk. cbn beta in *. lia.
    + apply Z.ltb_ge in E. constructor; [exact IH|].
      eapply Permutation_Forall; [symmetry; apply insert_newest_perm|].
      constructor; [exact E | exact Hj].
Qed.

Lemma sort_newest_sorted (l : list Item) : newest_first (sort_newest l).
Proof.
  unfold sort_newest. induction l as [|i l IH]; simpl; [constructor|].
  now apply insert_newest_sorted.
Qed.

Section Listing.

Context {C : Collaborators}.

Lemma list_items_never_next : never_next list_items.
Proof. unfold list_items. never_next_tac. Qed.

Lemma serve_list_items (env : Env) (s : Store) (req : Request) :
  method req = GET -> path req = ["items"] ->
  serve env s req = respond env (run_stack [handler list_items] env s (init_ctx req)).
Proof.
  intros Hm Hp.
  route_tac Hm Hp ltac:(apply (run_stack_terminal [] _ _ list_items_never_next)).
Qed.

(** X6: with the store reachable, GET /api/items answers 200 with every
    stored item exactly once, ordered so that no item is followed by a newer
    one, and leaves the store as it is. *)
Theorem list_items_all_newest_first (env : Env) (s : Store) (req : Request) :
  method req = GET -> path req = ["items"] -> db_fault env = None ->
  exists l,
    serve env s req
    = (s, mkServed ResourceHandler
            (Json 200 (JObj [("success", JBool true);
                             ("items", JArr (map item_json l))]))) /\
    Permutation l (items s) /\ newest_first l.
Proof.
  intros Hm Hp Hdb. exists (sort_newest (items s)). split; [|split].
  - rewrite serve_list_items by assumption.
    cbn [run_stack handler]. unfold list_items, ItemModel.find, db_guard.
    rewrite Hdb.
    assert (Hall : List.filter (fun _ : Item => true) (items s) = items s).
    { induction (items s) as [|i l IH]; [reflexivity|]. cbn. now rewrite IH. }
    rewrite Hall. reflexivity.
  - apply sort_newest_perm.
  - apply sort_newest_sorted.
Qed.

End Listing.

(** ** The item routes: one item by id *)

Lemma remove_absent (oid : string) (l : list Item) :
  ItemModel.lookup oid l = None -> ItemModel.remove oid l = l.
Proof.
  unfold ItemModel.lookup. induction l as [|j l IH]; simpl; [reflexivity|].
  destruct (String.eqb (item_id j) oid); [discriminate|].
  intros Hl. now rewrite (IH Hl).
Qed.

Lemma lookup_some_id (oid : string) (l : list Item) (it : Item) :
  ItemModel.lookup oid l = Some it -> In it l /\ item_id it = oid.
Proof.
  unfold ItemModel.lookup. intros Hf. apply find_some in Hf as [Hin Heq].
  split; [exact Hin | now apply String.eqb_eq].
Qed.

Lemma lookup_none_id (oid : string) (l : list Item) :
  ItemModel.lookup oid l = None <-> ~ In oid (map item_id l).
Proof.
  unfold ItemModel.lookup. induction l as [|j l IH]; simpl; [tauto|].
  destruct (String.eqb (item_id j) oid) eqn:E.
  - apply String.eqb_eq in E. split; [discriminate | tauto].
  - apply String.eqb_neq in E. rewrite IH. tauto.
Qed.

(** With distinct ids, removing by id leaves exactly the items of other
    ids. *)
Lemma remove_unique (oid : string) (l : list Item) :
  List.NoDup (map item_id l) ->
  forall j, In j (ItemModel.remove oid l) <-> In j l /\ item_id j <> oid.
Proof.
  induction l as [|i l IH]; simpl; intros Hnd j; [tauto|].
  inversion Hnd as [|x xs Hnotin Hnd' Heq]; subst.
  destruct (String.eqb (item_id i) oid) eqn:E.
  - apply String.eqb_eq in E. subst oid. split.
    + intros Hin. split; [now right|]. intros Heq. apply Hnotin.
      rewrite <- Heq. now apply in_map.
    + intros [[->|Hin] Hne]; [contradiction | exact Hin].
  - apply String.eqb_neq in E. simpl. rewrite (IH Hnd' j). split.
    + intros [->|[Hin Hne]]; [split; [now left | exact E] | split; [now right | exact Hne]].
    + intros [[->|Hin] Hne]; [now left | right; now split].
Qed.

Section OneItem.

Context {C : Collaborators}.

Lemma delete_item_never_next : never_next delete_item.
Proof. unfold delete_item. never_next_tac. Qed.

Lemma serve_delete_item (env : Env) (s : Store) (req : Request) (id : string) :
  method req = DELETE -> path req = ["items"; id] -> String.eqb id "" = false ->
  serve env s req = respond env (run_stack delete_item_stack env s (id_ctx req id)).
Proof.
  intros Hm Hp Hid. unfold id_ctx.
  route_id_tac Hm Hp Hid
    ltac:(apply (run_stack_terminal [_; _] _ _ delete_item_never_next)).
Qed.

(** X7: a GET or DELETE on an id that [isMongoId] refuses, that is an id
    that is not of length twenty-four or not hexadecimal (a prefix [0x] or
    [0h] counts as hexadecimal), is answered 400 by the request validator
    with the entry "Invalid item ID", before the store is consulted: the
    answer is the same when the database is down, and the store is
    unchanged. *)
Theorem malformed_item_id_is_rejected
    (env : Env) (s : Store) (req : Request) (id : string) :
  method req = GET \/ method req = DELETE ->
  path req = ["items"; id] -> id <> ""%string ->
  Validator.isMongoId id = false ->
  serve env s req
  = (s, mkServed RequestValidator
          (Json 400 (validation_body [field_entry "id" "Invalid item ID"]))).
Proof.
  intros Hm Hp Hne Hid. apply String.eqb_neq in Hne. destruct Hm as [Hm|Hm].
  - rewrite (serve_get_item _ _ _ id) by assumption.
    unfold get_item_stack, id_ctx. stack_step.
    rewrite lookup_insert_eq. stack_step. rewrite Hid. reflexivity.
  - rewrite (serve_delete_item _ _ _ id) by assumption.
    unfold delete_item_stack, id_ctx. stack_step.
    rewrite lookup_insert_eq. stack_step. rewrite Hid. reflexivity.
Qed.

(** X8: with the store reachable, a GET or DELETE on a well-formed id,
    twenty-four hexadecimal digits, that no item has is answered 404
    ITEM_NOT_FOUND, quoting the id as it was given, and the store is
    unchanged. *)
Theorem unknown_item_id_is_404
    (env : Env) (s : Store) (req : Request) (id : string) :
  method req = GET \/ method req = DELETE ->
  path req = ["items"; id] -> is_hex_id id = true ->
  db_fault env = None ->
  ItemModel.lookup (Js.toLowerCase id) (items s) = None ->
  serve env s req
  = (s, mkServed ErrorNormalizer
          (Json 404 (api_error_body ("Item with ID " ++ id ++ " not found")
                                    "ITEM_NOT_FOUND"))).
Proof.
  intros Hm Hp Hhex Hdb Hnone.
  pose proof (hex_id_isMongoId id Hhex) as Hid.
  pose proof (hex_id_nonempty id Hhex) as Hne. destruct Hm as [Hm|Hm].
  - rewrite (serve_get_item _ _ _ id) by assumption.
    unfold get_item_stack, id_ctx. stack_step.
    rewrite lookup_insert_eq. stack_step. rewrite Hid.
    unfold validateRequest. stack_step.
    unfold get_item, ItemModel.findById, db_guard, cast_oid. stack_step.
    rewrite lookup_insert_eq, Hdb. stack_step. rewrite Hhex, Hnone. reflexivity.
  - rewrite (serve_delete_item _ _ _ id) by assumption.
    unfold delete_item_stack, id_ctx. stack_step.
    rewrite lookup_insert_eq. stack_step. rewrite Hid.
    unfold validateRequest. stack_step.
    unfold delete_item, ItemModel.findByIdAndDelete, db_guard, cast_oid. stack_step.
    rewrite lookup_insert_eq, Hdb. stack_step. rewrite Hhex, Hnone.
    rewrite (remove_absent _ _ Hnone). destruct s; reflexivity.
Qed.

(** X9: with the store reachable and item ids distinct, a DELETE on the
    id, twenty-four hexadecimal digits, of a stored item is answered 200;
    afterwards the store holds exactly the items of the other ids, the users
    are untouched, and a GET on the same id is answered 404
    ITEM_NOT_FOUND. *)
Theorem delete_item_removes_exactly_it
    (env env' : Env) (s : Store) (req req' : Request) (id : string) (it : Item) :
  method req = DELETE -> path req = ["items"; id] ->
  is_hex_id id = true -> db_fault env = None ->
  List.NoDup (map item_id (items s)) ->
  ItemModel.lookup (Js.toLowerCase id) (items s) = Some it ->
  method req' = GET -> path req' = ["items"; id] -> db_fault env' = None ->
  exists s',
    serve env s req
    = (s', mkServed ResourceHandler
             (Json 200 (JObj [("success", JBool true);
                              ("message",
                               JStr ("Item with ID " ++ id ++ " deleted successfully"))]))) /\
    users s' = users s /\
    (forall j, In j (items s') <-> In j (items s) /\ item_id j <> Js.toLowerCase id) /\
    serve env' s' req'
    = (s', mkServed ErrorNormalizer
             (Json 404 (api_error_body ("Item with ID " ++ id ++ " not found")
                                       "ITEM_NOT_FOUND"))).
Proof.
  intros Hm Hp Hhex Hdb Hnd Hit Hm' Hp' Hdb'.
  pose proof (hex_id_isMongoId id Hhex) as Hid.
  pose proof (hex_id_nonempty id Hhex) as Hne.
  exists (mkStore (ItemModel.remove (Js.toLowerCase id) (items s)) (users s)).
  pose proof (remove_unique (Js.toLowerCase id) (items s) Hnd) as Hrem.
  split; [|split; [reflexivity | split; [exact Hrem|]]].
  - rewrite (serve_delete_item _ _ _ id) by assumption.
    unfold delete_item_stack, id_ctx. stack_step.
    rewrite lookup_insert_eq. stack_step. rewrite Hid.
    unfold validateRequest. stack_step.
    unfold delete_item, ItemModel.findByIdAndDelete, db_guard, cast_oid. stack_step.
    rewrite lookup_insert_eq, Hdb. stack_step. rewrite Hhex, Hit. reflexivity.
  - rewrite (serve_get_item _ _ _ id) by assumption.
    unfold get_item_stack, id_ctx. stack_step.
    rewrite lookup_insert_eq. stack_step. rewrite Hid.
    unfold validateRequest. stack_step.
    unfold get_item, ItemModel.findById, db_guard, cast_oid. stack_step.
    rewrite lookup_insert_eq, Hdb'. stack_step. rewrite Hhex. cbn [items].
    assert (Hgone : ItemModel.lookup (Js.toLowerCase id)
                      (ItemModel.remove (Js.toLowerCase id) (items s)) = None).
    { destruct (ItemModel.lookup _ (ItemModel.remove _ _)) as [j|] eqn:Ej;
        [|reflexivity].
      apply lookup_some_id in Ej as [Hin Hj]. apply Hrem in Hin as [_ Hneq].
      contradiction. }
    rewrite Hgone. reflexivity.
Qed.

End OneItem.

(** ** The item routes: updating *)

(** A field of an update body that the validators and the schema accept:
    absent, or present and, once trimmed, non-empty and of a [length]
    within the bound.  The schema bounds the [length] of the string, which
    is at least the number of characters the length validator counts. *)
Definition acceptable (max : option nat) (v : option string) : bool :=
  match v with
  | None => true
  | Some x =>
      negb (String.eqb (Js.trim x) "") &&
      match max with
      | Some m => (Js.length (Js.trim x) <=? m)%nat
      | None => true
      end
  end.

Lemma acceptable_validators (max : option nat) (v : option string) :
  acceptable max v = true ->
  match v with
  | None => true
  | Some x => negb (String.eqb (Js.trim x) "") && Validator.isLength 0 max (Js.trim x)
  end = true.
Proof.
  destruct v as [x|]; [|reflexivity]. cbn [acceptable]. intros H.
  apply andb_prop in H as [-> H]. unfold Validator.isLength. cbn [andb Nat.leb].
  destruct max as [m|]; [|reflexivity].
  apply Nat.leb_le in H. apply Nat.leb_le.
  pose proof (characters_le_length (Js.trim x)). lia.
Qed.

(** The value a field has after the update. *)
Definition updated (v : option string) (old : string) : string :=
  match v with
  | Some x => Js.trim x
  | None => old
  end.

Section UpdateItem.

Context {C : Collaborators}.

Lemma acceptable_truthy (max : option nat) (v : option string) :
  acceptable max v = true ->
  (if Js.truthy (Js.trim <$> v) then Js.trim <$> v else None) = Js.trim <$> v.
Proof.
  destruct v as [x|]; [|reflexivity]. cbn [acceptable fmap option_fmap option_map Js.truthy].
  intros Hx. apply andb_prop in Hx as [Hx _]. now rewrite Hx.
Qed.

(** The validators of the update route let acceptable fields through and
    hand the handler their trimmed values. *)
Lemma update_stack_accepts (env : Env) (s : Store) (req : Request) (id : string) :
  Validator.isMongoId id = true ->
  acceptable (Some 100%nat) (body req !! "title") = true ->
  acceptable None (body req !! "content") = true ->
  exists c',
    run_stack update_item_stack env s (id_ctx req id)
    = run_stack [handler update_item] env s c' /\
    ctx_params c' !! "id" = Some id /\
    ctx_body c' !! "title" = Js.trim <$> (body req !! "title") /\
    ctx_body c' !! "content" = Js.trim <$> (body req !! "content").
Proof.
  intros Hid Ht Hc. apply acceptable_validators in Ht, Hc.
  unfold update_item_stack, id_ctx. stack_step.
  rewrite lookup_insert_eq. stack_step. rewrite Hid.
  destruct (body req !! "title") as [t|] eqn:Et;
    destruct (body req !! "content") as [c|] eqn:Ec;
    stack_step; rewrite ?lookup_insert_ne by discriminate; rewrite ?Ec; stack_step;
    unfold Validator.isEmpty;
    repeat match goal with
           | H : negb _ && _ = true |- _ =>
               let H1 := fresh "Hn" in let H2 := fresh "Hl" in
               apply andb_prop in H as [H1 H2]; rewrite ?H1, ?H2
           end;
    unfold validateRequest; stack_step;
    (eexists; split; [reflexivity|]);
    cbn [add_errors ctx_params ctx_body fmap option_fmap option_map];
    rewrite ?lookup_insert_eq; repeat split;
    rewrite ?lookup_insert_eq, ?lookup_insert_ne by discriminate;
    rewrite ?lookup_insert_eq; try reflexivity; assumption.
Qed.

(** X10: with the store reachable, a PUT on a stored item, addressed by
    the twenty-four hexadecimal digits of its id, whose title and content
    are each absent or acceptable is answered 200 with the updated item: a
    field that was sent has its trimmed value, a field that was not sent
    keeps its value, id, owner and creation time are unchanged and the
    update time is the time of the request; the store holds that item under
    the id. *)
Theorem update_item_merges_fields
    (env : Env) (s : Store) (req : Request) (id : string) (it : Item) :
  method req = PUT -> path req = ["items"; id] ->
  is_hex_id id = true -> db_fault env = None ->
  ItemModel.lookup (Js.toLowerCase id) (items s) = Some it ->
  acceptable (Some 100%nat) (body req !! "title") = true ->
  acceptable None (body req !! "content") = true ->
  let it' := mkItem (item_id it)
                    (updated (body req !! "title") (title it))
                    (updated (body req !! "content") (content it))
                    (user it) (item_createdAt it) (now env) in
  exists s',
    serve env s req
    = (s', mkServed ResourceHandler
             (Json 200 (JObj [("success", JBool true);
                              ("message", JStr "Item updated successfully");
                              ("item", item_json it')]))) /\
    ItemModel.lookup (Js.toLowerCase id) (items s') = Some it' /\
    users s' = users s.
Proof.
  intros Hm Hp Hhex Hdb Hit Ht Hc it'.
  pose proof (hex_id_isMongoId id Hhex) as Hid.
  pose proof (hex_id_nonempty id Hhex) as Hne.
  set (tv := Js.trim <$> (body req !! "title")).
  set (cv := Js.trim <$> (body req !! "content")).
  assert (Happly : ItemModel.apply_updates env tv cv it = it').
  { unfold ItemModel.apply_updates, it', updated, tv, cv.
    destruct (body req !! "title"); destruct (body req !! "content");
      cbn [fmap option_fmap option_map]; rewrite ?trim_idempotent; reflexivity. }
  assert (Hvalid : (match tv with
                    | Some _ => ItemModel.validate_title (Js.trim <$> tv)
                    | None => []
                    end ++
                    match cv with
                    | Some _ => ItemModel.validate_content (Js.trim <$> cv)
                    | None => []
                    end)%list = []).
  { unfold tv, cv, acceptable in *.
    destruct (body req !! "title") as [t|]; destruct (body req !! "content") as [c|];
      cbn [fmap option_fmap option_map ItemModel.validate_title
           ItemModel.validate_content];
      rewrite ?trim_idempotent;
      repeat match goal with
             | H : negb _ && _ = true |- _ =>
                 let H1 := fresh "Hn" in let H2 := fresh "Hl" in
                 apply andb_prop in H as [H1 H2]; apply negb_true_iff in H1;
                 rewrite ?H1
             end;
      try match goal with
          | H : (Js.length ?x <=? 100)%nat = true |- _ =>
              apply Nat.leb_le in H;
              replace (100 <? Js.length x)%nat with false
                by (symmetry; apply Nat.ltb_ge; exact H)
          end;
      reflexivity. }
  exists (mkStore (ItemModel.replace (Js.toLowerCase id)
                     (ItemModel.apply_updates env tv cv) (items s)) (users s)).
  unfold tv, cv in *. clear tv cv.
  split; [|split; [|reflexivity]].
  - rewrite (serve_update_item _ _ _ id) by assumption.
    destruct (update_stack_accepts env s req id Hid Ht Hc)
      as (c' & -> & Hpar & Htitle & Hcontent).
    cbn [run_stack handler]. unfold update_item.
    rewrite Hpar, Htitle, Hcontent. change (toString (Some id)) with id.
    rewrite (acceptable_truthy _ _ Ht), (acceptable_truthy _ _ Hc).
    unfold ItemModel.findByIdAndUpdate, db_guard, cast_oid.
    rewrite Hdb, Hhex, Hvalid, Hit.
    change (ItemModel.apply_updates env (Js.trim <$> body req !! "title")
              (Js.trim <$> body req !! "content") <$> Some it)
      with (Some (ItemModel.apply_updates env (Js.trim <$> body req !! "title")
                    (Js.trim <$> body req !! "content") it)).
    rewrite Happly. reflexivity.
  - cbn [items]. rewrite lookup_replace by reflexivity.
    rewrite Hit, <- Happly. reflexivity.
Qed.

(** X11: a PUT whose body carries a title that is empty once trimmed is
    rejected by the request validator with 400 and the entry "Title cannot
    be empty", whatever else the request holds; the store is unchanged.  A
    blank title is refused, not ignored. *)
Theorem update_item_rejects_blank_title
    (env : Env) (s : Store) (req : Request) (id t : string) :
  method req = PUT -> path req = ["items"; id] -> id <> ""%string ->
  body req !! "title" = Some t -> Js.trim t = ""%string ->
  exists details,
    serve env s req
    = (s, mkServed RequestValidator (Json 400 (validation_body details))) /\
    In (field_entry "title" "Title cannot be empty") details.
Proof.
  intros Hm Hp Hne Ht Hblank. apply String.eqb_neq in Hne.
  rewrite (serve_update_item _ _ _ id) by assumption.
  unfold update_item_stack, id_ctx. stack_step.
  rewrite lookup_insert_eq. stack_step. rewrite Ht. stack_step.
  rewrite Hblank. unfold Validator.isEmpty. cbn [String.eqb negb].
  rewrite lookup_insert_ne by discriminate.
  destruct (body req !! "content") as [c|]; stack_step;
    unfold validateRequest, add_errors; cbn [ctx_errors];
    match goal with
    | |- context [match ?l with [] => _ | _ :: _ => _ end] =>
        destruct l as [|f l'] eqn:El
    end;
    try (exfalso;
         repeat match goal with
                | H : (_ ++ _)%list = [] |- _ => apply app_eq_nil in H as [? ?]
                end; discriminate);
    cbn [respond];
    (exists (map (fun e => field_entry (fe_path e) (fe_msg e)) (f :: l'));
     split; [reflexivity|]);
    apply in_map_iff; exists (mkFieldError "title" "Title cannot be empty");
    (split; [reflexivity|]); rewrite <- El;
    repeat (apply in_or_app; first [now (right; left) | left]);
    apply in_or_app; right; apply in_or_app; left; now left.
Qed.

End UpdateItem.

(** ** What holds of every request: item ids and status codes *)

Definition ids_distinct (s : Store) : Prop := List.NoDup (map item_id (items s)).

(** The status codes of answers that are sent directly, and of errors that
    are forwarded. *)
Definition good_send (r : Response) : Prop :=
  (In (status_of r) [200; 201; 302]%nat /\ is_error_response r = false) \/
  (status_of r = 400%nat /\ is_error_response r = true).

Definition good_error (e : JsError) : Prop :=
  exists sc msg code, e = ApiError sc msg code /\ In sc [401; 404; 500]%nat.

Definition mw_ok (m : Middleware) : Prop :=
  forall env s c s' o,
    m env s c = (s', o) ->
    (ids_distinct s -> ids_distinct s') /\
    match o with
    | Send r => good_send r
    | NextErr e => good_error e
    | Next _ => True
    end.

Definition result_ok (s s' : Store) (res : Result) : Prop :=
  (ids_distinct s -> ids_distinct s') /\
  match res with
  | Done st r => st = DocsMiddleware \/ good_send r
  | Failed e => good_error e
  | Continue _ => True
  end.

Lemma result_ok_step (s s1 s' : Store) (res : Result) :
  (ids_distinct s -> ids_distinct s1) -> result_ok s1 s' res -> result_ok s s' res.
Proof. intros H1 [H2 Hr]. split; [auto | exact Hr]. Qed.

Lemma run_stack_ok (stack : list (Stage * Middleware)) :
  Forall (fun p => mw_ok (snd p)) stack ->
  forall env s c s' res, run_stack stack env s c = (s', res) -> result_ok s s' res.
Proof.
  induction 1 as [|[st m] stack Hm _ IH]; intros env s c s' res Hrun; simpl in Hrun.
  - injection Hrun as <- <-. split; [auto | exact I].
  - cbn [snd] in Hm. destruct (m env s c) as [s1 [c1|e|r]] eqn:E;
      destruct (Hm _ _ _ _ _ E) as [Hids Ho].
    + exact (result_ok_step _ _ _ _ Hids (IH _ _ _ _ _ Hrun)).
    + injection Hrun as <- <-. split; [exact Hids | exact Ho].
    + injection Hrun as <- <-. split; [exact Hids | now right].
Qed.

Lemma remove_ids_incl (oid x : string) (l : list Item) :
  In x (map item_id (ItemModel.remove oid l)) -> In x (map item_id l).
Proof.
  induction l as [|i l IH]; simpl; [tauto|].
  destruct (String.eqb (item_id i) oid); simpl; tauto.
Qed.

Lemma remove_keeps_distinct (oid : string) (l : list Item) :
  List.NoDup (map item_id l) -> List.NoDup (map item_id (ItemModel.remove oid l)).
Proof.
  induction l as [|i l IH]; simpl; intros Hnd; [exact Hnd|].
  inversion Hnd as [|x xs Hnotin Hnd' Heq]; subst.
  destruct (String.eqb (item_id i) oid); [exact Hnd'|].
  simpl. constructor; [|exact (IH Hnd')].
  intros Hin. apply Hnotin. exact (remove_ids_incl _ _ _ Hin).
Qed.

Lemma replace_keeps_ids (oid : string) (f : Item -> Item) (l : list Item) :
  (forall i, item_id (f i) = item_id i) ->
  map item_id (ItemModel.replace oid f l) = map item_id l.
Proof.
  intros Hf. induction l as [|i l IH]; simpl; [reflexivity|].
  destruct (String.eqb (item_id i) oid); simpl; [now rewrite Hf | now rewrite IH].
Qed.

Lemma NoDup_snoc (x : string) (l : list string) :
  List.NoDup l -> ~ In x l -> List.NoDup (l ++ [x]).
Proof.
  induction l as [|y l IH]; simpl; intros Hnd Hx.
  - constructor; [intros [] | constructor].
  - inversion Hnd as [|z zs Hy Hnd' Heq]; subst. constructor.
    + rewrite in_app_iff. simpl. intros [Hin|[->|[]]]; [contradiction | tauto].
    + apply IH; [exact Hnd' | tauto].
Qed.

Lemma ItemModel_create_ids (env : Env) (s s' : Store) (t c u : option string) (d : Item) :
  ItemModel.create env s t c u = Returns (s', d) -> ids_distinct s -> ids_distinct s'.
Proof.
  unfold ItemModel.create, db_guard, ids_distinct. intros Hc Hnd.
  destruct (db_fault env); [discriminate|].
  destruct (_ ++ _)%list; [|discriminate].
  destruct (ItemModel.lookup (next_oid env) (items s)) eqn:El; [discriminate|].
  injection Hc as <- _. cbn [items]. rewrite map_app. cbn [map item_id].
  apply lookup_none_id in El. now apply NoDup_snoc.
Qed.

Ltac good_outcome :=
  match goal with
  | |- good_send _ =>
      first [ left; split; [cbn; tauto | reflexivity]
            | right; split; reflexivity ]
  | |- good_error _ =>
      do 3 eexists; split; [reflexivity | cbn; tauto]
  | |- True => exact I
  end.

Ltac read_only_ok :=
  intros env s c s' o Hrun;
  split_outcome Hrun; (split; [auto | good_outcome]).

Create HintDb ok.

Section StagesOk.

Context {C : Collaborators}.

Lemma chain_ok (vc : ValidationChain) : mw_ok (run_chain vc).
Proof. unfold run_chain. read_only_ok. Qed.

Lemma validateRequest_ok : mw_ok validateRequest.
Proof. unfold validateRequest. read_only_ok. Qed.

Lemma authenticateJWT_ok : mw_ok authenticateJWT.
Proof. unfold authenticateJWT. read_only_ok. Qed.

Lemma notFoundHandler_ok : mw_ok notFoundHandler.
Proof. unfold notFoundHandler. read_only_ok. Qed.

Lemma list_items_ok : mw_ok list_items.
Proof. unfold list_items. read_only_ok. Qed.

Lemma get_item_ok : mw_ok get_item.
Proof. unfold get_item, item_not_found. read_only_ok. Qed.

Lemma search_items_ok : mw_ok search_items.
Proof. unfold search_items. read_only_ok. Qed.

Lemma register_ok : mw_ok register.
Proof.
  intros env s c s' o Hrun. unfold register in Hrun.
  destruct (UserModel.create _ _ _ _) as [[s1 u]|e] eqn:E; injection Hrun as <- <-.
  - split; [|good_outcome]. unfold ids_distinct.
    unfold UserModel.create, db_guard in E.
    repeat match type of E with
           | context [match ?x with _ => _ end] => destruct x
           end; try discriminate;
      now injection E as <- _.
  - split; [auto | good_outcome].
Qed.

Lemma login_ok : mw_ok login.
Proof. unfold login, invalid_credentials. read_only_ok. Qed.

Lemma me_ok : mw_ok me.
Proof. unfold me. read_only_ok. Qed.

Lemma status_ok : mw_ok status.
Proof. unfold status. read_only_ok. Qed.

Lemma echo_ok : mw_ok echo.
Proof. unfold echo. read_only_ok. Qed.

Lemma data_ok : mw_ok data.
Proof. unfold data. read_only_ok. Qed.

Lemma random_ok : mw_ok random.
Proof. unfold random. read_only_ok. Qed.

Lemma legacy_search_ok : mw_ok legacy_search.
Proof. unfold legacy_search. read_only_ok. Qed.

Lemma create_item_ok : mw_ok create_item.
Proof.
  intros env s c s' o Hrun. unfold create_item in Hrun.
  destruct (ItemModel.create _ _ _ _ _) as [[s1 d]|e] eqn:E; injection Hrun as <- <-.
  - split; [exact (ItemModel_create_ids _ _ _ _ _ _ _ E) | good_outcome].
  - split; [auto | good_outcome].
Qed.

Lemma update_item_ok : mw_ok update_item.
Proof.
  intros env s c s' o Hrun. unfold update_item, item_not_found in Hrun.
  destruct (ItemModel.findByIdAndUpdate _ _ _ _ _) as [[s1 r]|e] eqn:E.
  - assert (Hids : ids_distinct s -> ids_distinct s1).
    { unfold ItemModel.findByIdAndUpdate, db_guard in E.
      repeat match type of E with
             | context [match ?x with _ => _ end] => destruct x
             end; try discriminate;
        injection E as <- _; unfold ids_distinct; cbn [items];
        now rewrite replace_keeps_ids by reflexivity. }
    destruct r; injection Hrun as <- <-; (split; [exact Hids | good_outcome]).
  - injection Hrun as <- <-. split; [auto | good_outcome].
Qed.

Lemma delete_item_ok : mw_ok delete_item.
Proof.
  intros env s c s' o Hrun. unfold delete_item, item_not_found in Hrun.
  destruct (ItemModel.findByIdAndDelete _ _ _) as [[s1 r]|e] eqn:E.
  - assert (Hids : ids_distinct s -> ids_distinct s1).
    { unfold ItemModel.findByIdAndDelete, db_guard in E.
      repeat match type of E with
             | context [match ?x with _ => _ end] => destruct x
             end; try discriminate;
        injection E as <- _; unfold ids_distinct; cbn [items];
        apply remove_keeps_distinct. }
    destruct r; injection Hrun as <- <-; (split; [exact Hids | good_outcome]).
  - injection Hrun as <- <-. split; [auto | good_outcome].
Qed.

Hint Resolve chain_ok validateRequest_ok authenticateJWT_ok notFoundHandler_ok
  list_items_ok get_item_ok search_items_ok register_ok login_ok me_ok status_ok
  echo_ok data_ok random_ok legacy_search_ok create_item_ok update_item_ok
  delete_item_ok : ok.

Definition route_ok (r : Route) : Prop := Forall (fun p => mw_ok (snd p)) (r_stack r).

Ltac routes_ok_tac :=
  repeat first [apply List.Forall_nil | apply List.Forall_cons
               | progress cbn [r_stack snd chain validate handler]];
  auto with ok.

Lemma item_routes_ok : Forall route_ok item_routes.
Proof.
  unfold item_routes, route_ok, get_item_stack, create_item_stack, update_item_stack,
    delete_item_stack, search_items_stack.
  routes_ok_tac.
Qed.

Lemma auth_routes_ok : Forall route_ok auth_routes.
Proof.
  unfold auth_routes, route_ok, register_stack, login_stack, me_stack. routes_ok_tac.
Qed.

Lemma status_routes_ok : Forall route_ok status_routes.
Proof. unfold status_routes, route_ok, echo_stack. routes_ok_tac. Qed.

Lemma dispatch_ok (routes : list Route) :
  Forall route_ok routes ->
  forall segs env s c s' res,
    dispatch routes segs env s c = (s', res) -> result_ok s s' res.
Proof.
  induction 1 as [|r routes Hr _ IH]; intros segs env s c s' res Hrun; simpl in Hrun.
  - injection Hrun as <- <-. split; [auto | exact I].
  - destruct (Method_eqb (r_method r) (method (ctx_req c)));
      [|now apply (IH _ _ _ _ _ _ Hrun)].
    destruct (match_path (r_pattern r) segs) as [params|];
      [|now apply (IH _ _ _ _ _ _ Hrun)].
    destruct (run_stack (r_stack r) env s (set_params params c)) as [s1 res1] eqn:E.
    pose proof (run_stack_ok _ Hr _ _ _ _ _ E) as Hok.
    destruct res1 as [st r1|e|c1]; try (injection Hrun as <- <-; exact Hok).
    exact (result_ok_step _ _ _ _ (proj1 Hok) (IH _ _ _ _ _ _ Hrun)).
Qed.

Lemma mount_ok (prefix : option string) (routes : list Route) :
  Forall route_ok routes ->
  forall segs env s c s' res,
    mount prefix routes segs env s c = (s', res) -> result_ok s s' res.
Proof.
  intros Hr segs env s c s' res Hrun. unfold mount in Hrun.
  destruct prefix as [p|]; [|exact (dispatch_ok _ Hr _ _ _ _ _ _ Hrun)].
  destruct segs as [|seg below];
    [injection Hrun as <- <-; split; [auto | exact I]|].
  destruct (String.eqb _ _); [exact (dispatch_ok _ Hr _ _ _ _ _ _ Hrun)|].
  injection Hrun as <- <-. split; [auto | exact I].
Qed.

Lemma app_stack_ok (segs : list string) (env : Env) (s s' : Store) (c : Ctx)
    (res : Result) :
  app_stack segs env s c = (s', res) -> result_ok s s' res.
Proof.
  unfold app_stack, api_router. intros Hrun.
  destruct (mount (Some "items") item_routes segs env s c) as [s1 r1] eqn:E1.
  pose proof (mount_ok _ _ item_routes_ok _ _ _ _ _ _ E1) as H1.
  destruct r1 as [st r|e|c1]; try (injection Hrun as <- <-; exact H1).
  destruct (mount (Some "auth") auth_routes segs env s1 c1) as [s2 r2] eqn:E2.
  pose proof (mount_ok _ _ auth_routes_ok _ _ _ _ _ _ E2) as H2.
  apply (result_ok_step _ _ _ _ (proj1 H1)).
  destruct r2 as [st r|e|c2]; try (injection Hrun as <- <-; exact H2).
  destruct (mount None status_routes segs env s2 c2) as [s3 r3] eqn:E3.
  pose proof (mount_ok _ _ status_routes_ok _ _ _ _ _ _ E3) as H3.
  apply (result_ok_step _ _ _ _ (proj1 H2)).
  destruct r3 as [st r|e|c3]; try (injection Hrun as <- <-; exact H3).
  apply (result_ok_step _ _ _ _ (proj1 H3)).
  cbn [run_stack] in Hrun. unfold docs, notFoundHandler in Hrun.
  destruct segs as [|seg rest];
    [|destruct (String.eqb (Js.toLowerCase seg) "docs");
      [|destruct (String.eqb (Js.toLowerCase seg) "docs.json"
                  && Method_eqb (method (ctx_req c3)) GET
                  && (length (seg :: rest) =? 1)%nat)]];
    injection Hrun as <- <-;
    (split; [auto|]); first [now left | good_outcome].
Qed.

End StagesOk.

Section EveryRequest.

Context {C : Collaborators}.

Lemma serve_ok (env : Env) (s : Store) (req : Request) :
  (ids_distinct s -> ids_distinct (fst (serve env s req))) /\
  (In (writer (snd (serve env s req))) [DocsMiddleware; Frontend; FinalHandler] \/
   (In (status_of (response (snd (serve env s req))))
       [200; 201; 302; 400; 401; 404; 500]%nat /\
    (is_error_response (response (snd (serve env s req))) = true
     <-> (400 <= status_of (response (snd (serve env s req))))%nat))).
Proof.
  unfold serve.
  destruct (app_stack (path req) env s (init_ctx req)) as [s' res] eqn:E.
  destruct (app_stack_ok _ _ _ _ _ _ E) as [Hids Hres].
  destruct res as [st r|e|c1]; cbn [respond fst snd writer response].
  - split; [exact Hids|]. destruct Hres as [->|Hsend]; [left; now left | right].
    destruct Hsend as [[Hst Herr]|[Hst Herr]]; rewrite Herr.
    + cbn in Hst. split; [cbn; tauto|]. split; [discriminate | lia].
    + rewrite Hst. split; [cbn; tauto|]. split; [lia | reflexivity].
  - split; [exact Hids|]. right.
    destruct Hres as (sc & msg & code & -> & Hsc).
    cbn [errorHandler status_of]. split; [cbn in *; tauto|].
    split; [cbn in Hsc; lia | reflexivity].
  - destruct (Method_eqb (method (ctx_req c1)) GET); cbn [fst snd writer];
      (split; [exact Hids|]); left; cbn; tauto.
Qed.

(** X12: no request, and so no sequence of requests, makes two stored items
    share an id: when the item ids of a store are distinct they are still
    distinct afterwards. *)
Theorem requests_keep_item_ids_distinct (reqs : list (Env * Request)) (s : Store) :
  ids_distinct s -> ids_distinct (run_requests reqs s).
Proof.
  revert s. induction reqs as [|[env req] reqs IH]; intros s Hs; simpl; [exact Hs|].
  apply IH. now apply serve_ok.
Qed.

(** X13: every answer the routers, the request validator and the error
    handler send, that is every answer that is not a documentation page,
    the frontend page or Express's own 404 page, has one of the status
    codes 200, 201, 302, 400, 401, 404 and 500, so never 403, and its
    envelope says [success: false] exactly when the status is 400 or
    above. *)
Theorem status_codes_agree_with_success_flag
    (env : Env) (s : Store) (req : Request) :
  In (writer (snd (serve env s req))) [DocsMiddleware; Frontend; FinalHandler] \/
  (In (status_of (response (snd (serve env s req))))
      [200; 201; 302; 400; 401; 404; 500]%nat /\
   status_of (response (snd (serve env s req))) <> 403%nat /\
   (is_error_response (response (snd (serve env s req))) = true
    <-> (400 <= status_of (response (snd (serve env s req))))%nat)).
Proof.
  destruct (proj2 (serve_ok env s req)) as [Hdocs|[Hin Hflag]]; [now left | right].
  split; [exact Hin|]. split; [|exact Hflag].
  intros H403. rewrite H403 in Hin. cbn in Hin.
  repeat destruct Hin as [Hin|Hin]; try discriminate Hin. exact Hin.
Qed.

End EveryRequest.

(** ** When the database does not answer *)

(** The same moment, with the database rejecting every operation with the
    message [msg]. *)
Definition with_fault (msg : string) (env : Env) : Env :=
  mkEnv (now env) (node_env env) (jwt_secret env) (jwt_expires_in env) (Some msg)
        (next_oid env) (uptime env) (random_data env).

(** A middleware whose outcome is the same whatever the database says when
    it rejects. *)
Definition mw_blind (m : Middleware) : Prop :=
  forall m1 m2 env s c, m (with_fault m1 env) s c = m (with_fault m2 env) s c.

Definition no_custom (st : ChainStep) : Prop :=
  match st with
  | CustomCheck _ => False
  | _ => True
  end.

Lemma run_steps_blind (env1 env2 : Env) (s : Store) (fld : string)
    (steps : list ChainStep) :
  Forall no_custom steps ->
  forall v, run_steps env1 s fld steps v = run_steps env2 s fld steps v.
Proof.
  induction 1 as [|st steps Hst _ IH]; intros v; [reflexivity|].
  destruct st as [f|p msg|f]; simpl; [apply IH | now rewrite IH | destruct Hst].
Qed.

Lemma run_chain_blind (vc : ValidationChain) :
  Forall no_custom (vc_steps vc) -> mw_blind (run_chain vc).
Proof.
  intros Hvc m1 m2 env s c. unfold run_chain.
  destruct (vc_field vc) as [fld|];
    [|now rewrite (run_steps_blind _ (with_fault m2 env) _ _ _ Hvc)].
  destruct (location_data (vc_location vc) c !! fld), (vc_optional vc);
    try reflexivity;
    now rewrite (run_steps_blind _ (with_fault m2 env) _ _ _ Hvc).
Qed.

Lemma run_stack_blind (stack : list (Stage * Middleware)) :
  Forall (fun p => mw_blind (snd p)) stack ->
  forall m1 m2 env s c,
    run_stack stack (with_fault m1 env) s c = run_stack stack (with_fault m2 env) s c.
Proof.
  induction 1 as [|[st m] stack Hm _ IH]; intros m1 m2 env s c; simpl; [reflexivity|].
  cbn [snd] in Hm. rewrite (Hm m1 m2).
  destruct (m (with_fault m2 env) s c) as [s1 [c1|e|r]]; [apply IH | reflexivity..].
Qed.

Lemma dispatch_blind {C : Collaborators} (routes : list Route) :
  Forall (fun r => Forall (fun p => mw_blind (snd p)) (r_stack r)) routes ->
  forall m1 m2 segs env s c,
    dispatch routes segs (with_fault m1 env) s c
    = dispatch routes segs (with_fault m2 env) s c.
Proof.
  induction 1 as [|r routes Hr _ IH]; intros m1 m2 segs env s c; simpl; [reflexivity|].
  destruct (Method_eqb _ _); [|apply IH].
  destruct (match_path _ _) as [params|]; [|apply IH].
  rewrite (run_stack_blind _ Hr m1 m2).
  destruct (run_stack _ _ _ _) as [s1 [st r1|e|c1]]; [reflexivity | reflexivity | apply IH].
Qed.

Ltac blind_handler :=
  intros m1 m2 env s c; cbv beta;
  unfold ItemModel.find, ItemModel.countDocuments, ItemModel.findById, ItemModel.create,
    ItemModel.findByIdAndUpdate, ItemModel.findByIdAndDelete, db_guard, with_fault;
  cbn [db_fault now node_env uptime random_data next_oid]; reflexivity.

Section Blind.

Context {C : Collaborators}.

Lemma validateRequest_blind : mw_blind validateRequest.
Proof. intros m1 m2 env s c. reflexivity. Qed.

Lemma notFoundHandler_blind : mw_blind notFoundHandler.
Proof. intros m1 m2 env s c. reflexivity. Qed.

Lemma docs_blind (segs : list string) : mw_blind (docs segs).
Proof. intros m1 m2 env s c. reflexivity. Qed.

Lemma list_items_blind : mw_blind list_items.
Proof. unfold list_items. blind_handler. Qed.

Lemma get_item_blind : mw_blind get_item.
Proof. unfold get_item. blind_handler. Qed.

Lemma create_item_blind : mw_blind create_item.
Proof. unfold create_item. blind_handler. Qed.

Lemma update_item_blind : mw_blind update_item.
Proof. unfold update_item. blind_handler. Qed.

Lemma delete_item_blind : mw_blind delete_item.
Proof. unfold delete_item. blind_handler. Qed.

Lemma search_items_blind : mw_blind search_items.
Proof. unfold search_items. blind_handler. Qed.

Lemma status_blind : mw_blind status.
Proof. unfold status. blind_handler. Qed.

Lemma echo_blind : mw_blind echo.
Proof. unfold echo. blind_handler. Qed.

Lemma data_blind : mw_blind data.
Proof. unfold data. blind_handler. Qed.

Lemma random_blind : mw_blind random.
Proof. unfold random. blind_handler. Qed.

Lemma legacy_search_blind : mw_blind legacy_search.
Proof. unfold legacy_search. blind_handler. Qed.

Ltac routes_blind_tac :=
  repeat first [apply List.Forall_nil | apply List.Forall_cons
               | progress cbn [r_stack snd chain validate handler]];
  first [ apply run_chain_blind;
          cbn [vc_steps body_ param_ body_optional query_optional];
          repeat first [apply List.Forall_nil | apply List.Forall_cons]; exact I
        | apply validateRequest_blind | apply list_items_blind | apply get_item_blind
        | apply create_item_blind | apply update_item_blind | apply delete_item_blind
        | apply search_items_blind | apply status_blind | apply echo_blind
        | apply data_blind | apply random_blind | apply legacy_search_blind ].

Lemma item_routes_blind :
  Forall (fun r => Forall (fun p => mw_blind (snd p)) (r_stack r)) item_routes.
Proof.
  unfold item_routes, get_item_stack, create_item_stack, update_item_stack,
    delete_item_stack, search_items_stack.
  routes_blind_tac.
Qed.

Lemma status_routes_blind :
  Forall (fun r => Forall (fun p => mw_blind (snd p)) (r_stack r)) status_routes.
Proof. unfold status_routes, echo_stack. routes_blind_tac. Qed.

(** X14: what a request below /api/items is answered, and what it does to
    the store, does not depend on the message the database rejects with: the
    item routes do not pass the database's error text on. *)
Theorem item_routes_hide_database_message
    (m1 m2 : string) (env : Env) (s : Store) (req : Request) (seg : string)
    (rest : list string) :
  path req = seg :: rest -> Js.toLowerCase seg = "items"%string ->
  serve (with_fault m1 env) s req = serve (with_fault m2 env) s req.
Proof.
  intros Hp Hseg. unfold serve, app_stack, api_router, mount. rewrite Hp, Hseg.
  change (String.eqb (Js.toLowerCase "items") "items") with true.
  change (String.eqb (Js.toLowerCase "auth") "items") with false.
  cbv beta iota.
  rewrite (dispatch_blind _ item_routes_blind m1 m2).
  destruct (dispatch item_routes rest (with_fault m2 env) s (init_ctx req))
    as [s1 [st r|e|c1]]; [reflexivity | reflexivity |].
  rewrite (dispatch_blind _ status_routes_blind m1 m2).
  destruct (dispatch status_routes (seg :: rest) (with_fault m2 env) s1 c1)
    as [s2 [st r|e|c2]]; [reflexivity | reflexivity |].
  rewrite (run_stack_blind
             [(DocsMiddleware, docs (seg :: rest)); (NotFoundStage, notFoundHandler)])
    with (m2 := m2);
    [|repeat first [apply List.Forall_nil | apply List.Forall_cons];
      [apply docs_blind | apply notFoundHandler_blind]].
  destruct (run_stack _ _ _ _) as [s3 [st r|e|c3]]; reflexivity.
Qed.

End Blind.

Section RegisterFault.

Context {C : Collaborators}.

(** X15: while the database rejects its operations, a registration is
    answered 400 by the request validator, not 500: the failed uniqueness
    lookup counts as a validation failure of [username], and the entry
    carries the database's own message.  No user is stored. *)
Theorem register_reports_database_message_as_validation_error
    (env : Env) (s : Store) (req : Request) (msg : string) :
  method req = POST -> path req = ["auth"; "register"] ->
  db_fault env = Some msg ->
  exists details,
    serve env s req
    = (s, mkServed RequestValidator (Json 400 (validation_body details))) /\
    In (field_entry "username" msg) details.
Proof.
  intros Hm Hp Hdb.
  rewrite serve_register by assumption.
  unfold register_stack, init_ctx. stack_step.
  assert (Hstep : forall (o : option string) (X : Store * Outcome),
             match o with Some _ | _ => X end = X) by (intros [?|] ?; reflexivity).
  rewrite !Hstep. stack_step.
  unfold username_is_free, UserModel.findOne, db_guard. rewrite Hdb.
  unfold validateRequest, add_errors. cbn [ctx_errors].
  match goal with
  | |- context [match ?l with [] => _ | _ :: _ => _ end] =>
      destruct l as [|f l'] eqn:El
  end.
  - exfalso.
    apply app_eq_nil in El as [El _].
    apply app_eq_nil in El as [_ El].
    apply app_eq_nil in El as [_ El].
    discriminate El.
  - cbn [respond].
    exists (map (fun e => field_entry (fe_path e) (fe_msg e)) (f :: l')).
    split; [reflexivity|].
    apply in_map_iff. exists (mkFieldError "username" msg). split; [reflexivity|].
    rewrite <- El.
    apply in_or_app. left. apply in_or_app. right. apply in_or_app. right.
    now left.
Qed.

End RegisterFault.

(** ** Paths no route takes *)

(** The first path segments some layer of the application answers to. *)
Definition routed_segments : list string :=
  ["items"; "auth"; "status"; "echo"; "data"; "random"; "search"; "docs"; "docs.json"].

Section NotFound.

Context {C : Collaborators}.

(** X16: a request whose first path segment is none of the segments the
    routers and the documentation answer to, in any letter case, is answered
    404 NOT_FOUND with the requested URL in the message, whatever its
    method, and the store is unchanged. *)
Theorem unrouted_path_is_404
    (env : Env) (s : Store) (req : Request) (seg : string) (rest : list string) :
  path req = seg :: rest ->
  ~ In (Js.toLowerCase seg) routed_segments ->
  serve env s req
  = (s, mkServed ErrorNormalizer
          (Json 404 (api_error_body ("Route not found: " ++ originalUrl req)
                                    "NOT_FOUND"))).
Proof.
  intros Hp Hseg.
  assert (Hne : forall l, In l routed_segments ->
                          String.eqb (Js.toLowerCase l) (Js.toLowerCase seg) = false).
  { intros l Hl. apply String.eqb_neq. intros Heq. apply Hseg.
    assert (Hlow : Js.toLowerCase l = l).
    { cbn in Hl.
      repeat destruct Hl as [<-|Hl]; try reflexivity. destruct Hl. }
    now rewrite <- Heq, Hlow. }
  assert (Hne' : forall l, In l routed_segments ->
                           String.eqb (Js.toLowerCase seg) l = false).
  { intros l Hl. apply String.eqb_neq. intros Heq. apply Hseg. now rewrite Heq. }
  unfold serve, app_stack, api_router, mount. rewrite Hp.
  rewrite (Hne "items") by (cbn; tauto).
  rewrite (Hne "auth") by (cbn; tauto).
  unfold status_routes.
  cbn [dispatch r_method r_pattern r_stack match_path].
  rewrite (Hne "status"), (Hne "echo"), (Hne "data"), (Hne "random"), (Hne "search")
    by (cbn; tauto).
  assert (Hskip : forall (b : bool) (X : Store * Result), (if b then X else X) = X)
    by (intros [] ?; reflexivity).
  rewrite !Hskip.
  cbn [run_stack]. unfold docs.
  rewrite (Hne' "docs"), (Hne' "docs.json") by (cbn; tauto).
  cbn [andb]. unfold notFoundHandler. reflexivity.
Qed.

End NotFound.

(** ** The search handler: pages *)

Lemma has_next_page (page total limit : Z) :
  0 < limit -> (page <? ceil_div total limit) = (page * limit <? total).
Proof.
  intros Hl. rewrite ceil_div_pages by exact Hl.
  destruct (page * limit <? total) eqn:E.
  - apply Z.ltb_lt in E. apply Z.ltb_lt.
    assert (page + 1 <= (total + limit - 1) / limit)
      by (apply Z.div_le_lower_bound; [exact Hl | nia]).
    lia.
  - apply Z.ltb_ge in E. apply Z.ltb_ge.
    assert ((total + limit - 1) / limit < page + 1)
      by (apply Z.div_lt_upper_bound; [exact Hl | nia]).
    lia.
Qed.

(** The items a search ranges over: those the text query matches, or all
    without one. *)
Definition search_query {C : Collaborators} (q : option string) : Item -> bool :=
  if Js.truthy q then text_match (toString q) else fun _ => true.

(** Newest first without ties: the order is then the only one. *)
Lemma sort_newest_strict (l : list Item) :
  List.NoDup (map item_createdAt (sort_newest l)) ->
  StronglySorted (fun a b => item_createdAt b < item_createdAt a) (sort_newest l).
Proof.
  pose proof (sort_newest_sorted l) as Hs. unfold newest_first in Hs.
  induction Hs as [|a rest _ IH Hall]; intros Hnd; [constructor|].
  cbn [map] in Hnd. inversion Hnd as [|x xs Hnotin Hnd' Heq]; subst.
  constructor; [exact (IH Hnd')|].
  rewrite List.Forall_forall in *. intros b Hb.
  specialize (Hall b Hb).
  assert (item_createdAt b <> item_createdAt a).
  { intros Heq. apply Hnotin. rewrite <- Heq. now apply in_map. }
  lia.
Qed.

Section SearchPages.

Context {C : Collaborators}.

(** X17: run with the store reachable on a page number [page] of at least
    1 and a limit [limit] of at least 1 whose product a double holds
    exactly, and on matching items of pairwise different creation times,
    the search handler answers 200 with the slice of the matching items,
    newest first, that starts after (page - 1) * limit items and has at
    most limit items; total counts all matching items, hasNextPage is true
    exactly when items remain after the slice, and hasPrevPage exactly when
    the page is not the first. *)
Theorem search_items_returns_page
    (env : Env) (s : Store) (c : Ctx) (page limit : Z) :
  let found := sort_newest (List.filter (search_query (ctx_query c !! "q")) (items s)) in
  let total := Z.of_nat (length found) in
  let skipped := Z.to_nat ((page - 1) * limit) in
  db_fault env = None ->
  parseInt_or (ctx_query c !! "page") 1 = Js.Finite page ->
  parseInt_or (ctx_query c !! "limit") 10 = Js.Finite limit ->
  1 <= page -> 1 <= limit -> page * limit < 2 ^ 53 ->
  List.NoDup (map item_createdAt found) ->
  search_items env s c
  = (s, Send (Json 200 (JObj
       [("success", JBool true);
        ("results",
         JArr (map item_json (firstn (Z.to_nat limit) (skipn skipped found))));
        ("pagination",
         JObj [("total", JNum total); ("page", JNum page); ("limit", JNum limit);
               ("pages", JNum (ceil_div total limit));
               ("hasNextPage", JBool (page * limit <? total));
               ("hasPrevPage", JBool (1 <? page))])]))) /\
  StronglySorted (fun a b => item_createdAt b < item_createdAt a) found /\
  (length (firstn (Z.to_nat limit) (skipn skipped found)) <= Z.to_nat limit)%nat /\
  skipn skipped found
  = (firstn (Z.to_nat limit) (skipn skipped found)
     ++ skipn (Z.to_nat (page * limit)) found)%list /\
  ((page * limit <? total) = true <-> skipn (Z.to_nat (page * limit)) found <> []).
Proof.
  intros found total skipped Hdb Hpg Hlm Hpage Hlimit Hsafe Hnd.
  assert (H53 : 2 ^ 53 = 9007199254740992) by reflexivity.
  assert (H63 : 2 ^ 63 = 9223372036854775808) by reflexivity.
  rewrite H53 in Hsafe.
  assert (Htotal : Z.of_nat (length (List.filter (search_query (ctx_query c !! "q"))
                                                 (items s))) = total).
  { unfold total, found. f_equal. symmetry.
    apply Permutation_length, sort_newest_perm. }
  split; [|split; [|split; [|split]]].
  - unfold search_items, ItemModel.find, ItemModel.countDocuments, db_guard, paginate.
    rewrite Hdb, Hpg, Hlm. fold (search_query (ctx_query c !! "q")).
    cbv zeta. fold found. cbn [Js.sub].
    rewrite (of_Z_exact (page - 1)) by (rewrite H53; nia).
    cbn [Js.mul].
    rewrite (of_Z_exact ((page - 1) * limit)) by (rewrite H53; nia).
    replace (((page - 1) * limit <? 0) || (2 ^ 63 <=? (page - 1) * limit)
             || (2 ^ 63 <=? Z.abs limit)) with false.
    2:{ symmetry. rewrite H63. repeat (apply orb_false_iff; split).
        - apply Z.ltb_ge. nia.
        - apply Z.leb_gt. nia.
        - apply Z.leb_gt. nia. }
    unfold pages_of.
    replace (limit =? 0) with false by (symmetry; apply Z.eqb_neq; lia).
    cbn [json_of_number Js.ltb].
    rewrite Htotal, has_next_page by lia.
    replace (Z.abs limit) with limit by lia. reflexivity.
  - exact (sort_newest_strict _ Hnd).
  - rewrite length_firstn. lia.
  - rewrite <- (firstn_skipn (Z.to_nat limit) (skipn skipped found)) at 1.
    f_equal. rewrite skipn_skipn. f_equal. unfold skipped. nia.
  - rewrite Z.ltb_lt. unfold total. split.
    + intros Hlt Hnil.
      assert (Hlen := f_equal (@length Item) Hnil).
      rewrite length_skipn in Hlen. cbn in Hlen. lia.
    + intros Hne. destruct (Z.lt_ge_cases (page * limit) (Z.of_nat (length found)))
        as [Hlt|Hge]; [exact Hlt|].
      exfalso. apply Hne. apply skipn_all2. lia.
Qed.

End SearchPages.

(** ** The search route: what the validators guarantee the handler *)

Lemma isInt_value (lo : Z) (hi : option Z) (v : string) :
  Validator.isInt (Some lo) hi v = true ->
  Js.parseInt v = Js.of_Z (Validator.int_value v) /\
  lo <= Validator.int_value v /\
  match hi with Some h => Validator.int_value v <= h | None => True end.
Proof.
  unfold Validator.isInt. intros Hv.
  apply andb_prop in Hv as [Hv Hhi]. apply andb_prop in Hv as [Hsyn Hlo].
  split; [exact (parseInt_int_syntax v Hsyn)|].
  split; [now apply Z.leb_le|]. destruct hi; [now apply Z.leb_le | exact I].
Qed.

(** A page parameter that passed [isInt({ min: 1 })] is read by the handler
    as a number of at least one, or as the positive infinity when it is too
    large for a double. *)
Lemma isInt_page (v : string) (d : Z) :
  Validator.isInt (Some 1) None v = true ->
  (exists p, parseInt_or (Some v) d = Js.Finite p /\ 1 <= p) \/
  parseInt_or (Some v) d = Js.Infinite false.
Proof.
  intros Hv. destruct (isInt_value _ _ _ Hv) as (Hparse & Hlo & _).
  unfold parseInt_or. cbn [toString default from_option id]. rewrite Hparse.
  destruct (of_Z_pos _ Hlo) as [(p & -> & Hp)| ->]; [left | now right].
  exists p. split; [|exact Hp]. destruct p; [lia | reflexivity | lia].
Qed.

(** A limit parameter that passed [isInt({ min: 1, max: 50 })] is read by
    the handler as the number it denotes. *)
Lemma isInt_limit (v : string) (d : Z) :
  Validator.isInt (Some 1) (Some 50) v = true ->
  exists l, parseInt_or (Some v) d = Js.Finite l /\ 1 <= l <= 50.
Proof.
  intros Hv. destruct (isInt_value _ _ _ Hv) as (Hparse & Hlo & Hhi).
  unfold parseInt_or. cbn [toString default from_option id]. rewrite Hparse.
  rewrite of_Z_exact by (change (2 ^ 53) with 9007199254740992; lia).
  exists (Validator.int_value v). split; [|lia].
  destruct (Validator.int_value v); [lia | reflexivity | lia].
Qed.

Section SearchValidation.

Context {C : Collaborators}.

(** X18: unless the request validator rejects the request, the search
    handler reads a page number of at least 1, or the positive infinity
    when the digits are too many for a double, and a limit between 1 and
    50: an absent parameter takes its default (1 and 10), and on a present
    one that passed the integer check of the validator, which reads the
    string by its syntax, the handler's [parseInt] reads the same number. *)
Theorem search_validators_bound_page_and_limit
    (env : Env) (s s' : Store) (c : Ctx) (res : Result) :
  ctx_errors c = [] ->
  run_stack search_items_stack env s c = (s', res) ->
  (forall r, res <> Done RequestValidator r) ->
  ((exists p, parseInt_or (ctx_query c !! "page") 1 = Js.Finite p /\ 1 <= p) \/
   parseInt_or (ctx_query c !! "page") 1 = Js.Infinite false) /\
  (exists l, parseInt_or (ctx_query c !! "limit") 10 = Js.Finite l /\ 1 <= l <= 50).
Proof.
  intros Herrs Hrun Hpass.
  unfold search_items_stack in Hrun.
  cbn [run_stack run_chain query_optional vc_field vc_location vc_optional vc_steps
       location_data set_location add_errors chain validate handler
       ctx_req ctx_body ctx_params ctx_query ctx_user ctx_errors
       run_steps isInt isString toString default from_option app] in Hrun.
  destruct (ctx_query c !! "q") as [q|] eqn:Eq;
    cbn [run_stack run_chain query_optional vc_field vc_location vc_optional vc_steps
         location_data set_location add_errors chain validate handler
         ctx_req ctx_body ctx_params ctx_query ctx_user ctx_errors
         run_steps isInt isString toString default from_option app] in Hrun;
    rewrite ?lookup_insert_ne in Hrun by discriminate;
    destruct (ctx_query c !! "page") as [pg|] eqn:Epg;
    cbn [run_stack run_chain query_optional vc_field vc_location vc_optional vc_steps
         location_data set_location add_errors chain validate handler
         ctx_req ctx_body ctx_params ctx_query ctx_user ctx_errors
         run_steps isInt isString toString default from_option app] in Hrun;
    rewrite ?lookup_insert_ne in Hrun by discriminate;
    destruct (ctx_query c !! "limit") as [lm|] eqn:El;
    cbn [run_stack run_chain query_optional vc_field vc_location vc_optional vc_steps
         location_data set_location add_errors chain validate handler
         ctx_req ctx_body ctx_params ctx_query ctx_user ctx_errors
         run_steps isInt isString toString default from_option app] in Hrun;
    unfold validateRequest in Hrun; cbn [ctx_errors] in Hrun;
    rewrite ?Herrs in Hrun; cbn [app] in Hrun;
    repeat match type of Hrun with
           | context [Validator.isInt ?lo ?hi ?v] =>
               destruct (Validator.isInt lo hi v) eqn:?;
               cbn [app] in Hrun;
               try (injection Hrun as <- <-; exfalso; eapply Hpass; reflexivity)
           end;
    (split;
     [ first [ left; exists 1; split; [reflexivity | lia]
             | match goal with
               | H : Validator.isInt (Some 1) None ?v = true |- _ =>
                   exact (isInt_page v 1 H)
               end ]
     | first [ exists 10; split; [reflexivity | lia]
             | match goal with
               | H : Validator.isInt (Some 1) (Some 50) ?v = true |- _ =>
                   exact (isInt_limit v 10 H)
               end ] ]).
Qed.

End SearchValidation.

(** ** Which requests write, and where *)

(** A middleware that relates the store it finds to the store it leaves by
    [R] and hands on the request it was given. *)
Definition mw_keeps (R : Store -> Store -> Prop) (m : Middleware) : Prop :=
  forall env s c s' o,
    m env s c = (s', o) ->
    R s s' /\ forall c', o = Next c' -> ctx_req c' = ctx_req c.

Definition stack_keeps (R : Store -> Store -> Prop) (stack : list (Stage * Middleware))
    : Prop :=
  Forall (fun p => mw_keeps R (snd p)) stack.

Definition same_users (s s' : Store) : Prop := users s' = users s.
Definition same_items (s s' : Store) : Prop := items s' = items s.

Lemma mw_keeps_weaken (R : Store -> Store -> Prop) (m : Middleware) :
  (forall s, R s s) -> mw_keeps eq m -> mw_keeps R m.
Proof.
  intros Hrefl Hm env s c s' o Hrun. destruct (Hm _ _ _ _ _ Hrun) as [<- Hreq].
  split; [apply Hrefl | exact Hreq].
Qed.

Section Keeps.

Context {C : Collaborators}.
Variable R : Store -> Store -> Prop.
Hypothesis R_refl : forall s, R s s.
Hypothesis R_trans : forall s1 s2 s3, R s1 s2 -> R s2 s3 -> R s1 s3.

Lemma run_stack_keeps (stack : list (Stage * Middleware)) :
  stack_keeps R stack ->
  forall env s c s' res,
    run_stack stack env s c = (s', res) ->
    R s s' /\ forall c', res = Continue c' -> ctx_req c' = ctx_req c.
Proof.
  induction 1 as [|[st m] stack Hm _ IH]; intros env s c s' res Hrun; simpl in Hrun.
  - injection Hrun as <- <-. split; [apply R_refl|]. now intros c' [= <-].
  - cbn [snd] in Hm. destruct (m env s c) as [s1 [c1|e|r]] eqn:E;
      destruct (Hm _ _ _ _ _ E) as [Hs Hreq].
    + destruct (IH _ _ _ _ _ Hrun) as [Hs' Hreq']. split; [eauto|].
      intros c' Hc'. rewrite (Hreq' _ Hc'). now apply Hreq.
    + injection Hrun as <- <-. split; [exact Hs | discriminate].
    + injection Hrun as <- <-. split; [exact Hs | discriminate].
Qed.

(** Only the routes registered for the method of the request are run. *)
Lemma dispatch_keeps (mth : Method) (routes : list Route) :
  Forall (fun r => r_method r = mth -> stack_keeps R (r_stack r)) routes ->
  forall segs env s c s' res,
    method (ctx_req c) = mth ->
    dispatch routes segs env s c = (s', res) ->
    R s s' /\ forall c', res = Continue c' -> ctx_req c' = ctx_req c.
Proof.
  induction 1 as [|r routes Hr _ IH]; intros segs env s c s' res Hm Hrun;
    simpl in Hrun.
  - injection Hrun as <- <-. split; [apply R_refl|]. now intros c' [= <-].
  - destruct (Method_eqb (r_method r) (method (ctx_req c))) eqn:Em;
      [|exact (IH _ _ _ _ _ _ Hm Hrun)].
    destruct (match_path (r_pattern r) segs) as [params|];
      [|exact (IH _ _ _ _ _ _ Hm Hrun)].
    assert (Hmeth : r_method r = mth)
      by (rewrite <- Hm; destruct (r_method r), (method (ctx_req c));
          first [reflexivity | discriminate Em]).
    destruct (run_stack (r_stack r) env s (set_params params c)) as [s1 res1] eqn:E.
    destruct (run_stack_keeps _ (Hr Hmeth) _ _ _ _ _ E) as [Hs Hreq].
    destruct res1 as [st r1|e|c1];
      try (injection Hrun as <- <-; split; [exact Hs | discriminate]).
    pose proof (Hreq _ eq_refl) as Hc1. cbn [set_params ctx_req] in Hc1.
    assert (Hm1 : method (ctx_req c1) = mth) by now rewrite Hc1.
    destruct (IH _ _ _ _ _ _ Hm1 Hrun) as [Hs' Hreq']. split; [eauto|].
    intros c' Hc'. now rewrite (Hreq' _ Hc').
Qed.

Lemma mount_keeps (mth : Method) (prefix : option string) (routes : list Route) :
  Forall (fun r => r_method r = mth -> stack_keeps R (r_stack r)) routes ->
  forall segs env s c s' res,
    method (ctx_req c) = mth ->
    mount prefix routes segs env s c = (s', res) ->
    R s s' /\ forall c', res = Continue c' -> ctx_req c' = ctx_req c.
Proof.
  intros Hr segs env s c s' res Hm Hrun. unfold mount in Hrun.
  destruct prefix as [p|]; [|exact (dispatch_keeps _ _ Hr _ _ _ _ _ _ Hm Hrun)].
  destruct segs as [|seg below];
    [injection Hrun as <- <-; split; [apply R_refl | now intros c' [= <-]]|].
  destruct (String.eqb _ _); [exact (dispatch_keeps _ _ Hr _ _ _ _ _ _ Hm Hrun)|].
  injection Hrun as <- <-. split; [apply R_refl | now intros c' [= <-]].
Qed.

(** The application keeps what its three routers keep. *)
Lemma app_stack_keeps (mth : Method) (segs : list string) (env : Env) (s s' : Store)
    (c : Ctx) (res : Result) :
  (forall s1 c1 s2 r, method (ctx_req c1) = mth ->
     mount (Some "items") item_routes segs env s1 c1 = (s2, r) ->
     R s1 s2 /\ forall c', r = Continue c' -> ctx_req c' = ctx_req c1) ->
  (forall s1 c1 s2 r, method (ctx_req c1) = mth ->
     mount (Some "auth") auth_routes segs env s1 c1 = (s2, r) ->
     R s1 s2 /\ forall c', r = Continue c' -> ctx_req c' = ctx_req c1) ->
  (forall s1 c1 s2 r, method (ctx_req c1) = mth ->
     mount None status_routes segs env s1 c1 = (s2, r) ->
     R s1 s2 /\ forall c', r = Continue c' -> ctx_req c' = ctx_req c1) ->
  method (ctx_req c) = mth ->
  app_stack segs env s c = (s', res) -> R s s'.
Proof.
  intros Hitems Hauth Hstatus Hm Hrun. unfold app_stack, api_router in Hrun.
  destruct (mount (Some "items") item_routes segs env s c) as [s1 r1] eqn:E1.
  destruct (Hitems _ _ _ _ Hm E1) as [H1 Hc1].
  destruct r1 as [st r|e|c1]; try (injection Hrun as <- <-; exact H1).
  assert (Hm1 : method (ctx_req c1) = mth) by now rewrite (Hc1 _ eq_refl).
  destruct (mount (Some "auth") auth_routes segs env s1 c1) as [s2 r2] eqn:E2.
  destruct (Hauth _ _ _ _ Hm1 E2) as [H2 Hc2].
  destruct r2 as [st r|e|c2]; try (injection Hrun as <- <-; eauto).
  assert (Hm2 : method (ctx_req c2) = mth) by now rewrite (Hc2 _ eq_refl).
  destruct (mount None status_routes segs env s2 c2) as [s3 r3] eqn:E3.
  destruct (Hstatus _ _ _ _ Hm2 E3) as [H3 Hc3].
  destruct r3 as [st r|e|c3]; try (injection Hrun as <- <-; eauto).
  cbn [run_stack] in Hrun. unfold docs, notFoundHandler in Hrun.
  destruct segs as [|seg rest];
    [|destruct (String.eqb (Js.toLowerCase seg) "docs");
      [|destruct (String.eqb (Js.toLowerCase seg) "docs.json"
                  && Method_eqb (method (ctx_req c3)) GET
                  && (length (seg :: rest) =? 1)%nat)]];
    injection Hrun as <- <-; eauto.
Qed.

End Keeps.

Ltac read_only_keeps :=
  intros env s c s' o Hrun;
  split_outcome Hrun;
  (split; [reflexivity|]);
  first [ discriminate
        | intros c' Hc'; injection Hc' as <-;
          unfold set_location, add_errors, set_user;
          repeat match goal with
                 | |- context [match ?l with InBody => _ | _ => _ end] => destruct l
                 end;
          reflexivity ].

Create HintDb keeps.

Section StagesKeep.

Context {C : Collaborators}.

Lemma chain_keeps (vc : ValidationChain) : mw_keeps eq (run_chain vc).
Proof. unfold run_chain. read_only_keeps. Qed.

Lemma validateRequest_keeps : mw_keeps eq validateRequest.
Proof. unfold validateRequest. read_only_keeps. Qed.

Lemma authenticateJWT_keeps : mw_keeps eq authenticateJWT.
Proof. unfold authenticateJWT. read_only_keeps. Qed.

Lemma list_items_keeps : mw_keeps eq list_items.
Proof. unfold list_items. read_only_keeps. Qed.

Lemma get_item_keeps : mw_keeps eq get_item.
Proof. unfold get_item, item_not_found. read_only_keeps. Qed.

Lemma search_items_keeps : mw_keeps eq search_items.
Proof. unfold search_items. read_only_keeps. Qed.

Lemma login_keeps : mw_keeps eq login.
Proof. unfold login, invalid_credentials. read_only_keeps. Qed.

Lemma me_keeps : mw_keeps eq me.
Proof. unfold me. read_only_keeps. Qed.

Lemma status_keeps : mw_keeps eq status.
Proof. unfold status. read_only_keeps. Qed.

Lemma echo_keeps : mw_keeps eq echo.
Proof. unfold echo. read_only_keeps. Qed.

Lemma data_keeps : mw_keeps eq data.
Proof. unfold data. read_only_keeps. Qed.

Lemma random_keeps : mw_keeps eq random.
Proof. unfold random. read_only_keeps. Qed.

Lemma legacy_search_keeps : mw_keeps eq legacy_search.
Proof. unfold legacy_search. read_only_keeps. Qed.

Lemma register_keeps_items : mw_keeps same_items register.
Proof.
  intros env s c s' o Hrun. unfold register in Hrun.
  destruct (UserModel.create _ _ _ _) as [[s1 u]|e] eqn:E; injection Hrun as <- <-;
    (split; [|discriminate]); [|reflexivity].
  unfold UserModel.create, db_guard in E.
  repeat match type of E with
         | context [match ?x with _ => _ end] => destruct x
         end; try discriminate;
    now injection E as <- _.
Qed.

Lemma create_item_keeps_users : mw_keeps same_users create_item.
Proof.
  intros env s c s' o Hrun. unfold create_item in Hrun.
  destruct (ItemModel.create _ _ _ _ _) as [[s1 d]|e] eqn:E; injection Hrun as <- <-;
    (split; [|discriminate]); [|reflexivity].
  unfold ItemModel.create, db_guard in E.
  repeat match type of E with
         | context [match ?x with _ => _ end] => destruct x
         end; try discriminate;
    now injection E as <- _.
Qed.

Lemma update_item_keeps_users : mw_keeps same_users update_item.
Proof.
  intros env s c s' o Hrun. unfold update_item, item_not_found in Hrun.
  destruct (ItemModel.findByIdAndUpdate _ _ _ _ _) as [[s1 r]|e] eqn:E.
  - assert (Hu : same_users s s1).
    { unfold ItemModel.findByIdAndUpdate, db_guard in E.
      repeat match type of E with
             | context [match ?x with _ => _ end] => destruct x
             end; try discriminate;
        now injection E as <- _. }
    destruct r; injection Hrun as <- <-; (split; [exact Hu | discriminate]).
  - injection Hrun as <- <-. split; [reflexivity | discriminate].
Qed.

Lemma delete_item_keeps_users : mw_keeps same_users delete_item.
Proof.
  intros env s c s' o Hrun. unfold delete_item, item_not_found in Hrun.
  destruct (ItemModel.findByIdAndDelete _ _ _) as [[s1 r]|e] eqn:E.
  - assert (Hu : same_users s s1).
    { unfold ItemModel.findByIdAndDelete, db_guard in E.
      repeat match type of E with
             | context [match ?x with _ => _ end] => destruct x
             end; try discriminate;
        now injection E as <- _. }
    destruct r; injection Hrun as <- <-; (split; [exact Hu | discriminate]).
  - injection Hrun as <- <-. split; [reflexivity | discriminate].
Qed.

Hint Resolve chain_keeps validateRequest_keeps authenticateJWT_keeps list_items_keeps
  get_item_keeps search_items_keeps login_keeps me_keeps status_keeps echo_keeps
  data_keeps random_keeps legacy_search_keeps register_keeps_items
  create_item_keeps_users update_item_keeps_users delete_item_keeps_users : keeps.

Ltac stack_keeps_tac R_refl :=
  unfold stack_keeps;
  repeat first [apply List.Forall_nil | apply List.Forall_cons
               | progress cbn [r_stack snd chain validate handler]];
  first [ solve [auto with keeps]
        | apply mw_keeps_weaken; [exact R_refl | solve [auto with keeps]] ].

Ltac routes_keep_tac R_refl :=
  repeat first [apply List.Forall_nil | apply List.Forall_cons];
  cbn [r_method r_stack]; intros Hmeth; try discriminate Hmeth;
  stack_keeps_tac R_refl.

(** The routes registered for GET only read. *)
Lemma get_routes_read_only :
  Forall (fun r => r_method r = GET -> stack_keeps eq (r_stack r))
         (item_routes ++ auth_routes ++ status_routes).
Proof.
  unfold item_routes, auth_routes, status_routes, get_item_stack, create_item_stack,
    update_item_stack, delete_item_stack, search_items_stack, register_stack,
    login_stack, me_stack, echo_stack.
  cbn [app].
  routes_keep_tac (@eq_refl Store).
Qed.

Lemma item_routes_keep_users (mth : Method) :
  Forall (fun r => r_method r = mth -> stack_keeps same_users (r_stack r)) item_routes.
Proof.
  unfold item_routes, get_item_stack, create_item_stack, update_item_stack,
    delete_item_stack, search_items_stack.
  repeat first [apply List.Forall_nil | apply List.Forall_cons];
    cbn [r_stack]; intros _; stack_keeps_tac (fun s => @eq_refl _ (users s)).
Qed.

Lemma auth_routes_keep_items (mth : Method) :
  Forall (fun r => r_method r = mth -> stack_keeps same_items (r_stack r)) auth_routes.
Proof.
  unfold auth_routes, register_stack, login_stack, me_stack.
  repeat first [apply List.Forall_nil | apply List.Forall_cons];
    cbn [r_stack]; intros _; stack_keeps_tac (fun s => @eq_refl _ (items s)).
Qed.

Lemma status_routes_read_only (mth : Method) :
  Forall (fun r => r_method r = mth -> stack_keeps eq (r_stack r)) status_routes.
Proof.
  unfold status_routes, echo_stack.
  repeat first [apply List.Forall_nil | apply List.Forall_cons];
    cbn [r_stack]; intros _; stack_keeps_tac (@eq_refl Store).
Qed.

Lemma mount_passed_by (p seg : string) (routes : list Route) (below : list string)
    (env : Env) (s : Store) (c : Ctx) :
  Js.toLowerCase p = p -> Js.toLowerCase seg <> p ->
  mount (Some p) routes (seg :: below) env s c = (s, Continue c).
Proof.
  intros Hp Hseg. unfold mount. rewrite Hp.
  destruct (String.eqb p (Js.toLowerCase seg)) eqn:E; [|reflexivity].
  apply String.eqb_eq in E. congruence.
Qed.

(** X19: a GET request never changes the store, whatever its path, its
    headers and the state of the database: the routes registered for GET,
    the validators, the token verifier, the documentation and the not-found
    handler only read. *)
Theorem get_requests_leave_store (env : Env) (s : Store) (req : Request) :
  method req = GET -> fst (serve env s req) = s.
Proof.
  intros Hm. unfold serve.
  destruct (app_stack (path req) env s (init_ctx req)) as [s' res] eqn:E.
  assert (Hs : s = s').
  { pose proof get_routes_read_only as Hall.
    apply Forall_app in Hall as [Hitems Hall].
    apply Forall_app in Hall as [Hauth Hstatus].
    apply (app_stack_keeps eq (@eq_trans Store) GET _ _ _ _ _ _)
      with (5 := E); [| | |exact Hm];
      intros s1 c1 s2 r Hm1 Hrun.
    - exact (mount_keeps eq (@eq_refl Store) (@eq_trans Store) GET _ _ Hitems
               _ _ _ _ _ _ Hm1 Hrun).
    - exact (mount_keeps eq (@eq_refl Store) (@eq_trans Store) GET _ _ Hauth
               _ _ _ _ _ _ Hm1 Hrun).
    - exact (mount_keeps eq (@eq_refl Store) (@eq_trans Store) GET _ _ Hstatus
               _ _ _ _ _ _ Hm1 Hrun). }
  subst s'. destruct res as [st r|e|c1]; try reflexivity.
  cbn [respond]. destruct (Method_eqb _ _); reflexivity.
Qed.

(** X20: a request changes at most the collection its path addresses:
    unless the first path segment is [auth] the users are as before, and
    unless it is [items] the items are as before (in any letter case). *)
Theorem requests_write_their_own_collection
    (env : Env) (s : Store) (req : Request) (seg : string) (rest : list string) :
  path req = seg :: rest ->
  (Js.toLowerCase seg <> "auth"%string -> users (fst (serve env s req)) = users s) /\
  (Js.toLowerCase seg <> "items"%string -> items (fst (serve env s req)) = items s).
Proof.
  intros Hp. unfold serve. rewrite Hp.
  destruct (app_stack (seg :: rest) env s (init_ctx req)) as [s' res] eqn:E.
  assert (Hfst : fst (respond env (s', res)) = s')
    by (destruct res; try reflexivity; cbn [respond]; destruct (Method_eqb _ _);
        reflexivity).
  rewrite Hfst. clear Hfst.
  assert (Hru : forall s0, same_users s0 s0) by reflexivity.
  assert (Hri : forall s0, same_items s0 s0) by reflexivity.
  assert (Htu : forall s1 s2 s3, same_users s1 s2 -> same_users s2 s3 -> same_users s1 s3)
    by (unfold same_users; congruence).
  assert (Hti : forall s1 s2 s3, same_items s1 s2 -> same_items s2 s3 -> same_items s1 s3)
    by (unfold same_items; congruence).
  assert (Hstatus : forall R : Store -> Store -> Prop, (forall s0, R s0 s0) ->
            Forall (fun r => r_method r = method req -> stack_keeps R (r_stack r))
                   status_routes).
  { intros R HR.
    eapply List.Forall_impl; [|apply (status_routes_read_only (method req))].
    intros r0 Hr0 Hmeth. eapply List.Forall_impl; [|exact (Hr0 Hmeth)].
    intros p. now apply mw_keeps_weaken. }
  split; intros Hseg.
  - apply (app_stack_keeps same_users Htu (method req) _ _ _ _ _ _)
      with (5 := E); [| | |reflexivity]; intros s1 c1 s2 r Hm1 Hrun.
    + exact (mount_keeps same_users Hru Htu _ _ _ (item_routes_keep_users _)
               _ _ _ _ _ _ Hm1 Hrun).
    + rewrite mount_passed_by in Hrun by (reflexivity || assumption).
      injection Hrun as <- <-. split; [reflexivity | now intros c' [= <-]].
    + exact (mount_keeps same_users Hru Htu _ _ _ (Hstatus _ Hru)
               _ _ _ _ _ _ Hm1 Hrun).
  - apply (app_stack_keeps same_items Hti (method req) _ _ _ _ _ _)
      with (5 := E); [| | |reflexivity]; intros s1 c1 s2 r Hm1 Hrun.
    + rewrite mount_passed_by in Hrun by (reflexivity || assumption).
      injection Hrun as <- <-. split; [reflexivity | now intros c' [= <-]].
    + exact (mount_keeps same_items Hri Hti _ _ _ (auth_routes_keep_items _)
               _ _ _ _ _ _ Hm1 Hrun).
    + exact (mount_keeps same_items Hri Hti _ _ _ (Hstatus _ Hri)
               _ _ _ _ _ _ Hm1 Hrun).
Qed.

End StagesKeep.

(** ** The item routes while the database is down *)

(** A middleware that, while the database rejects its operations, leaves
    the store alone and either passes the request on, answers 400, or
    forwards a 500 with the code INTERNAL_ERROR. *)
Definition mw_down (m : Middleware) : Prop :=
  forall env s c s' o,
    db_fault env <> None -> m env s c = (s', o) ->
    s' = s /\ match o with
              | Send r => status_of r = 400%nat
              | NextErr e => exists msg, e = ApiError_default 500 msg
              | Next _ => True
              end.

Definition down_result (s s' : Store) (res : Result) : Prop :=
  s' = s /\ match res with
            | Done _ r => status_of r = 400%nat
            | Failed e => exists msg, e = ApiError_default 500 msg
            | Continue _ => True
            end.

Lemma run_stack_down (stack : list (Stage * Middleware)) :
  Forall (fun p => mw_down (snd p)) stack ->
  forall env s c s' res,
    db_fault env <> None -> run_stack stack env s c = (s', res) -> down_result s s' res.
Proof.
  induction 1 as [|[st m] stack Hm _ IH]; intros env s c s' res Hdb Hrun; simpl in Hrun.
  - injection Hrun as <- <-. now split.
  - cbn [snd] in Hm. destruct (m env s c) as [s1 [c1|e|r]] eqn:E;
      destruct (Hm _ _ _ _ _ Hdb E) as [-> Ho].
    + exact (IH _ _ _ _ _ Hdb Hrun).
    + injection Hrun as <- <-. now split.
    + injection Hrun as <- <-. now split.
Qed.

Lemma dispatch_down {C : Collaborators} (routes : list Route) :
  Forall (fun r => Forall (fun p => mw_down (snd p)) (r_stack r)) routes ->
  forall segs env s c s' res,
    db_fault env <> None -> dispatch routes segs env s c = (s', res) ->
    down_result s s' res.
Proof.
  induction 1 as [|r routes Hr _ IH]; intros segs env s c s' res Hdb Hrun;
    simpl in Hrun.
  - injection Hrun as <- <-. now split.
  - destruct (Method_eqb _ _); [|exact (IH _ _ _ _ _ _ Hdb Hrun)].
    destruct (match_path _ _) as [params|]; [|exact (IH _ _ _ _ _ _ Hdb Hrun)].
    destruct (run_stack (r_stack r) env s (set_params params c)) as [s1 res1] eqn:E.
    pose proof (run_stack_down _ Hr _ _ _ _ _ Hdb E) as Hres.
    destruct res1 as [st r1|e|c1]; try (injection Hrun as <- <-; exact Hres).
    destruct Hres as [-> _]. exact (IH _ _ _ _ _ _ Hdb Hrun).
Qed.

Ltac down_handler :=
  intros env s c s' o Hdb Hrun;
  unfold ItemModel.find, ItemModel.countDocuments, ItemModel.findById, ItemModel.create,
    ItemModel.findByIdAndUpdate, ItemModel.findByIdAndDelete, db_guard in Hrun;
  destruct (db_fault env); [|contradiction];
  injection Hrun as <- <-; split; [reflexivity | eexists; reflexivity].

Section DatabaseDown.

Context {C : Collaborators}.

Lemma chain_down (vc : ValidationChain) : mw_down (run_chain vc).
Proof.
  intros env s c s' o _ Hrun. unfold run_chain in Hrun.
  split_outcome Hrun; now split.
Qed.

Lemma validateRequest_down : mw_down validateRequest.
Proof.
  intros env s c s' o _ Hrun. unfold validateRequest in Hrun.
  split_outcome Hrun; now split.
Qed.

Lemma list_items_down : mw_down list_items.
Proof. unfold list_items. down_handler. Qed.

Lemma get_item_down : mw_down get_item.
Proof. unfold get_item. down_handler. Qed.

Lemma create_item_down : mw_down create_item.
Proof. unfold create_item. down_handler. Qed.

Lemma update_item_down : mw_down update_item.
Proof. unfold update_item. down_handler. Qed.

Lemma delete_item_down : mw_down delete_item.
Proof. unfold delete_item. down_handler. Qed.

Lemma search_items_down : mw_down search_items.
Proof. unfold search_items. down_handler. Qed.

Lemma item_routes_down :
  Forall (fun r => Forall (fun p => mw_down (snd p)) (r_stack r)) item_routes.
Proof.
  unfold item_routes, get_item_stack, create_item_stack, update_item_stack,
    delete_item_stack, search_items_stack.
  repeat first [apply List.Forall_nil | apply List.Forall_cons
               | progress cbn [r_stack snd chain validate handler]];
    first [ apply chain_down | apply validateRequest_down | apply list_items_down
          | apply get_item_down | apply create_item_down | apply update_item_down
          | apply delete_item_down | apply search_items_down ].
Qed.

(** X21: while the database rejects its operations, no request below
    /api/items succeeds or writes: the store is left as it is and the answer
    is 400 from the request validator, 500 from a handler, or 404 when no
    item route takes the request. *)
Theorem item_requests_fail_while_database_down
    (env : Env) (s : Store) (req : Request) (seg : string) (rest : list string) :
  db_fault env <> None ->
  path req = seg :: rest -> Js.toLowerCase seg = "items"%string ->
  fst (serve env s req) = s /\
  In (status_of (response (snd (serve env s req)))) [400; 404; 500]%nat.
Proof.
  intros Hdb Hp Hseg. unfold serve, app_stack, api_router, mount. rewrite Hp, Hseg.
  change (String.eqb (Js.toLowerCase "items") "items") with true.
  change (String.eqb (Js.toLowerCase "auth") "items") with false.
  cbv beta iota.
  destruct (dispatch item_routes rest env s (init_ctx req)) as [s1 res] eqn:E.
  destruct (dispatch_down _ item_routes_down _ _ _ _ _ _ Hdb E) as [-> Hres].
  destruct res as [st r|e|c1].
  - cbn [respond fst snd response]. rewrite Hres. cbn. tauto.
  - destruct Hres as [msg ->]. cbn. tauto.
  - unfold status_routes.
    cbn [dispatch r_method r_pattern r_stack match_path]. rewrite Hseg.
    eval_closed_eqb.
    assert (Hskip : forall (b : bool) (X : Store * Result), (if b then X else X) = X)
      by (intros [] ?; reflexivity).
    rewrite !Hskip.
    cbn [run_stack]. unfold docs. rewrite Hseg. eval_closed_eqb.
    cbn [andb]. unfold notFoundHandler. cbn. tauto.
Qed.

End DatabaseDown.

(** * Runs of the further properties on the concrete instance *)

Module MoreRuns.

Import Demo.

Definition me_request (auth : option string) : Request :=
  request GET ["auth"; "me"] auth ∅.

Definition alice_user : User :=
  mkUser "aaaaaaaaaaaaaaaaaaaaaaaa" "alice" "hash:wonderland" "user" 1000 1000.

Definition groceries : Item :=
  mkItem "abcdefabcdefabcdefabcdef" "Groceries" "milk, eggs"
         (Some "aaaaaaaaaaaaaaaaaaaaaaaa") 2000 2000.

Definition search_request (q : gmap string string) : Request :=
  mkRequest GET ["items"; "search"] "/api/items/search" None ∅ q.

(** The protected route without a header. *)
Lemma me_without_header_is_auth_required_run :
  serve (C := collaborators) env empty_store (me_request None)
  = (empty_store,
     mkServed ErrorNormalizer
       (Json 401 (api_error_body "Authentication required" "AUTH_REQUIRED"))).
Proof.
  apply (me_without_header_is_auth_required (C := collaborators) env empty_store
           (me_request None));
    reflexivity.
Defined.

(** A header with another scheme word. *)
Lemma me_malformed_header_is_invalid_format_run :
  serve (C := collaborators) env empty_store (me_request (Some "Token abc"))
  = (empty_store,
     mkServed ErrorNormalizer
       (Json 401 (api_error_body "Invalid authorization format. Use: Bearer <token>"
                                 "INVALID_AUTH_FORMAT"))).
Proof.
  apply (me_malformed_header_is_invalid_format (C := collaborators) env empty_store
           (me_request (Some "Token abc")) "Token abc").
  - reflexivity.
  - reflexivity.
  - reflexivity.
  - discriminate.
  - intros tok _ H. inversion H.
Defined.

(** The token minted for alice at second 5000, presented at that second. *)
Lemma minted_token_lifecycle_run :
  serve (C := collaborators) env store_with_alice
        (me_request (Some "Bearer fresh-token"))
  = (store_with_alice,
     mkServed ResourceHandler
       (Json 200 (JObj [("success", JBool true);
                        ("user", JObj [("id", JStr "aaaaaaaaaaaaaaaaaaaaaaaa");
                                       ("username", JStr "alice");
                                       ("role", JStr "user");
                                       ("createdAt", JDate 1000)])]))).
Proof.
  apply (proj1 (minted_token_lifecycle (C := collaborators) env env store_with_alice
                  (me_request (Some "Bearer fresh-token"))
                  "aaaaaaaaaaaaaaaaaaaaaaaa" "alice" "user"
                  eq_refl eq_refl eq_refl eq_refl eq_refl)).
  - reflexivity.
  - vm_compute. reflexivity.
Defined.

(** alice logs in and asks for her profile with the token she got. *)
Lemma login_then_me_returns_user_run :
  serve (C := collaborators) env store_with_alice
        (request POST ["auth"; "login"] None (Runs.credentials "alice" "wonderland"))
  = (store_with_alice,
     mkServed ResourceHandler
       (Json 200 (JObj [("success", JBool true);
                        ("message", JStr "Login successful");
                        ("token", JStr "fresh-token");
                        ("user", JObj [("id", JStr "aaaaaaaaaaaaaaaaaaaaaaaa");
                                       ("username", JStr "alice");
                                       ("role", JStr "user")])]))) /\
  serve (C := collaborators) env store_with_alice
        (me_request (Some "Bearer fresh-token"))
  = (store_with_alice,
     mkServed ResourceHandler
       (Json 200 (JObj [("success", JBool true);
                        ("user", JObj [("id", JStr "aaaaaaaaaaaaaaaaaaaaaaaa");
                                       ("username", JStr "alice");
                                       ("role", JStr "user");
                                       ("createdAt", JDate 1000)])]))).
Proof.
  apply (login_then_me_returns_user (C := collaborators) env env store_with_alice
           (request POST ["auth"; "login"] None (Runs.credentials "alice" "wonderland"))
           (me_request (Some "Bearer fresh-token")) alice_user);
    reflexivity.
Defined.

(** alice's verified role is not among the roles of an admin-only gate. *)
Lemma authorize_after_authenticateJWT_run :
  exists decoded,
    ctx_user (set_user (mkClaims "aaaaaaaaaaaaaaaaaaaaaaaa" "alice" "user" 5000 91400)
                       (init_ctx (me_request (Some "Bearer fresh-token"))))
    = Some decoded /\
    authorize ["admin"] env store_with_alice
      (set_user (mkClaims "aaaaaaaaaaaaaaaaaaaaaaaa" "alice" "user" 5000 91400)
                (init_ctx (me_request (Some "Bearer fresh-token"))))
    = (store_with_alice,
       if existsb (String.eqb (claim_role decoded)) ["admin"]
       then Next (set_user (mkClaims "aaaaaaaaaaaaaaaaaaaaaaaa" "alice" "user" 5000 91400)
                           (init_ctx (me_request (Some "Bearer fresh-token"))))
       else NextErr (ApiError 403 "Insufficient permissions"
                              "INSUFFICIENT_PERMISSIONS")) /\
    (existsb (String.eqb (claim_role decoded)) ["admin"] = true
     <-> In (claim_role decoded) ["admin"]).
Proof.
  apply (authorize_after_authenticateJWT (C := collaborators) ["admin"] env
           store_with_alice store_with_alice
           (init_ctx (me_request (Some "Bearer fresh-token")))).
  reflexivity.
Defined.

(** The listing of a store with one item. *)
Lemma list_items_all_newest_first_run :
  exists l,
    serve (C := collaborators) env store_with_item (request GET ["items"] None ∅)
    = (store_with_item,
       mkServed ResourceHandler
         (Json 200 (JObj [("success", JBool true);
                          ("items", JArr (map item_json l))]))) /\
    Permutation l (items store_with_item) /\ newest_first l.
Proof.
  apply (list_items_all_newest_first (C := collaborators) env store_with_item
           (request GET ["items"] None ∅));
    reflexivity.
Defined.

(** A DELETE on the id 42. *)
Lemma malformed_item_id_is_rejected_run :
  serve (C := collaborators) env store_with_item (request DELETE ["items"; "42"] None ∅)
  = (store_with_item,
     mkServed RequestValidator
       (Json 400 (validation_body [field_entry "id" "Invalid item ID"]))).
Proof.
  apply (malformed_item_id_is_rejected (C := collaborators) env store_with_item
           (request DELETE ["items"; "42"] None ∅) "42").
  - right. reflexivity.
  - reflexivity.
  - discriminate.
  - reflexivity.
Defined.

(** A GET on a well-formed id that the store does not hold. *)
Lemma unknown_item_id_is_404_run :
  serve (C := collaborators) env store_with_item
        (request GET ["items"; "0123456789abcdef01234567"] None ∅)
  = (store_with_item,
     mkServed ErrorNormalizer
       (Json 404 (api_error_body "Item with ID 0123456789abcdef01234567 not found"
                                 "ITEM_NOT_FOUND"))).
Proof.
  apply (unknown_item_id_is_404 (C := collaborators) env store_with_item
           (request GET ["items"; "0123456789abcdef01234567"] None ∅)
           "0123456789abcdef01234567").
  - left. reflexivity.
  - reflexivity.
  - reflexivity.
  - reflexivity.
  - reflexivity.
Defined.

(** The one item of the store is deleted, then asked for. *)
Lemma delete_item_removes_exactly_it_run :
  exists s',
    serve (C := collaborators) env store_with_item
          (request DELETE ["items"; "abcdefabcdefabcdefabcdef"] None ∅)
    = (s', mkServed ResourceHandler
             (Json 200 (JObj [("success", JBool true);
                              ("message",
                               JStr ("Item with ID " ++ "abcdefabcdefabcdefabcdef"
                                     ++ " deleted successfully"))]))) /\
    users s' = users store_with_item /\
    (forall j, In j (items s')
               <-> In j (items store_with_item) /\
                   item_id j <> Js.toLowerCase "abcdefabcdefabcdefabcdef") /\
    serve (C := collaborators) env s'
          (request GET ["items"; "abcdefabcdefabcdefabcdef"] None ∅)
    = (s', mkServed ErrorNormalizer
             (Json 404 (api_error_body ("Item with ID " ++ "abcdefabcdefabcdefabcdef"
                                        ++ " not found")
                                       "ITEM_NOT_FOUND"))).
Proof.
  apply (delete_item_removes_exactly_it (C := collaborators) env env store_with_item
           (request DELETE ["items"; "abcdefabcdefabcdefabcdef"] None ∅)
           (request GET ["items"; "abcdefabcdefabcdefabcdef"] None ∅)
           "abcdefabcdefabcdefabcdef" groceries);
    try reflexivity.
  simpl. constructor; [intros [] | constructor].
Defined.

(** The title of the stored item is replaced, the content is kept. *)
Lemma update_item_merges_fields_run :
  exists s',
    serve (C := collaborators) env store_with_item
          (request PUT ["items"; "abcdefabcdefabcdefabcdef"] None
                   (<["title" := " Shopping "]> ∅))
    = (s', mkServed ResourceHandler
             (Json 200 (JObj [("success", JBool true);
                              ("message", JStr "Item updated successfully");
                              ("item",
                               item_json (mkItem "abcdefabcdefabcdefabcdef" "Shopping"
                                                 "milk, eggs"
                                                 (Some "aaaaaaaaaaaaaaaaaaaaaaaa")
                                                 2000 5000000))]))) /\
    ItemModel.lookup (Js.toLowerCase "abcdefabcdefabcdefabcdef") (items s')
    = Some (mkItem "abcdefabcdefabcdefabcdef" "Shopping" "milk, eggs"
                   (Some "aaaaaaaaaaaaaaaaaaaaaaaa") 2000 5000000) /\
    users s' = users store_with_item.
Proof.
  exact (update_item_merges_fields (C := collaborators) env store_with_item
           (request PUT ["items"; "abcdefabcdefabcdefabcdef"] None
                    (<["title" := " Shopping "]> ∅))
           "abcdefabcdefabcdefabcdef" groceries
           eq_refl eq_refl eq_refl eq_refl eq_refl eq_refl eq_refl).
Defined.

(** A title of two spaces. *)
Lemma update_item_rejects_blank_title_run :
  exists details,
    serve (C := collaborators) env store_with_item
          (request PUT ["items"; "abcdefabcdefabcdefabcdef"] None
                   (<["title" := "  "]> ∅))
    = (store_with_item,
       mkServed RequestValidator (Json 400 (validation_body details))) /\
    In (field_entry "title" "Title cannot be empty") details.
Proof.
  apply (update_item_rejects_blank_title (C := collaborators) env store_with_item
           (request PUT ["items"; "abcdefabcdefabcdefabcdef"] None
                    (<["title" := "  "]> ∅))
           "abcdefabcdefabcdefabcdef" "  ").
  - reflexivity.
  - reflexivity.
  - discriminate.
  - reflexivity.
  - reflexivity.
Defined.

(** Two creations with the same generated id, then a delete. *)
Lemma requests_keep_item_ids_distinct_run :
  ids_distinct
    (run_requests (C := collaborators)
       [(env, Runs.create_request None "a" "b");
        (env, Runs.create_request None "c" "d");
        (env, request DELETE ["items"; "abcdefabcdefabcdefabcdef"] None ∅)]
       store_with_item).
Proof.
  apply (requests_keep_item_ids_distinct (C := collaborators)).
  unfold ids_distinct. simpl. constructor; [intros [] | constructor].
Defined.

(** The listing while the database is down, under two messages. *)
Lemma item_routes_hide_database_message_run :
  serve (C := collaborators) (with_fault "connection refused" env) store_with_item
        (request GET ["items"] None ∅)
  = serve (C := collaborators) (with_fault "timed out" env) store_with_item
          (request GET ["items"] None ∅).
Proof.
  apply (item_routes_hide_database_message (C := collaborators)
           "connection refused" "timed out" env store_with_item
           (request GET ["items"] None ∅) "items" []);
    reflexivity.
Defined.

(** bob registers while the database is down. *)
Lemma register_reports_database_message_as_validation_error_run :
  exists details,
    serve (C := collaborators) (with_fault "connection refused" env) empty_store
          (request POST ["auth"; "register"] None (Runs.credentials "bob" "secret1"))
    = (empty_store,
       mkServed RequestValidator (Json 400 (validation_body details))) /\
    In (field_entry "username" "connection refused") details.
Proof.
  apply (register_reports_database_message_as_validation_error (C := collaborators)
           (with_fault "connection refused" env) empty_store
           (request POST ["auth"; "register"] None (Runs.credentials "bob" "secret1"))
           "connection refused");
    reflexivity.
Defined.

(** A path below /api that no router knows. *)
Lemma unrouted_path_is_404_run :
  serve (C := collaborators) env empty_store (request PATCH ["users"; "7"] None ∅)
  = (empty_store,
     mkServed ErrorNormalizer
       (Json 404 (api_error_body ("Route not found: " ++ "/api") "NOT_FOUND"))).
Proof.
  apply (unrouted_path_is_404 (C := collaborators) env empty_store
           (request PATCH ["users"; "7"] None ∅) "users" ["7"]).
  - reflexivity.
  - intros H. vm_compute in H. intuition discriminate.
Defined.

(** The second page of one item per page, of a store with one item: the
    page is empty and there is no next page. *)
Lemma search_items_returns_page_run :
  search_items (C := collaborators) env store_with_item
    (init_ctx (search_request (<["page" := "2"]> (<["limit" := "1"]> ∅))))
  = (store_with_item,
     Send (Json 200 (JObj
       [("success", JBool true);
        ("results", JArr []);
        ("pagination",
         JObj [("total", JNum 1); ("page", JNum 2); ("limit", JNum 1);
               ("pages", JNum 1);
               ("hasNextPage", JBool false);
               ("hasPrevPage", JBool true)])]))).
Proof.
  refine (proj1 (search_items_returns_page (C := collaborators) env store_with_item
                   (init_ctx (search_request (<["page" := "2"]> (<["limit" := "1"]> ∅))))
                   2 1 eq_refl eq_refl eq_refl _ _ _ _)).
  - lia.
  - lia.
  - reflexivity.
  - vm_compute. constructor; [intros [] | constructor].
Defined.

(** A search for page 007 with 10 items per page reaches the handler,
    which reads page 7. *)
Lemma search_validators_bound_page_and_limit_run :
  ((exists p,
       parseInt_or
         (ctx_query (init_ctx (search_request
                                 (<["page" := "007"]> (<["limit" := "10"]> ∅))))
          !! "page") 1 = Js.Finite p /\ 1 <= p) \/
   parseInt_or
     (ctx_query (init_ctx (search_request
                             (<["page" := "007"]> (<["limit" := "10"]> ∅))))
      !! "page") 1 = Js.Infinite false) /\
  (exists l,
      parseInt_or
        (ctx_query (init_ctx (search_request
                                (<["page" := "007"]> (<["limit" := "10"]> ∅))))
         !! "limit") 10 = Js.Finite l /\ 1 <= l <= 50).
Proof.
  apply (search_validators_bound_page_and_limit (C := collaborators) env
           store_with_item
           (fst (run_stack (search_items_stack (C := collaborators)) env store_with_item
                   (init_ctx (search_request
                                (<["page" := "007"]> (<["limit" := "10"]> ∅))))))
           (init_ctx (search_request (<["page" := "007"]> (<["limit" := "10"]> ∅))))
           (snd (run_stack (search_items_stack (C := collaborators)) env store_with_item
                   (init_ctx (search_request
                                (<["page" := "007"]> (<["limit" := "10"]> ∅))))))).
  - reflexivity.
  - vm_compute. reflexivity.
  - intros r H. vm_compute in H. discriminate.
Defined.

(** A GET on the stored item. *)
Lemma get_requests_leave_store_run :
  fst (serve (C := collaborators) env store_with_item
             (request GET ["items"; "abcdefabcdefabcdefabcdef"] None ∅))
  = store_with_item.
Proof.
  apply (get_requests_leave_store (C := collaborators) env store_with_item
           (request GET ["items"; "abcdefabcdefabcdefabcdef"] None ∅)).
  reflexivity.
Defined.

(** Creating an item in a store that holds alice leaves the users alone. *)
Lemma requests_write_their_own_collection_run :
  users (fst (serve (C := collaborators) env store_with_alice
                    (Runs.create_request None "Groceries" "milk")))
  = users store_with_alice.
Proof.
  apply (proj1 (requests_write_their_own_collection (C := collaborators) env
                  store_with_alice (Runs.create_request None "Groceries" "milk")
                  "items" [] eq_refl)).
  intros H. vm_compute in H. discriminate H.
Defined.

(** A create request while the database is down. *)
Lemma item_requests_fail_while_database_down_run :
  fst (serve (C := collaborators) (with_fault "connection refused" env) empty_store
             (Runs.create_request None "Groceries" "milk"))
  = empty_store /\
  In (status_of
        (response
           (snd (serve (C := collaborators) (with_fault "connection refused" env)
                       empty_store (Runs.create_request None "Groceries" "milk")))))
     [400; 404; 500]%nat.
Proof.
  apply (item_requests_fail_while_database_down (C := collaborators)
           (with_fault "connection refused" env) empty_store
           (Runs.create_request None "Groceries" "milk") "items" []).
  - discriminate.
  - reflexivity.
  - reflexivity.
Defined.

End MoreRuns.
